(** * RSE-Galaxy tools: a shallow embedding of the scripts and their properties

    Every script of the repository is a leaf program: it reads command-line
    arguments and files, calls a third-party library and writes files.  The
    embedding keeps the control flow and the data handling of each script as
    it is written and treats the wrapped libraries (VTK, CadQuery, gmsh,
    Minio, requests, json) as symbolic operations or as parameters.

    Part I holds the definitions, one module per script; Part II the
    properties. *)

From Stdlib Require Import ZArith QArith Qround Lia Lqa Bool Ascii DecimalString DecimalZ.
From stdpp Require Import base option list strings gmap.

Set Warnings "-register-all,-clear-no-such-hyp".

Open Scope Z_scope.

(** * Part I: the embedding *)

(** ** Python run-time conventions shared by the scripts *)

(** The exceptions the modelled code can raise.  [SystemExit] carries the
    message handed to [sys.exit]. *)
Inductive exn : Type :=
| ValueError (msg : string)
| IndexError
| KeyError (key : string)
| TypeError
| AttributeError
| ZeroDivisionError
| UnboundLocalError (name : string)
| SystemExit (msg : string).

(** The outcome of running a piece of Python: a value, an exception that
    propagates, or [Diverge] when the fuel given to a [while] loop ran out
    before its condition became false. *)
Inductive result (A : Type) : Type :=
| Ok (a : A)
| Raise (e : exn)
| Diverge.

Arguments Ok {A} a.
Arguments Raise {A} e.
Arguments Diverge {A}.

#[global] Instance result_ret : MRet result := fun _ a => Ok a.

#[global] Instance result_bind : MBind result := fun _ _ f m =>
  match m with
  | Ok a => f a
  | Raise e => Raise e
  | Diverge => Diverge
  end.

(** [seq[i]] on a Python list or a one-dimensional array, for [i >= 0]. *)
Definition getitem {A} (l : list A) (i : nat) : result A :=
  match l !! i with
  | Some a => Ok a
  | None => Raise IndexError
  end.

(** [seq[i] = v] on a Python list or a one-dimensional array. *)
Definition setitem {A} (l : list A) (i : nat) (v : A) : result (list A) :=
  if decide (i < length l)%nat then Ok (<[i := v]> l) else Raise IndexError.

(** [while cond: body], run with [fuel] tests of the condition.  Next to the
    final state the loop reports how many times its body ran. *)
Fixpoint while_loop {S : Type} (fuel : nat) (cond : S → bool)
    (body : S → result S) (s : S) : result (S * nat) :=
  match fuel with
  | O => Diverge
  | Datatypes.S fuel' =>
      if cond s then
        s' ← body s;
        r ← while_loop fuel' cond body s';
        Ok (r.1, Datatypes.S r.2)
      else Ok (s, O)
  end.

(** [str(z)] for an integer: its decimal digits, with a minus sign when it
    is negative. *)
Definition str_int (z : Z) : string :=
  DecimalString.NilZero.string_of_int (Z.to_int z).

(** ** unstructured_heatflux_to_PINN.py *)

Module HeatfluxToPINN.

Section Script.

(** Cell values and coordinates are float64 numbers.  The script does no
    arithmetic on them, it only moves them around, so their type is left
    open; [zero] is the float [0.0]. *)
Context {R : Type}.
Variable zero : R.

(** What the script uses of the grid read from the VTK file: the cell
    locator built on it ([FindCell] answers a cell id, negative when the
    point lies in no cell) and its cell data arrays ([GetArray(i)] answers
    [None] when there is no such array; an array is read by [GetValue]). *)
Record vtkUnstructuredGrid : Type := {
  FindCell : list R → Z;
  CellArrays : list (Z → R)
}.

Definition GetArray (grid : vtkUnstructuredGrid) (i : nat) : option (Z → R) :=
  CellArrays grid !! i.

Definition vtkSearchPoints (grid : vtkUnstructuredGrid) (aim_coor : list R)
    : result R :=
  let cell_id := FindCell grid aim_coor in
  if cell_id <? 0 then Ok zero
  else
    match GetArray grid 0 with
    | None => Raise AttributeError          (* None.GetValue *)
    | Some cell_array => Ok (cell_array cell_id)
    end.

(** The array [np.genfromtxt] answers: two-dimensional, one row per line of
    the file, or one-dimensional when the file holds a single line. *)
Inductive ndarray : Type :=
| Arr1 (data : list R)
| Arr2 (ncols : nat) (rows : list (list R)).

(** [coordinates.shape[1]] *)
Definition shape_1 (a : ndarray) : result nat :=
  match a with
  | Arr1 _ => Raise IndexError
  | Arr2 ncols _ => Ok ncols
  end.

Definition array_rows (a : ndarray) : list (list R) :=
  match a with
  | Arr1 _ => []
  | Arr2 _ rows => rows
  end.

(** [results = np.empty(n); for ii, result in enumerate(input_map):
    results[ii] = result] *)
Definition fill_results (input_map : list R) : list R :=
  foldl (fun results p => <[p.1 := p.2]> results)
        (replicate (length input_map) zero)
        (imap (fun ii result => (ii, result)) input_map).

(** [np.column_stack] of a two-dimensional array and column vectors. *)
Fixpoint column_stack (coordinates : list (list R)) (cols : list (list R))
    : result (list (list R)) :=
  match coordinates, cols with
  | [], [] => Ok []
  | row :: coordinates', extra :: cols' =>
      rest ← column_stack coordinates' cols';
      Ok ((row ++ extra) :: rest)
  | _, _ => Raise (ValueError "all the input array dimensions except for the concatenation axis must match exactly")
  end.

(** The [__main__] block; the answer is the array handed to [np.savetxt],
    one list per line of the output file.  [pool.map] applies the search to
    the rows and answers the results in the order of the rows; an exception
    in a worker is raised again in the parent. *)
Definition main (grid : vtkUnstructuredGrid) (coordinates : ndarray)
    : result (list (list R)) :=
  ncols ← shape_1 coordinates;
  let rows := array_rows coordinates in
  let area :=
    if decide (ncols = 4%nat) then Some (map (fun row => last row) rows) else None in
  let coordinates :=
    if decide (ncols = 4%nat) then map (fun row => removelast row) rows else rows in
  input_map ← mapM (vtkSearchPoints grid) coordinates;
  let results := fill_results input_map in
  match area with
  | None => column_stack coordinates (map (fun r => [r]) results)
  | Some area =>
      column_stack coordinates
        (zip_with (fun r a => r :: option_list a) results area)
  end.

(** The part of an input row that is looked up, when the array has
    [ncols] columns: all of it, or all but the fourth column. *)
Definition row_coordinates (ncols : nat) (row : list R) : list R :=
  if decide (ncols = 4%nat) then removelast row else row.

(** What follows the heat flux in the output row: the fourth column, when
    the input has four. *)
Definition row_area (ncols : nat) (row : list R) : list R :=
  if decide (ncols = 4%nat) then option_list (last row) else [].

End Script.

End HeatfluxToPINN.

(** [c = first; while c <= last: body; c = c + 1], the shape of the loops of
    the CAD scripts: [body] gets the counter and the other variables the loop
    updates.  The answer holds those variables and the number of
    passes. *)
Definition while_upto {T : Type} (fuel : nat) (first last : Z)
    (body : Z → T → result T) (t : T) : result (T * nat) :=
  r ← while_loop fuel (fun s : Z * T => s.1 <=? last)
        (fun s => t' ← body s.1 s.2; Ok (s.1 + 1, t'))
        (first, t);
  Ok (r.1.2, r.2).

(** The same loop with the number of passes fixed beforehand: [n] passes,
    the counter starting at [first]. *)
Fixpoint for_range {T : Type} (n : nat) (first : Z) (body : Z → T → result T)
    (t : T) : result T :=
  match n with
  | O => Ok t
  | Datatypes.S n' => t' ← body first t; for_range n' (first + 1) body t'
  end.

(** ** Numbers of the geometry scripts

    The sizes the geometry scripts compute are Python floats and ints.  The
    embedding computes them as exact rationals: the properties below are
    about which inputs are rejected and about how results are assembled, not
    about rounding. *)

(** [a / b] on Python numbers. *)
Definition py_div (a b : Q) : result Q :=
  if Qeq_bool b 0 then Raise ZeroDivisionError else Ok (a / b)%Q.

(** [round(x, 3)]: the nearest multiple of 1/1000, ties to the even one. *)
Definition round3 (x : Q) : Q :=
  let scaled := (x * 1000)%Q in
  let lo := Qfloor scaled in
  let twice_frac := Qfloor ((scaled - inject_Z lo) * 2)%Q in
  let exact_half := Qeq_bool ((scaled - inject_Z lo) * 2)%Q 1 in
  let n :=
    if exact_half then (if Z.even lo then lo else lo + 1)
    else if twice_frac <? 1 then lo else lo + 1 in
  (inject_Z n / 1000)%Q.

(** ** tile_paramak.py *)

Module TileParamak.

(** The attributes of a [tokamak_sizing] object. *)
Record tokamak_sizing : Type := {
  tile_thickness : Q;
  no_gap : bool;
  pv_tile_gapsize : Z;
  full_geometry : bool;
  tile_segments : Z;
  n_tile_segments : Z;
  tile_gap_size : Z;
  max_tile_major_radius : Z;
  max_tile_minor_radius : Z;
  max_tile_triangularity : Q;
  max_tile_elongation : Q;
  solenoid_clearance : Z;
  max_PV_thickness : Z;
  max_tile_thickness : Z;
  max_tile_r_upper : Q;
  max_tile_b : Q;
  tile_thickness_is_acceptable : bool
}.

(** [tokamak_sizing.__init__] *)
Definition init (tile_thickness : Q) (no_gap full_geometry : bool)
    (tile_segments : Z) : tokamak_sizing :=
  let max_tile_major_radius := 85 in
  let max_tile_minor_radius := 60 in
  let max_tile_triangularity := (3 # 10)%Q in
  let max_tile_elongation := (18 # 10)%Q in
  let solenoid_clearance := 5 in
  let max_PV_thickness := 5 in
  let max_tile_thickness :=
    max_tile_major_radius - max_tile_minor_radius - solenoid_clearance
    - max_PV_thickness in
  {| tile_thickness := tile_thickness;
     no_gap := no_gap;
     pv_tile_gapsize := 2;
     full_geometry := full_geometry;
     tile_segments := tile_segments;
     n_tile_segments := 8;
     tile_gap_size := 2;
     max_tile_major_radius := max_tile_major_radius;
     max_tile_minor_radius := max_tile_minor_radius;
     max_tile_triangularity := max_tile_triangularity;
     max_tile_elongation := max_tile_elongation;
     solenoid_clearance := solenoid_clearance;
     max_PV_thickness := max_PV_thickness;
     max_tile_thickness := max_tile_thickness;
     max_tile_r_upper :=
       (inject_Z max_tile_major_radius
        - max_tile_triangularity * inject_Z max_tile_minor_radius)%Q;
     max_tile_b := (inject_Z max_tile_minor_radius * max_tile_elongation)%Q;
     tile_thickness_is_acceptable :=
       Qle_bool tile_thickness (inject_Z max_tile_thickness) |}.

Definition thickness_error (self : tokamak_sizing) : exn :=
  SystemExit ("[ERROR] Tile thickness must be <= " +:+ str_int (max_tile_thickness self)).

(** The tuple [get_pressure_vessel_size] returns. *)
Record pv_size : Type := {
  PV_major_radius : Z;
  PV_minor_radius : Z;
  PV_triangularity : Q;
  PV_b : Q;
  PV_elongation : Q;
  PV_thickness : Z
}.

Definition get_pressure_vessel_size (self : tokamak_sizing) : result pv_size :=
  if negb (tile_thickness_is_acceptable self) then Raise (thickness_error self)
  else
    let PV_major_radius := max_tile_major_radius self in
    let PV_minor_radius := max_tile_minor_radius self + max_tile_thickness self in
    PV_triangularity ←
      py_div (inject_Z PV_major_radius - max_tile_r_upper self) (inject_Z PV_minor_radius);
    let PV_b := (inject_Z (max_tile_thickness self) + max_tile_b self)%Q in
    PV_elongation ← py_div PV_b (inject_Z PV_minor_radius);
    let PV_thickness := max_PV_thickness self in
    Ok {| PV_major_radius := PV_major_radius;
          PV_minor_radius := PV_minor_radius;
          PV_triangularity := PV_triangularity;
          PV_b := PV_b;
          PV_elongation := PV_elongation;
          PV_thickness := PV_thickness |}.

(** The tuple [get_tile_size] returns. *)
Record tile_size : Type := {
  tile_major_radius : Z;
  tile_minor_radius : Q;
  tile_triangularity : Q;
  tile_b : Q;
  tile_elongation : Q
}.

Definition get_tile_size (self : tokamak_sizing) : result tile_size :=
  if negb (tile_thickness_is_acceptable self) then Raise (thickness_error self)
  else
    pv ← get_pressure_vessel_size self;
    let tile_major_radius := max_tile_major_radius self in
    let tile_minor_radius :=
      if no_gap self then (inject_Z (PV_minor_radius pv) - tile_thickness self)%Q
      else (inject_Z (PV_minor_radius pv) - tile_thickness self
            - inject_Z (pv_tile_gapsize self))%Q in
    tile_triangularity ←
      py_div (inject_Z tile_major_radius - max_tile_r_upper self) tile_minor_radius;
    let tile_b := (PV_b pv - tile_thickness self)%Q in
    ratio ← py_div tile_b tile_minor_radius;
    let tile_elongation := (ratio - (5 # 100))%Q in
    Ok {| tile_major_radius := tile_major_radius;
          tile_minor_radius := tile_minor_radius;
          tile_triangularity := tile_triangularity;
          tile_b := tile_b;
          tile_elongation := tile_elongation |}.

(** The paramak shapes the script builds, kept as the constructor calls. *)
Inductive shape : Type :=
| BlanketFP (minor_radius major_radius triangularity elongation thickness : Q)
    (start_angle stop_angle rotation_angle : Z) (cut : list shape)
| BlanketCutterStar (distance : Z) (azimuth_placement_angle : list Q)
| BlanketFPPoloidalSegmentsCutters
    (minor_radius major_radius triangularity elongation : Q)
    (num_segments : Z) (segments_gap thickness : Q)
    (stop_angle start_angle rotation_angle : Z).

Definition generate_pressure_vessel_geometry (self : tokamak_sizing) : result shape :=
  pv ← get_pressure_vessel_size self;
  Ok (BlanketFP (inject_Z (PV_minor_radius pv)) (inject_Z (PV_major_radius pv))
        (PV_triangularity pv) (PV_elongation pv) (inject_Z (PV_thickness pv))
        (-270) 90 (if full_geometry self then 360 else 90) []).

(** [np.linspace(start, stop, num, endpoint=False)] *)
Definition linspace_open (start stop : Q) (num : nat) : list Q :=
  map (fun i => (start + inject_Z (Z.of_nat i) * ((stop - start) / inject_Z (Z.of_nat num)))%Q)
      (seq 0 num).

(** [pressure_vessel] is [None] when the caller passes none. *)
Definition generate_tile_geometry (self : tokamak_sizing)
    (pressure_vessel : option shape) (segmented : bool) : result shape :=
  ts ← get_tile_size self;
  let offset := 0%Q in
  let outboard_gaps :=
    BlanketCutterStar (tile_gap_size self)
      (linspace_open (0 + offset) (360 + offset) (Z.to_nat (n_tile_segments self))) in
  let rotation_angle := if full_geometry self then 360 else 90 in
  let cut_list :=
    if no_gap self then outboard_gaps :: option_list pressure_vessel
    else [outboard_gaps] in
  let tile_thickness_adjusted :=
    if no_gap self
    then (tile_thickness self + inject_Z (max_PV_thickness self) - 1)%Q
    else tile_thickness self in
  let cut_list :=
    if segmented then
      cut_list ++
      [BlanketFPPoloidalSegmentsCutters (tile_minor_radius ts)
         (inject_Z (tile_major_radius ts)) (tile_triangularity ts)
         (tile_elongation ts) (tile_segments self) (1 # 2) (tile_thickness self)
         90 (-270) rotation_angle]
    else cut_list in
  Ok (BlanketFP (tile_minor_radius ts) (inject_Z (tile_major_radius ts))
        (tile_triangularity ts) (tile_elongation ts) tile_thickness_adjusted
        (-270) 90 rotation_angle cut_list).

(** The ["geometry"] object of the configuration file, as far as the script
    reads it: [tile_thickness], and [tile_segments] when the key is there. *)
Record config : Type := {
  cfg_tile_thickness : Q;
  cfg_tile_segments : option Z
}.

(** The [__main__] block up to the exports: the pressure vessel and the
    tiles that are then written to STL, h5m and STEP files. *)
Definition main (config_dict : config) : result (shape * shape) :=
  let tile_thickness := cfg_tile_thickness config_dict in
  let tile_segments := default 0 (cfg_tile_segments config_dict) in
  let tokamak_sizer := init tile_thickness false false tile_segments in
  pressure_vessel ← generate_pressure_vessel_geometry tokamak_sizer;
  let segmented_bool := negb (tile_segments =? 0) in
  tiles ← generate_tile_geometry tokamak_sizer (Some pressure_vessel) segmented_bool;
  Ok (pressure_vessel, tiles).

End TileParamak.

(** ** sphere_gen.py *)

Module SphereGen.

(** CadQuery solids, kept as the calls that build them. *)
Inductive solid : Type :=
| Sphere (workplane : string) (radius : Q)
| Cut (a b : solid)
| Split (s : solid) (plane : string) (offset : Z).

Definition create_shape (shape : solid) (plane_to_cut : string)
    (cut_in_half : bool) : solid :=
  if cut_in_half then Split shape plane_to_cut 10 else shape.

(** The variables the loop of [create_reactor_layer] updates, and the STEP
    files it has exported so far. *)
Record layer_state : Type := {
  outer_radius : Q;
  component_list : list solid;
  exported : list string
}.

(** One pass of [for idx, component_thickness in enumerate(radial_build)]. *)
Definition layer_step (component_names : list string) (multiplier : Q)
    (workplane : string) (cut_in_half hollow_core render_save : bool)
    (save_directory : string) (st : layer_state) (idx : nat)
    (component_thickness : Q) : result layer_state :=
  let component_thickness := (component_thickness * multiplier)%Q in
  let outer_radius := (outer_radius st + round3 component_thickness)%Q in
  let sphere :=
    if decide (idx = 0%nat) then Sphere workplane component_thickness
    else
      let inner_radius := (outer_radius - component_thickness)%Q in
      Cut (Sphere workplane outer_radius) (Sphere workplane inner_radius) in
  if bool_decide (idx = 1%nat) && hollow_core then
    Ok {| outer_radius := outer_radius;
          component_list := component_list st;
          exported := exported st |}
  else
    let shape := create_shape sphere workplane cut_in_half in
    let component_list := component_list st ++ [shape] in
    if render_save then
      name ← getitem component_names idx;
      Ok {| outer_radius := outer_radius;
            component_list := component_list;
            exported := exported st ++ [save_directory +:+ "/" +:+ name +:+ ".step"] |}
    else
      Ok {| outer_radius := outer_radius;
            component_list := component_list;
            exported := exported st |}.

Fixpoint layer_loop (step : layer_state → nat → Q → result layer_state)
    (st : layer_state) (idx : nat) (radial_build : list Q) : result layer_state :=
  match radial_build with
  | [] => Ok st
  | component_thickness :: rest =>
      st' ← step st idx component_thickness;
      layer_loop step st' (Datatypes.S idx) rest
  end.

(** [create_reactor_layer]; [files] are the STEP files exported before the
    call.  The answer is the component list and the files exported. *)
Definition create_reactor_layer (radial_build : list Q)
    (component_names : list string) (multiplier : Q) (workplane : string)
    (cut_in_half hollow_core render_save : bool) (save_directory : string)
    (files : list string) : result (list solid * list string) :=
  st ← layer_loop
         (layer_step component_names multiplier workplane cut_in_half
            hollow_core render_save save_directory)
         {| outer_radius := 0; component_list := []; exported := files |}
         0%nat radial_build;
  Ok (component_list st, exported st).

(** [np.linspace(0.75, 1.5, 10)] *)
Definition default_multipliers : list Q :=
  map (fun i => ((3 # 4) + inject_Z (Z.of_nat i) * (((3 # 2) - (3 # 4)) / 9))%Q) (seq 0 10).

(** The batch branch: every call rebinds [reactor]; [None] is the unbound
    variable. *)
Fixpoint batch_loop (call : Q → list string → result (list solid * list string))
    (multipliers : list Q) (reactor : option (list solid)) (files : list string)
    : result (option (list solid) * list string) :=
  match multipliers with
  | [] => Ok (reactor, files)
  | multiplier :: rest =>
      r ← call multiplier files;
      batch_loop call rest (Some r.1) r.2
  end.

Fixpoint batch_outer (n : nat)
    (inner : option (list solid) → list string → result (option (list solid) * list string))
    (reactor : option (list solid)) (files : list string)
    : result (option (list solid) * list string) :=
  match n with
  | O => Ok (reactor, files)
  | Datatypes.S n' =>
      r ← inner reactor files;
      batch_outer n' inner r.1 r.2
  end.

Definition generate_sphere (radial_build : list Q) (component_names : list string)
    (multipliers : option (list Q)) (workplane : string)
    (batch cut_in_half hollow_core render_save : bool) (save_directory : string)
    : result (list solid * list string) :=
  if negb (length radial_build =? length component_names)%nat then
    Raise (ValueError "radial_build and component_names must be the same length")
  else
    let multipliers := default default_multipliers multipliers in
    if batch then
      r ← batch_outer (length radial_build)
             (batch_loop
                (fun multiplier files =>
                   create_reactor_layer radial_build component_names multiplier
                     workplane cut_in_half hollow_core render_save
                     save_directory files)
                multipliers)
             None [];
      match r.1 with
      | Some reactor => Ok (reactor, r.2)
      | None => Raise (UnboundLocalError "reactor")
      end
    else
      create_reactor_layer radial_build component_names 1 workplane cut_in_half
        hollow_core render_save save_directory [].

(** The ["geometry"] object of the configuration file. *)
Record geometry : Type := {
  radial_build : list Q;
  component_names : list string;
  cut_in_half : bool;
  hollow_core : bool
}.

(** The call the script makes once the configuration is read; its answer is
    [reactor_core_parts]. *)
Definition reactor_core_parts (geometry_data : geometry) : result (list solid) :=
  r ← generate_sphere (radial_build geometry_data) (component_names geometry_data)
        None "XY" false (cut_in_half geometry_data) (hollow_core geometry_data)
        false ".";
  Ok r.1.

End SphereGen.

(** ** Python strings *)

Module PyStr.

(** The double quote, as a character and as a string. *)
Definition dquote : ascii := "034"%char.

Definition dquote_string : string := String dquote EmptyString.

(** [sep.join(parts)] *)
Definition join (sep : string) (parts : list string) : string :=
  String.concat sep parts.

(** [s.replace(old, new)] for a non-empty [old]: every occurrence, scanning
    from the left, occurrences that overlap an earlier one excepted.
    [skip] counts the characters of a replaced occurrence still to pass. *)
Fixpoint replace_from (old new : string) (skip : nat) (s : string) : string :=
  match s with
  | EmptyString => EmptyString
  | String c rest =>
      match skip with
      | Datatypes.S skip' => replace_from old new skip' rest
      | O =>
          if String.prefix old s
          then new +:+ replace_from old new (String.length old - 1) rest
          else String c (replace_from old new 0 rest)
      end
  end.

Definition replace (old new s : string) : string := replace_from old new 0 s.

(** [s[1:-1]] *)
Definition strip_ends (s : string) : string :=
  String.substring 1 (String.length s - 2) s.

(** [s.split(sep)] for a one-character separator; [cur] is the piece being
    read. *)
Fixpoint split_from (sep : ascii) (cur : string) (s : string) : list string :=
  match s with
  | EmptyString => [cur]
  | String c rest =>
      if Ascii.eqb c sep then cur :: split_from sep EmptyString rest
      else split_from sep (cur +:+ String c EmptyString) rest
  end.

Definition split (sep : ascii) (s : string) : list string :=
  split_from sep EmptyString s.

(** [c in s] for a character [c]. *)
Fixpoint contains (c : ascii) (s : string) : bool :=
  match s with
  | EmptyString => false
  | String c' rest => Ascii.eqb c c' || contains c rest
  end.

(** The lines a text file yields when iterated: each keeps its line feed. *)
Fixpoint lines_from (cur : string) (s : string) : list string :=
  match s with
  | EmptyString => if String.eqb cur EmptyString then [] else [cur]
  | String c rest =>
      if Ascii.eqb c "010"%char
      then (cur +:+ String c EmptyString) :: lines_from EmptyString rest
      else lines_from (cur +:+ String c EmptyString) rest
  end.

Definition lines (s : string) : list string := lines_from EmptyString s.

End PyStr.

(** ** JSON values as the [json] module of Python holds them *)

(** A [dict] keeps its keys in insertion order, each key once; [JDict]
    lists its items in that order. *)
Inductive json : Type :=
| JNull
| JBool (b : bool)
| JInt (z : Z)
| JFloat (q : Q)
| JStr (s : string)
| JList (items : list json)
| JDict (items : list (string * json)).

Module PyDict.

Section Dict.

Context {V : Type}.

(** [d[key] = value]: a key already there keeps its place and takes the new
    value, a new key goes to the end. *)
Fixpoint setitem (d : list (string * V)) (key : string) (value : V)
    : list (string * V) :=
  match d with
  | [] => [(key, value)]
  | (k, v) :: rest =>
      if String.eqb k key then (k, value) :: rest
      else (k, v) :: setitem rest key value
  end.

(** [d.get(key)] *)
Fixpoint get (d : list (string * V)) (key : string) : option V :=
  match d with
  | [] => None
  | (k, v) :: rest => if String.eqb k key then Some v else get rest key
  end.

Definition keys (d : list (string * V)) : list string := map fst d.

(** [d.update(other)] *)
Definition update (d other : list (string * V)) : list (string * V) :=
  foldl (fun acc item => setitem acc item.1 item.2) d other.

(** The display [{**a, **b}]: a new dict that takes the items of [a], then
    those of [b]. *)
Definition unpack2 (a b : list (string * V)) : list (string * V) :=
  update (update [] a) b.

(** What holds of every dict: no key twice. *)
Definition well_formed (d : list (string * V)) : Prop := NoDup (keys d).

End Dict.

End PyDict.

(** ** json_append.py *)

Module JsonAppend.

(** The script from the two parsed files to the value handed to
    [json.dump].  Unpacking with [**] needs a mapping. *)
Definition combine (json_1 json_2 : json) : result json :=
  match json_1, json_2 with
  | JDict d1, JDict d2 => Ok (JDict (PyDict.unpack2 d1 d2))
  | _, _ => Raise TypeError
  end.

End JsonAppend.

(** ** json_string_to_file.py *)

Module JsonStringToFile.

Section Script.

(** [json.loads] and [json.dumps] belong to the standard library; [loads]
    answers [None] where [json.loads] raises. *)
Variable loads : string → option json.
Variable dumps : json → string.

(** The string the script builds from the text of its input file: the lines
    of the file, joined by single spaces. *)
Definition read_json_string (text : string) : string :=
  PyStr.join " " (PyStr.lines text).

Definition requote (json_string : string) : string :=
  let data := PyStr.replace "'" PyStr.dquote_string json_string in
  PyStr.replace "False" "false" (PyStr.replace "True" "true" data).

(** The three nested [try] blocks. *)
Definition parse (json_string : string) : result json :=
  match loads json_string with
  | Some data => Ok data
  | None =>
      match loads (requote json_string) with
      | Some data => Ok data
      | None =>
          match loads (PyStr.strip_ends (requote json_string)) with
          | Some data => Ok data
          | None => Raise (ValueError "The json string is not valid")
          end
      end
  end.

(** The whole script: from the text of the input file to the text written
    to the output file. *)
Definition main (text : string) : result string :=
  data ← parse (read_json_string text);
  Ok (dumps data).


End Script.

End JsonStringToFile.

(** ** minio_pull/pull.py and minio_push/push.py *)

Module Minio.

(** A bucket as [list_buckets] answers it. *)
Record Bucket : Type := {
  bucket_name : string;
  creation_date : string
}.

(** What the scripts meet on the other side: the answer to [list_buckets],
    how [==] compares an argument string with a [Bucket] object (decided by
    the client library), and whether [make_bucket] succeeds. *)
Record server : Type := {
  list_buckets_reply : result (list Bucket);
  str_eq_bucket : string → Bucket → bool;
  make_bucket_ok : bool
}.

(** The calls a run makes, in order. *)
Inductive call : Type :=
| Minio_new (endpoint access_key secret_key : string) (secure : bool)
| list_buckets
| fget_object (bucket_name object_name file_path : string)
| make_bucket (bucket_name : string)
| fput_object (bucket_name object_name file_path : string)
| logging_error (msg : string)
| print (msg : string).

(** [bucket in buckets] *)
Definition bucket_in (srv : server) (bucket : string) (buckets : list Bucket) : bool :=
  existsb (str_eq_bucket srv bucket) buckets.

Record pull_args : Type := {
  pull_filename : string;
  pull_bucket : string;
  pull_file_save : string
}.

Definition pull (args : pull_args) (srv : server) : list call :=
  let filename := pull_filename args in
  let bucket := pull_bucket args in
  let file_save := pull_file_save args in
  Minio_new "minio-console.mcfe.itservices.manchester.ac.uk"
    "oJoz9gvQ4d1GJPmrl9YN" "cZ7psKhLQ5P3V5OkUXGV5nNItojEZgZLaUHyXoMH" true
  :: list_buckets
  :: match list_buckets_reply srv with
     | Ok buckets =>
         if negb (bucket_in srv bucket buckets) then
           [logging_error ("Error: Bucket " +:+ bucket +:+ " does not exist.")]
         else
           [print ("Pulling " +:+ filename +:+ " from " +:+ bucket +:+ " to " +:+ file_save);
            fget_object bucket filename file_save]
     | _ => []
     end.

Record push_args : Type := {
  push_file : string;
  push_bucket : string
}.

(** [os.path.split(file)[1]]: what follows the last slash. *)
Definition path_tail (file : string) : string :=
  default EmptyString (last (PyStr.split "/"%char file)).

Definition push (args : push_args) (srv : server) : list call :=
  let file := push_file args in
  let bucket := push_bucket args in
  let tail := path_tail file in
  let upload :=
    [print ("Pushing " +:+ file +:+ " to " +:+ bucket +:+ "/" +:+ tail);
     fput_object bucket tail file] in
  Minio_new "minio-console.mcfe.itservices.manchester.ac.uk"
    "oJoz9gvQ4d1GJPmrl9YN" "cZ7psKhLQ5P3V5OkUXGV5nNItojEZgZLaUHyXoMH" true
  :: list_buckets
  :: match list_buckets_reply srv with
     | Ok buckets =>
         if negb (bucket_in srv bucket buckets) then
           make_bucket bucket :: (if make_bucket_ok srv then upload else [])
         else upload
     | _ => []
     end.

(** The client constructions of a run. *)
Definition clients (trace : list call) : list call :=
  List.filter (fun c => match c with Minio_new _ _ _ _ => true | _ => false end) trace.

End Minio.

(** ** download_nucleus/download.py *)

Module DownloadNucleus.

(** An HTTP response as the script reads it; [json_body] is the outcome of
    [response.json()]. *)
Record response : Type := {
  cookies : string;
  json_body : result json;
  content : string
}.

(** The services: each request answers a response or raises. *)
Record services : Type := {
  post_firstfactor : string → string → result response;
  get_user_info : string → result response;
  get_download : string → string → string → string → result response
}.

Record args : Type := {
  url : string;
  username : string;
  password : string;
  file : string
}.

(** The variables of the [while True] loop; [looping] turns false at
    [break]. *)
Record loop_state : Type := {
  file_name : string;
  looping : bool;
  stdout : list string
}.

Definition loop_body (url : string) (st : loop_state) : result loop_state :=
  let file_name := default EmptyString (last (PyStr.split "/"%char url)) in
  if negb (PyStr.contains "."%char file_name) then
    Ok {| file_name := file_name;
          looping := true;
          stdout := stdout st ++ ["Not a valid URL for downloading single files.";
                                  "Please input another valid URL"] |}
  else
    Ok {| file_name := file_name; looping := false; stdout := stdout st |}.

(** The script; the answer is the path written and the bytes written to
    it. *)
Definition main (fuel : nat) (net : services) (a : args) : result (string * string) :=
  r1 ← post_firstfactor net "authelia_galaxy_bind" "r4l/@p8f42mu57M@";
  let cookies := cookies r1 in
  _ ← json_body r1;
  r2 ← get_user_info net cookies;
  _ ← json_body r2;
  _ ← while_loop fuel looping (loop_body (url a))
        {| file_name := EmptyString; looping := true; stdout := [] |};
  r3 ← get_download net (url a) (username a) (password a) cookies;
  Ok (file a, content r3).

End DownloadNucleus.

(** ** Floating-point numbers of the CAD scripts

    The coil and stellarator scripts compute coordinates with numpy.  The
    properties below are about their loops and about the calls they make,
    so the float operations are an interface. *)
Class Float (F : Type) : Type := {
  f_of_Z : Z → F;
  fadd : F → F → F;
  fsub : F → F → F;
  fmul : F → F → F;
  fdiv : F → F → F;
  fneg : F → F;
  fmax : F → F → F;
  fmin : F → F → F;
  fcos : F → F;
  fsin : F → F;
  fpi : F;
  (** [x == 0], the test behind [ZeroDivisionError] *)
  fis_zero : F → bool;
  (** [float(s)]; [None] where it raises [ValueError] *)
  float_of_string : string → option F;
  (** [str(x)], as an f-string prints it *)
  float_str : F → string
}.

(** [float(s)] *)
Definition py_float `{Float F} (s : string) : result F :=
  match float_of_string s with
  | Some x => Ok x
  | None => Raise (ValueError ("could not convert string to float: " +:+ s))
  end.

(** [np.zeros(n)] *)
Definition np_zeros `{Float F} (n : nat) : list F := replicate n (f_of_Z 0).

(** [max(a)] and [min(a)] of a one-dimensional array. *)
Definition array_max `{Float F} (a : list F) : result F :=
  match a with
  | [] => Raise (ValueError "zero-size array to reduction operation")
  | x :: rest => Ok (foldl fmax x rest)
  end.

Definition array_min `{Float F} (a : list F) : result F :=
  match a with
  | [] => Raise (ValueError "zero-size array to reduction operation")
  | x :: rest => Ok (foldl fmin x rest)
  end.

(** A row that [csv.DictReader] yields: the cells by column name. *)
Definition csv_row : Type := list (string * string).

(** [col[name]] *)
Definition csv_get (col : csv_row) (name : string) : result string :=
  match PyDict.get col name with
  | Some cell => Ok cell
  | None => Raise (KeyError name)
  end.

(** A cell converts to a float. *)
Definition numeric `{Float F} (s : string) : Prop := is_Some (float_of_string s).

(** A row has a cell in [column], and the cell converts to a float. *)
Definition numeric_cell `{Float F} (col : csv_row) (column : string) : Prop :=
  ∃ cell x, PyDict.get col column = Some cell ∧ float_of_string cell = Some x.

(** ** tokamak_gen/tf_step_v3.py *)

Module TfStep.

Section Script.

Context `{Float F}.

(** CadQuery objects, kept as the calls that build them. *)
Inductive workplane : Type :=
| Workplane (plane : string)
| polyline (w : workplane) (points : list (list F))
| close (w : workplane)
| extrude (w : workplane) (distance : F)
| cut (w tool : workplane)
| rotate (w : workplane) (axis_start axis_end : Z * Z * Z) (angle : F)
| translate (w : workplane) (vec : Z * Z * Z).

(** A child of the assembly: [assy.add(obj, color=cq.Color(r, g, b), name=n)]. *)
Record child : Type := {
  obj : workplane;
  color : Z * Z * Z;
  name : string
}.

(** How many times the body of each [while] loop ran: the conversion loop,
    the loop over the coils that writes the coil file, its inner loop over
    the points (one count per coil), and the loop that adds the coils. *)
Record iterations : Type := {
  convert_points : nat;
  write_coils : nat;
  write_points : list nat;
  add_coils : nat
}.

(** What a call leaves behind: the assembly it returns, the lines written
    to the three files, the lines printed, and the loop counts. *)
Record outcome : Type := {
  assy : list child;
  tf_file : list string;
  outer_file : list string;
  inner_file : list string;
  stdout : list string;
  loops : iterations
}.

(** [for col in file]: the X and Y cells of every row. *)
Fixpoint read_columns (file : list csv_row) : result (list string * list string) :=
  match file with
  | [] => Ok ([], [])
  | col :: rest =>
      x ← csv_get col "X";
      y ← csv_get col "Y";
      r ← read_columns rest;
      Ok (x :: r.1, y :: r.2)
  end.

(** The body of the first [while]: convert the cells and close the loop of
    points.  The state is [(xorig, yorig)]. *)
Definition convert_body (tot_point : Z) (xorig_str yorig_str : list string)
    (count : Z) (st : list F * list F) : result (list F * list F) :=
  if count <=? tot_point - 1 then
    xs ← getitem xorig_str (Z.to_nat count);
    x ← py_float xs;
    xorig ← setitem st.1 (Z.to_nat count) x;
    ys ← getitem yorig_str (Z.to_nat count);
    y ← py_float ys;
    yorig ← setitem st.2 (Z.to_nat count) y;
    Ok (xorig, yorig)
  else
    x0 ← getitem st.1 0;
    xorig ← setitem st.1 (Z.to_nat count) x0;
    y0 ← getitem st.2 0;
    yorig ← setitem st.2 (Z.to_nat count) y0;
    Ok (xorig, yorig).

(** The body of the inner [while] of the coil file: one line per point.
    The state is the lines written so far. *)
Definition point_body (x1 y1 z1 : list F) (count : Z) (lines : list string)
    : result (list string) :=
  x ← getitem x1 (Z.to_nat count);
  y ← getitem y1 (Z.to_nat count);
  z ← getitem z1 (Z.to_nat count);
  Ok (lines ++ [float_str x +:+ "," +:+ float_str y +:+ "," +:+ float_str z]).

(** The body of the outer [while] of the coil file: a header and the
    rotated centre line of the coil.  The state is the lines written so far
    and the pass counts of the inner loop. *)
Definition coil_body (fuel : nat) (tot_point : Z) (angle_int : F)
    (xcentre ycentre zcentre : list F) (coil_count : Z)
    (st : list string * list nat) : result (list string * list nat) :=
  let lines := st.1 ++ ["TF Coil " +:+ str_int coil_count; "x,y,z"] in
  let angle := fmul angle_int (f_of_Z coil_count) in
  let x1 := zip_with fadd (map (fun x => fmul x (fcos angle)) xcentre)
                          (map (fun z => fmul z (fsin angle)) zcentre) in
  let z1 := zip_with fadd (map (fun x => fmul (fneg x) (fsin angle)) xcentre)
                          (map (fun z => fmul z (fcos angle)) zcentre) in
  let y1 := ycentre in
  r ← while_upto fuel 0 tot_point (point_body x1 y1 z1) lines;
  Ok (r.1, st.2 ++ [r.2]).

(** The coil number [i]: the profile turned about the y axis, moved by the
    zero vector, white, under the name TF_[i]. *)
Definition tf_coil (tf_num : Z) (p7 : workplane) (i : Z) : child :=
  let ob := "TF_" +:+ str_int i in
  let angle := fmul (fdiv (f_of_Z 360) (f_of_Z tf_num)) (f_of_Z i) in
  let p8 := rotate p7 (0, 0, 0) (0, 1, 0) angle in
  let p8 := translate p8 (0, 0, 0) in
  {| obj := p8; color := (1, 1, 1); name := ob |}.

(** The body of the last [while]: rotate the coil and add it to the
    assembly.  The state is the assembly and the lines printed. *)
Definition add_body (tf_num : Z) (p7 : workplane) (i : Z)
    (st : list child * list string) : result (list child * list string) :=
  let angle := fmul (fdiv (f_of_Z 360) (f_of_Z tf_num)) (f_of_Z i) in
  Ok (st.1 ++ [tf_coil tf_num p7 i],
      st.2 ++ [str_int i +:+ " " +:+ float_str angle]).

(** The coil before it is rotated: the outer loop of points extruded, with
    the extruded inner loop cut out. *)
Definition coil_profile (points_out points_tot : list (list F)) (z_thickness : F)
    : workplane :=
  let p6 := extrude (close (polyline (Workplane "front") points_out)) z_thickness in
  let p5 := extrude (close (polyline (Workplane "front") points_tot)) z_thickness in
  cut p6 p5.

(** [tf_step(r, filepath, z_thickness, r_thickness, tf_coil_path)]; [file]
    holds the rows of the CSV file at [filepath]. *)
Definition tf_step (fuel : nat) (r : F) (file : list csv_row)
    (z_thickness r_thickness : F) : result outcome :=
  let tf_num := 12 in
  let coil_num := 12 in
  let angle_tot := fmul (f_of_Z 2) fpi in
  let angle_int := fdiv angle_tot (f_of_Z coil_num) in
  cols ← read_columns file;
  let xorig_str := cols.1 in
  let yorig_str := cols.2 in
  let tot_point := Z.of_nat (length file) in
  let n := Z.to_nat (tot_point + 1) in
  let zorig := np_zeros n in
  cv ← while_upto fuel 0 tot_point (convert_body tot_point xorig_str yorig_str)
         (np_zeros n, np_zeros n);
  let xorig := cv.1.1 in
  let yorig := cv.1.2 in
  xmax ← array_max xorig; xmin ← array_min xorig;
  ymax ← array_max yorig; ymin ← array_min yorig;
  let xloop_c := fdiv (fadd xmax xmin) (f_of_Z 2) in
  let yloop_c := fdiv (fadd ymax ymin) (f_of_Z 2) in
  let xnew := map (fun x => fsub x xloop_c) xorig in
  let ynew := map (fun y => fsub y yloop_c) yorig in
  let z_extend := z_thickness in
  let dr := r_thickness in
  r_dr_ratio ← (if fis_zero r then Raise ZeroDivisionError else Ok (fdiv dr r));
  let scale := fadd (f_of_Z 1) r_dr_ratio in
  let xouter := map (fun x => fadd (fmul x scale) xloop_c) xnew in
  let xinner := map (fun x => fadd (fmul x (f_of_Z 1)) xloop_c) xnew in
  let youter := map (fun y => fadd (fmul y scale) yloop_c) ynew in
  let yinner := map (fun y => fadd (fmul y (f_of_Z 1)) yloop_c) ynew in
  let zinner := map (fun z => fsub z (fdiv z_extend (f_of_Z 2))) zorig in
  let half := fadd (f_of_Z 1) (fdiv r_dr_ratio (f_of_Z 2)) in
  let xcentre := map (fun x => fadd (fmul x half) xloop_c) xnew in
  let ycentre := map (fun y => fadd (fmul y half) yloop_c) ynew in
  let zcentre := zorig in
  let row3 := fun x yz => [x; yz.1; yz.2] in
  let orig_tot := zip_with row3 xinner (zip yinner zinner) in
  let orig_out := zip_with row3 xouter (zip youter zinner) in
  cl ← while_upto fuel 1 coil_num
         (coil_body fuel tot_point angle_int xcentre ycentre zcentre) ([], []);
  let points_tot := orig_tot in
  let points_out := orig_out in
  let p7 := coil_profile points_out points_tot z_thickness in
  ad ← while_upto fuel 1 tf_num (add_body tf_num p7) ([], ["ADDING TF COILS"]);
  Ok {| assy := ad.1.1;
        tf_file := cl.1.1;
        outer_file := ["x,y,z"];
        inner_file := ["x,y,z"];
        stdout := ad.1.2;
        loops := {| convert_points := cv.2;
                    write_coils := cl.2;
                    write_points := cl.1.2;
                    add_coils := ad.2 |} |}.

(** A vessel file [tf_step] can read: every row has an X and a Y cell, and
    each converts to a float. *)
Definition well_formed_vessel (file : list csv_row) : Prop :=
  Forall (fun col => numeric_cell col "X" ∧ numeric_cell col "Y") file.

End Script.

End TfStep.

(** ** numpy arrays of the stellarator script *)

(** The position that index [i] means on an axis of length [len]; negative
    indices count from the end. *)
Definition axis_index (len : nat) (i : Z) : result nat :=
  if (0 <=? i) && (i <? Z.of_nat len) then Ok (Z.to_nat i)
  else if (- Z.of_nat len <=? i) && (i <? 0) then Ok (Z.to_nat (Z.of_nat len + i))
  else Raise IndexError.

Definition seq_get {A} (l : list A) (i : Z) : result A :=
  n ← axis_index (length l) i;
  getitem l n.

Definition seq_set {A} (l : list A) (i : Z) (v : A) : result (list A) :=
  n ← axis_index (length l) i;
  setitem l n v.

(** [np.zeros((a, b, 3))] *)
Definition np_zeros3 `{Float F} (a b : Z) : result (list (list (list F))) :=
  if (a <? 0) || (b <? 0) then Raise (ValueError "negative dimensions are not allowed")
  else Ok (replicate (Z.to_nat a) (replicate (Z.to_nat b) (replicate 3 (f_of_Z 0)))).

(** [arr[i, j, k]] *)
Definition get3 {A} (arr : list (list (list A))) (i j k : Z) : result A :=
  plane ← seq_get arr i;
  row ← seq_get plane j;
  seq_get row k.

(** [arr[i, j, k] = v] *)
Definition set3 {A} (arr : list (list (list A))) (i j k : Z) (v : A)
    : result (list (list (list A))) :=
  plane ← seq_get arr i;
  row ← seq_get plane j;
  row' ← seq_set row k v;
  plane' ← seq_set plane j row';
  seq_set arr i plane'.

(** An array of [a] planes of [b] rows of three entries. *)
Definition shaped {A} (a b : nat) (arr : list (list (list A))) : Prop :=
  length arr = a
  ∧ Forall (fun plane => length plane = b ∧ Forall (fun row => length row = 3%nat) plane) arr.

(** ** stellarator_plasma_cad/radial_from_vmec.py *)

Module RadialFromVmec.

Section Script.

Context `{Float F}.

(** The gmsh calls the function makes. *)
Inductive gmsh_call : Type :=
| initialize
| option_setNumber (name : string) (value : Z)
| option_setString (name value : string)
| model_add (name : string)
| occ_addPoint (x y z meshSize : F) (tag : Z)
| occ_addLine (startTag endTag tag : Z)
| occ_addCurveLoop (curveTags : list Z) (tag : Z)
| occ_addSurfaceFilling (wireTag tag : Z)
| occ_addSurfaceLoop (surfaceTags : list Z) (tag : Z)
| occ_addVolume (shellTags : list Z) (tag : Z)
| occ_synchronize
| mesh_generate (dim : Z)
| write (fileName : string).

Definition array3 : Type := list (list (list F)).

(** The X, Y and Z cells of every row of the CSV file. *)
Fixpoint read_columns (file : list csv_row)
    : result (list string * list string * list string) :=
  match file with
  | [] => Ok ([], [], [])
  | col :: rest =>
      x ← csv_get col "X";
      y ← csv_get col "Y";
      z ← csv_get col "Z";
      r ← read_columns rest;
      Ok (x :: r.1.1, y :: r.1.2, z :: r.2)
  end.

(** [Coords_orig[Phi_count, Theta_count, k] = cells[counter]]: numpy
    converts the string. *)
Definition store_cell (arr : array3) (i j k : Z) (cells : list string)
    (counter : Z) : result array3 :=
  cell ← seq_get cells counter;
  v ← py_float cell;
  set3 arr i j k v.

(** The loops that fill [Coords_orig] from the file; the state is
    [(counter, Coords_orig)]. *)
Definition fill_orig (fuel : nat) (Nphi Ntheta : Z) (X_str Y_str Z_str : list string)
    (Coords_orig : array3) : result (Z * array3) :=
  r ← while_upto fuel 0 Nphi
        (fun Phi_count st =>
           r ← while_upto fuel 0 Ntheta
                 (fun Theta_count (st : Z * array3) =>
                    let counter := st.1 in
                    a ← store_cell st.2 Phi_count Theta_count 0 X_str counter;
                    a ← store_cell a Phi_count Theta_count 1 Y_str counter;
                    a ← store_cell a Phi_count Theta_count 2 Z_str counter;
                    Ok (counter + 1, a))
                 st;
           Ok r.1)
        (0, Coords_orig);
  Ok r.1.

(** The loops that copy the plasma boundary into [Coords]. *)
Definition copy_coords (fuel : nat) (Nphi Ntheta layer_count : Z)
    (Coords_orig Coords : array3) : result array3 :=
  r ← while_upto fuel 0 Nphi
        (fun Phi_count Coords =>
           r ← while_upto fuel 0 Ntheta
                 (fun Theta_count Coords =>
                    if layer_count =? 0 then
                      x ← get3 Coords_orig Phi_count Theta_count 0;
                      a ← set3 Coords Phi_count Theta_count 0 x;
                      y ← get3 Coords_orig Phi_count Theta_count 1;
                      a ← set3 a Phi_count Theta_count 1 y;
                      z ← get3 Coords_orig Phi_count Theta_count 2;
                      set3 a Phi_count Theta_count 2 z
                    else Ok Coords)
                 Coords;
           Ok r.1)
        Coords;
  Ok r.1.

(** The loops that compute [dist]: the value is not used, the reads are
    kept. *)
Definition measure_dist (fuel : nat) (Nphi Ntheta : Z)
    (Coords_orig Coords : array3) : result unit :=
  r ← while_upto fuel 0 Nphi
        (fun phi_test (u : unit) =>
           r ← while_upto fuel 0 Ntheta
                 (fun theta_test (u : unit) =>
                    _ ← get3 Coords_orig phi_test theta_test 0;
                    _ ← get3 Coords phi_test theta_test 0;
                    _ ← get3 Coords_orig phi_test theta_test 1;
                    _ ← get3 Coords phi_test theta_test 1;
                    _ ← get3 Coords_orig phi_test theta_test 2;
                    _ ← get3 Coords phi_test theta_test 2;
                    Ok u)
                 u;
           Ok r.1)
        tt;
  Ok r.1.

(** [count_min] of loop [loop_num]. *)
Definition loop_count_min (loop_num loop_jump : Z) : Z :=
  ((loop_num - 1) * loop_jump) - (1 * (loop_num - 1)).

(** The loops that send the points to gmsh. *)
Definition add_points (fuel : nat) (loop_num_tot loop_jump : Z) (Coords : array3)
    (calls : list gmsh_call) : result (list gmsh_call) :=
  r ← while_upto fuel 1 loop_num_tot
        (fun loop_num calls =>
           let count_min := loop_count_min loop_num loop_jump in
           let count_max := count_min + loop_jump - 1 in
           r ← while_upto fuel count_min (count_max - 1)
                 (fun count calls =>
                    let point_num := count - count_min in
                    x ← get3 Coords (loop_num - 1) point_num 0;
                    y ← get3 Coords (loop_num - 1) point_num 1;
                    z ← get3 Coords (loop_num - 1) point_num 2;
                    Ok (calls ++ [occ_addPoint x y z (f_of_Z 1) count]))
                 calls;
           Ok r.1)
        calls;
  Ok r.1.

(** The loops that send the lines to gmsh. *)
Definition add_lines (fuel : nat) (loop_num_tot loop_jump line_shift : Z)
    (calls : list gmsh_call) : result (list gmsh_call) :=
  r ← while_upto fuel 1 loop_num_tot
        (fun loop_num calls =>
           let count_min := loop_count_min loop_num loop_jump in
           let count_max := count_min + loop_jump - 1 in
           r ← while_upto fuel count_min (count_max - 1)
                 (fun count calls =>
                    let point_num := count - count_min in
                    let around :=
                      if count =? count_max - 1
                      then occ_addLine count (count - (loop_jump - 2)) count
                      else occ_addLine count (count + 1) count in
                    let across :=
                      if loop_num =? loop_num_tot
                      then occ_addLine count point_num (count + line_shift)
                      else occ_addLine count (count + loop_jump - 1) (count + line_shift) in
                    Ok (calls ++ [around; across]))
                 calls;
           Ok r.1)
        calls;
  Ok r.1.

(** The loops that send the surfaces, the surface loop and the volume to
    gmsh; the state is [(sloop_list, calls)]. *)
Definition add_surfaces (fuel : nat)
    (loop_num_tot loop_jump line_shift final_point layer_count : Z)
    (calls : list gmsh_call) : result (list Z * list gmsh_call) :=
  r ← while_upto fuel 1 loop_num_tot
        (fun loop_num st =>
           let count_min := loop_count_min loop_num loop_jump in
           let count_max := count_min + loop_jump - 2 in
           r ← while_upto fuel count_min count_max
                 (fun count (st : list Z * list gmsh_call) =>
                    let point_num := count - count_min in
                    let third :=
                      if loop_num =? loop_num_tot then point_num
                      else count_max + point_num + 1 in
                    let fourth :=
                      if count =? count_max
                      then -1 * (line_shift + count - point_num)
                      else -1 * (count + line_shift + 1) in
                    let surface :=
                      [occ_addCurveLoop [count; count + line_shift; third; fourth]
                         ((2 * count) + 1);
                       occ_addSurfaceFilling ((2 * count) + 1) count] in
                    let sloop_list := st.1 ++ [count] in
                    if count =? final_point then
                      Ok (sloop_list,
                          st.2 ++ surface ++
                            [occ_addSurfaceLoop sloop_list (layer_count + 1);
                             occ_addVolume [layer_count + 1] (layer_count + 1)])
                    else Ok (sloop_list, st.2 ++ surface))
                 st;
           Ok r.1)
        ([], calls);
  Ok r.1.

(** The variables the layer loop carries from one pass to the next. *)
Record layer_state : Type := {
  Coords : array3;
  sum_thickness : F;
  calls : list gmsh_call;
  stdout : list string
}.

(** One pass of [while layer_count <= 0]. *)
Definition layer_body (fuel : nat) (Nphi Ntheta : Z) (thickness_list : list F)
    (Coords_orig : array3) (layer_count : Z) (st : layer_state) : result layer_state :=
  thickness ← seq_get thickness_list layer_count;
  plasma_thickness ← seq_get thickness_list 0;
  let sum_thickness := fadd (sum_thickness st) thickness in
  let stdout := stdout st ++
    ["layer:  " +:+ str_int layer_count +:+ " thickness of layer: " +:+ float_str thickness] in
  Coords ← copy_coords fuel Nphi Ntheta layer_count Coords_orig (Coords st);
  _ ← measure_dist fuel Nphi Ntheta Coords_orig Coords;
  let loop_jump := Ntheta + 1 in
  let loop_num_tot := Nphi in
  let final_point := ((loop_num_tot - 1) * (loop_jump - 1)) + loop_jump - 2 in
  calls ← add_points fuel loop_num_tot loop_jump Coords (calls st);
  let line_shift := Ntheta * Nphi in
  calls ← add_lines fuel loop_num_tot loop_jump line_shift calls;
  sf ← add_surfaces fuel loop_num_tot loop_jump line_shift final_point layer_count calls;
  let step_name := "layer_" +:+ str_int layer_count +:+ ".step" in
  Ok {| Coords := Coords;
        sum_thickness := sum_thickness;
        calls := sf.2 ++ [occ_synchronize; mesh_generate 3; write step_name];
        stdout := stdout |}.

(** What a call leaves behind: the gmsh calls made, the lines printed, and
    how many passes the layer loop made. *)
Record outcome : Type := {
  gmsh : list gmsh_call;
  printed : list string;
  layer_passes : nat
}.

(** [make_build(input_file, Nphi, Ntheta, thickness_list, mag_ax, b_type, m)];
    [file] holds the rows of the CSV file at [input_file].  The arguments
    [mag_ax], [b_type] and [m] are never read. *)
Definition make_build (fuel : nat) (file : list csv_row) (Nphi Ntheta : Z)
    (thickness_list : list F) : result outcome :=
  let out0 := ["Nphi,Ntheta:  " +:+ str_int Nphi +:+ " " +:+ str_int Ntheta] in
  let setup :=
    [initialize;
     option_setNumber "General.NumThreads" 16;
     option_setNumber "General.Terminal" 1;
     model_add "stell_layers";
     option_setString "Geometry.OCCTargetUnit" "M"] in
  Coords ← np_zeros3 (Nphi + 1) (Ntheta + 1);
  Coords_orig ← np_zeros3 (Nphi + 1) (Ntheta + 1);
  cols ← read_columns file;
  let X_str := cols.1.1 in
  let Y_str := cols.1.2 in
  let Z_str := cols.2 in
  filled ← fill_orig fuel Nphi Ntheta X_str Y_str Z_str Coords_orig;
  let Coords_orig := filled.2 in
  c00 ← get3 Coords_orig 0 0 0;
  chalf ← get3 Coords_orig 0 (Z.quot Ntheta 2 + 1) 0;
  let R0 := fsub c00 (fmul (fdiv (f_of_Z 1) (f_of_Z 2)) (fsub c00 chalf)) in
  let out1 := out0 ++ ["R0 estimate:  " +:+ float_str R0] in
  _ ← (if Nphi =? 0 then Raise ZeroDivisionError else Ok tt);
  r ← while_upto fuel 0 0
        (layer_body fuel Nphi Ntheta thickness_list Coords_orig)
        {| Coords := Coords; sum_thickness := f_of_Z 0; calls := setup; stdout := out1 |};
  Ok {| gmsh := calls r.1; printed := stdout r.1; layer_passes := r.2 |}.

(** A boundary file [make_build] can read for [Nphi] and [Ntheta]: both
    counts are at least one, the file has a row for every point of the
    [Nphi + 1] loops of [Ntheta + 1] points, and every row has X, Y and Z
    cells that convert to floats. *)
Definition well_formed_boundary (file : list csv_row) (Nphi Ntheta : Z) : Prop :=
  1 <= Nphi ∧ 1 <= Ntheta
  ∧ (Nphi + 1) * (Ntheta + 1) <= Z.of_nat (length file)
  ∧ Forall (fun col => numeric_cell col "X" ∧ numeric_cell col "Y"
                       ∧ numeric_cell col "Z") file.

(** The files a run wrote through [gmsh.write]. *)
Definition written_files (cs : list gmsh_call) : list string :=
  omap (fun c => match c with write name => Some name | _ => None end) cs.

End Script.

End RadialFromVmec.

(** ** An instance of the float interface for running the models

    Exact rationals; cosine and sine are cut after the cubic term of their
    series, and only plain decimal literals convert.  The instance serves to
    evaluate the models on concrete inputs. *)

Module QFloat.

Definition digit_of (c : ascii) : option Z :=
  let n := Z.of_nat (nat_of_ascii c) in
  if (48 <=? n) && (n <=? 57) then Some (n - 48) else None.

(** Digits after the point. *)
Fixpoint parse_frac (s : string) (seen : bool) (num den : Z) : option Q :=
  match s with
  | EmptyString => if seen then Some (num # Z.to_pos den)%Q else None
  | String c rest => d ← digit_of c; parse_frac rest true (num * 10 + d) (den * 10)
  end.

(** Digits before the point. *)
Fixpoint parse_int (s : string) (seen : bool) (num : Z) : option Q :=
  match s with
  | EmptyString => if seen then Some (inject_Z num) else None
  | String c rest =>
      if Ascii.eqb c "."%char then parse_frac rest seen num 1
      else d ← digit_of c; parse_int rest true (num * 10 + d)
  end.

Definition parse_decimal (s : string) : option Q :=
  match s with
  | String c rest =>
      if Ascii.eqb c "-"%char then Qopp <$> parse_int rest false 0
      else parse_int s false 0
  | EmptyString => None
  end.

Definition show (x : Q) : string :=
  str_int (Qnum x) +:+ "/" +:+ str_int (Zpos (Qden x)).

#[export] Instance Q_Float : Float Q := {|
  f_of_Z := inject_Z;
  fadd := Qplus;
  fsub := Qminus;
  fmul := Qmult;
  fdiv := Qdiv;
  fneg := Qopp;
  fmax := fun a b => if Qle_bool a b then b else a;
  fmin := fun a b => if Qle_bool a b then a else b;
  fcos := fun x => Qred (1 - x * x / 2)%Q;
  fsin := fun x => Qred (x - x * x * x / 6)%Q;
  fpi := (355 # 113)%Q;
  fis_zero := fun x => Qeq_bool x 0;
  float_of_string := parse_decimal;
  float_str := fun x => show (Qred x)
|}.

End QFloat.

(** ** A reader and a writer of JSON text for running the models

    An executable stand-in for [json.loads] and [json.dumps].  The reader
    handles white space between tokens, string literals without control
    characters (their escapes are checked and kept as written), plain
    decimal numbers and the three names. *)

Module JsonText.

Inductive token : Type :=
| TLBrace | TRBrace | TLBracket | TRBracket | TColon | TComma
| TString (s : string)
| TAtom (s : string).

(** Where the scan stands: between tokens, inside a number or a name,
    inside a string literal, or just after a backslash in one. *)
Inductive mode : Type :=
| Outside
| InAtom (acc : string)
| InString (acc : string)
| InEscape (acc : string).

Definition is_space (c : ascii) : bool :=
  Ascii.eqb c " "%char || Ascii.eqb c "009"%char
  || Ascii.eqb c "010"%char || Ascii.eqb c "013"%char.

Definition is_control (c : ascii) : bool := (nat_of_ascii c <? 32)%nat.

Definition punctuation (c : ascii) : option token :=
  if Ascii.eqb c "{"%char then Some TLBrace
  else if Ascii.eqb c "}"%char then Some TRBrace
  else if Ascii.eqb c "["%char then Some TLBracket
  else if Ascii.eqb c "]"%char then Some TRBracket
  else if Ascii.eqb c ":"%char then Some TColon
  else if Ascii.eqb c ","%char then Some TComma
  else None.

Definition is_escape (c : ascii) : bool :=
  existsb (Ascii.eqb c)
    [PyStr.dquote; "\"%char; "/"%char; "b"%char; "f"%char; "n"%char; "r"%char;
     "t"%char; "u"%char].

Definition snoc (s : string) (c : ascii) : string := s +:+ String c EmptyString.

(** The tokens a pending number or name contributes. *)
Definition flush (m : mode) : list token :=
  match m with
  | InAtom acc => [TAtom acc]
  | _ => []
  end.

Fixpoint lex (m : mode) (s : string) : option (list token) :=
  match s with
  | EmptyString =>
      match m with
      | Outside | InAtom _ => Some (flush m)
      | _ => None
      end
  | String c rest =>
      match m with
      | InString acc =>
          if Ascii.eqb c PyStr.dquote then cons (TString acc) <$> lex Outside rest
          else if Ascii.eqb c "\"%char then lex (InEscape (snoc acc c)) rest
          else if is_control c then None
          else lex (InString (snoc acc c)) rest
      | InEscape acc =>
          if is_escape c then lex (InString (snoc acc c)) rest else None
      | _ =>
          if is_space c then app (flush m) <$> lex Outside rest
          else if Ascii.eqb c PyStr.dquote then
            app (flush m) <$> lex (InString EmptyString) rest
          else
            match punctuation c with
            | Some t => (fun ts => flush m ++ t :: ts) <$> lex Outside rest
            | None =>
                lex (InAtom (snoc (match m with InAtom acc => acc | _ => EmptyString end) c)) rest
            end
      end
  end.

Fixpoint all_digits (s : string) : bool :=
  match s with
  | EmptyString => true
  | String c rest => bool_decide (is_Some (QFloat.digit_of c)) && all_digits rest
  end.

(** The value of a name or of a number. *)
Definition atom_value (a : string) : option json :=
  if String.eqb a "true" then Some (JBool true)
  else if String.eqb a "false" then Some (JBool false)
  else if String.eqb a "null" then Some JNull
  else
    let digits := match a with
                  | String c rest => if Ascii.eqb c "-"%char then rest else a
                  | EmptyString => a
                  end in
    if all_digits digits
    then (fun q => JInt (Qnum q)) <$> QFloat.parse_decimal a
    else JFloat <$> QFloat.parse_decimal a.

Fixpoint parse_value (fuel : nat) (ts : list token) : option (json * list token) :=
  match fuel with
  | O => None
  | Datatypes.S fuel' =>
      match ts with
      | TString s :: rest => Some (JStr s, rest)
      | TAtom a :: rest => v ← atom_value a; Some (v, rest)
      | TLBracket :: TRBracket :: rest => Some (JList [], rest)
      | TLBracket :: rest => parse_items fuel' rest []
      | TLBrace :: TRBrace :: rest => Some (JDict [], rest)
      | TLBrace :: rest => parse_members fuel' rest []
      | _ => None
      end
  end
with parse_items (fuel : nat) (ts : list token) (acc : list json)
    : option (json * list token) :=
  match fuel with
  | O => None
  | Datatypes.S fuel' =>
      r ← parse_value fuel' ts;
      match r.2 with
      | TComma :: rest => parse_items fuel' rest (acc ++ [r.1])
      | TRBracket :: rest => Some (JList (acc ++ [r.1]), rest)
      | _ => None
      end
  end
with parse_members (fuel : nat) (ts : list token) (acc : list (string * json))
    : option (json * list token) :=
  match fuel with
  | O => None
  | Datatypes.S fuel' =>
      match ts with
      | TString key :: TColon :: rest =>
          r ← parse_value fuel' rest;
          let acc' := PyDict.setitem acc key r.1 in
          match r.2 with
          | TComma :: rest' => parse_members fuel' rest' acc'
          | TRBrace :: rest' => Some (JDict acc', rest')
          | _ => None
          end
      | _ => None
      end
  end.

Definition loads (s : string) : option json :=
  ts ← lex Outside s;
  r ← parse_value (Datatypes.S (length ts)) ts;
  match r.2 with
  | [] => Some r.1
  | _ => None
  end.

Definition quote (s : string) : string :=
  PyStr.dquote_string +:+ s +:+ PyStr.dquote_string.

Fixpoint dumps (v : json) : string :=
  match v with
  | JNull => "null"
  | JBool true => "true"
  | JBool false => "false"
  | JInt z => str_int z
  | JFloat q => QFloat.show q
  | JStr s => quote s
  | JList items => "[" +:+ PyStr.join ", " (map dumps items) +:+ "]"
  | JDict items =>
      "{" +:+ PyStr.join ", "
                (map (fun item => match item with
                                  | (key, value) => quote key +:+ ": " +:+ dumps value
                                  end) items) +:+ "}"
  end.


End JsonText.

(** ** stellarator_plasma_cad/radial_from_vmec.py: what the file must hold,
    and views of the arrays and of the gmsh calls *)

Module RadialFromVmecInputs.

(** A boundary file [make_build] can read for the counts [Nphi] and
    [Ntheta]: both counts are at least one, every row has an X, a Y and a Z
    cell, and the file has [(Nphi + 1) * (Ntheta + 1)] rows or more, the first
    that many with cells that convert to floats. *)
Definition readable_boundary `{Float F} (file : list csv_row) (Nphi Ntheta : Z) : Prop :=
  1 <= Nphi ∧ 1 <= Ntheta
  ∧ (Nphi + 1) * (Ntheta + 1) <= Z.of_nat (length file)
  ∧ Forall (fun col => is_Some (PyDict.get col "X") ∧ is_Some (PyDict.get col "Y")
                       ∧ is_Some (PyDict.get col "Z")) file
  ∧ Forall (fun col => numeric_cell col "X" ∧ numeric_cell col "Y" ∧ numeric_cell col "Z")
           (take (Z.to_nat ((Nphi + 1) * (Ntheta + 1))) file).

End RadialFromVmecInputs.

(** The cells with an index below [c] convert to floats. *)
Definition numeric_below `{Float F} (cells : list string) (c : Z) : Prop :=
  ∀ j : nat, Z.of_nat j < c →
    ∃ cell x, cells !! j = Some cell ∧ float_of_string cell = Some x.

(** The entry of a three-dimensional array at a position counted from the
    start of every axis. *)
Definition entry3 {A} (arr : list (list (list A))) (i j k : nat) : option A :=
  plane ← arr !! i; row ← plane !! j; row !! k.

(** [float(cells[j])], where both steps succeed. *)
Definition cell_float `{Float F} (cells : list string) (j : nat) : option F :=
  cells !! j ≫= float_of_string.

(** The entries of a grid point are the converted cells of a file row. *)
Definition holds_row `{Float F} (xs ys zs : list string) (arr : list (list (list F)))
    (l p : Z) (row : Z) : Prop :=
  ∃ x y z,
    cell_float xs (Z.to_nat row) = Some x
    ∧ cell_float ys (Z.to_nat row) = Some y
    ∧ cell_float zs (Z.to_nat row) = Some z
    ∧ entry3 arr (Z.to_nat l) (Z.to_nat p) 0 = Some x
    ∧ entry3 arr (Z.to_nat l) (Z.to_nat p) 1 = Some y
    ∧ entry3 arr (Z.to_nat l) (Z.to_nat p) 2 = Some z.

Module RadialFromVmecCalls.
Section Calls.
Context `{Float F}.
Import RadialFromVmec.

Definition is_point (c : gmsh_call (F := F)) : bool :=
  match c with occ_addPoint _ _ _ _ _ => true | _ => false end.

Definition is_line (c : gmsh_call (F := F)) : bool :=
  match c with occ_addLine _ _ _ => true | _ => false end.

(** The calls that build the surfaces and the volume. *)
Definition is_surface_call (c : gmsh_call (F := F)) : bool :=
  match c with
  | occ_addCurveLoop _ _ | occ_addSurfaceFilling _ _
  | occ_addSurfaceLoop _ _ | occ_addVolume _ _ => true
  | _ => false
  end.

(** The tags of the surfaces, and the surface loops and the volumes with
    their tags, in the order of the calls. *)
Definition surface_tags (cs : list (gmsh_call (F := F))) : list Z :=
  omap (fun c => match c with occ_addSurfaceFilling _ tag => Some tag | _ => None end) cs.

Definition surface_loops (cs : list (gmsh_call (F := F))) : list (list Z * Z) :=
  omap (fun c => match c with occ_addSurfaceLoop tags tag => Some (tags, tag) | _ => None end) cs.

Definition volumes (cs : list (gmsh_call (F := F))) : list (list Z * Z) :=
  omap (fun c => match c with occ_addVolume tags tag => Some (tags, tag) | _ => None end) cs.

(** [float(col[column])], where both steps succeed. *)
Definition cell_value (col : csv_row) (column : string) : option F :=
  PyDict.get col column ≫= float_of_string.

End Calls.
End RadialFromVmecCalls.

(** ** json_append/json_append.py: the order of the keys *)

Module PyDictOrder.
Section Order.
Context {V : Type}.

(** The item of a dict after an update with [other]: the same key, with
    the value [other] gives it when it has the key. *)
Definition overridden (other : list (string * V)) (item : string * V) : string * V :=
  (item.1, default item.2 (PyDict.get other item.1)).

(** The key of an item is not a key of [d]. *)
Definition is_new (d : list (string * V)) (item : string * V) : bool :=
  match PyDict.get d item.1 with Some _ => false | None => true end.

End Order.
End PyDictOrder.

(** ** sphere_gen/sphere_gen.py: the layers in closed form, and the beamlines *)

Module SphereGenLayers.

(** The outer radius after the layers [0] to [idx]: the running sum of the
    rounded thicknesses. *)
Definition outer_radius_at (radial_build : list Q) (multiplier : Q) (idx : nat) : Q :=
  foldl (fun acc t => (acc + round3 (t * multiplier))%Q) 0%Q (take (Datatypes.S idx) radial_build).

(** The solid of layer [idx] with thickness [t]: a ball for the core, a
    shell for every other layer. *)
Definition layer_solid (radial_build : list Q) (multiplier : Q) (workplane : string)
    (idx : nat) (t : Q) : SphereGen.solid :=
  if decide (idx = 0%nat) then SphereGen.Sphere workplane (t * multiplier)
  else
    SphereGen.Cut
      (SphereGen.Sphere workplane (outer_radius_at radial_build multiplier idx))
      (SphereGen.Sphere workplane
         (outer_radius_at radial_build multiplier idx - t * multiplier)).

(** Where the component of layer [idx] stands in the list. *)
Definition component_index (hollow_core : bool) (idx : nat) : nat :=
  if hollow_core && (2 <=? idx)%nat then (idx - 1)%nat else idx.

End SphereGenLayers.

Module SphereGenExports.

(** The names of the components that [create_reactor_layer] keeps among
    the layers [idx] to [idx + n - 1]: all but the second layer of a hollow
    core; and the STEP file it exports for a name. *)
Definition kept_names (component_names : list string) (hollow_core : bool)
    (idx n : nat) : list string :=
  omap (fun i => if bool_decide (i = 1%nat) && hollow_core then None
                 else component_names !! i)
       (seq idx n).

Definition step_path (save_directory name : string) : string :=
  save_directory +:+ "/" +:+ name +:+ ".step".

End SphereGenExports.

(** [for x in xs: body], where [body] updates the variables [s] and may
    raise. *)
Fixpoint for_each {A S : Type} (body : S → A → result S) (s : S) (xs : list A)
    : result S :=
  match xs with
  | [] => Ok s
  | x :: rest => s' ← body s x; for_each body s' rest
  end.

(** What sphere_gen.py and tokamakgen.py use of Python, [math] and numpy
    beyond the float interface: a number of the source text or of the
    configuration as a float, [math.acos] ([None] where it raises
    [ValueError]), [math.atan2], [math.degrees], [np.linspace(start, stop,
    num)], the comparison [x <= y], [abs(x)], [round(x, 2)] and
    [np.round(x, 5)]. *)
Class MathLib (F : Type) : Type := {
  float_of_Q : Q → F;
  facos : F → option F;
  fatan2 : F → F → F;
  fdegrees : F → F;
  np_linspace : F → F → nat → list F;
  fle : F → F → bool;
  fabs : F → F;
  round2 : F → F;
  np_round5 : F → F
}.

Module SphereGenBeamlines.

Section Script.

Context `{Float F} `{MathLib F}.

(** CadQuery solids of the beamlines, kept as the calls that build them;
    [Part] is a solid of the reactor core. *)
Inductive shape : Type :=
| Part (s : SphereGen.solid)
| Box (length width height : Q)
| Rotate (s : shape) (axis_start axis_end : Z * Z * Z) (angle : F)
| Translate (s : shape) (vec : F * F * F)
| CutBy (s tool : shape).

(** [length, width, height = dimensions] *)
Definition unpack3 (dimensions : list Q) : result (Q * Q * Q) :=
  match dimensions with
  | [length; width; height] => Ok (length, width, height)
  | _ =>
      if (List.length dimensions <? 3)%nat then
        Raise (ValueError ("not enough values to unpack (expected 3, got "
                           +:+ str_int (Z.of_nat (List.length dimensions)) +:+ ")"))
      else Raise (ValueError "too many values to unpack (expected 3)")
  end.

(** The variables the loops update: the part being cut and the list of
    beamlines. *)
Definition beam_state : Type := shape * list shape.

(** The two innermost loops, over [dx] and [dy]: one beamline per pair. *)
Definition mini_beamlines (length mini_width mini_height width height : Q)
    (num_minis : nat) (x y z phi_step_angle theta_deg phi_deg : F) (st : beam_state)
    : result beam_state :=
  let spread := fun size : Q =>
    np_linspace (float_of_Q (- size / 4 * inject_Z (Z.of_nat num_minis - 1)))
                (float_of_Q (size / 4 * inject_Z (Z.of_nat num_minis - 1))) num_minis in
  for_each
    (fun st dx =>
       for_each
         (fun (st : beam_state) dy =>
            let beamline := Box length mini_width mini_height in
            let beamline := Rotate beamline (0, 0, 0) (0, 1, 0) (fsub (f_of_Z 90) theta_deg) in
            let beamline := Rotate beamline (0, 0, 0) (0, 0, 1) phi_deg in
            let mini_x := fsub (fadd x (fmul dx (fcos phi_step_angle)))
                               (fmul dy (fsin phi_step_angle)) in
            let mini_y := fadd (fadd y (fmul dx (fsin phi_step_angle)))
                               (fmul dy (fcos phi_step_angle)) in
            let beamline := Translate beamline (mini_x, mini_y, z) in
            let new_part := CutBy st.1 beamline in
            let beamline := CutBy beamline (Part (SphereGen.Sphere "XY" (848 # 100))) in
            Ok (new_part, st.2 ++ [beamline]))
         st (spread height))
    st (spread width).

(** One pass of [for i in range(layer_count)]. *)
Definition beamline_at (length mini_width mini_height width height radius : Q)
    (num_minis : nat) (theta phi_step : F) (st : beam_state) (i : Z)
    : result beam_state :=
  let phi_step_angle := fmul (f_of_Z i) phi_step in
  let r := float_of_Q radius in
  let x := fmul (fmul (fneg r) (fsin theta)) (fcos phi_step_angle) in
  let y := fmul (fmul (fneg r) (fsin theta)) (fsin phi_step_angle) in
  let z := fmul (fneg r) (fcos theta) in
  angle ← match facos (fdiv z (fneg r)) with
          | Some a => Ok a
          | None => Raise (ValueError "math domain error")
          end;
  let theta_deg := fdegrees angle in
  let phi_deg := fdegrees (fatan2 y x) in
  mini_beamlines length mini_width mini_height width height num_minis
    x y z phi_step_angle theta_deg phi_deg st.

(** One pass of [for layer_count, theta in zip(layers, polar_angles)]. *)
Definition beamline_layer (length mini_width mini_height width height radius : Q)
    (num_minis : nat) (st : beam_state) (layer : Z * F) : result beam_state :=
  let layer_count := layer.1 in
  let theta := layer.2 in
  phi_step ← (if layer_count =? 0 then Raise ZeroDivisionError
              else Ok (fdiv (fmul (f_of_Z 2) fpi) (f_of_Z layer_count)));
  for_each
    (beamline_at length mini_width mini_height width height radius num_minis theta phi_step)
    st (seqZ 0 layer_count).

(** [add_azimuthal_beamlines]; the answer is the updated parts and the
    beamlines. *)
Definition add_azimuthal_beamlines (reactor_core_parts : list SphereGen.solid)
    (dimensions : list Q) (layers : list Z) (radius : Q) (use_mini_beamlines : bool)
    : result (list shape * list shape) :=
  dims ← unpack3 dimensions;
  let length := (dims.1.1 + radius)%Q in
  let width := dims.1.2 in
  let height := dims.2 in
  let mini_width := if use_mini_beamlines then (width / 2)%Q else width in
  let mini_height := if use_mini_beamlines then (height / 2)%Q else height in
  let num_layers := List.length layers in
  let polar_angles := removelast (tail (np_linspace (f_of_Z 0) fpi (num_layers + 2))) in
  let num_minis := if use_mini_beamlines then 4%nat else 1%nat in
  for_each
    (fun (acc : list shape * list shape) part =>
       st ← for_each
              (beamline_layer length mini_width mini_height width height radius num_minis)
              (Part part, acc.2) (zip layers polar_angles);
       Ok (acc.1 ++ [st.1], st.2))
    ([], []) reactor_core_parts.

(** The ["beamlines"] object of the configuration file. *)
Record beamlines : Type := {
  gen_beamlines : bool;
  beamline_dimensions : list Q;
  layer_spacing : list Z
}.

(** The script from the configuration to the objects of the assembly it
    saves as reactor.step.  Without beamlines it indexes the list of parts
    with a part. *)
Definition main (geometry_data : SphereGen.geometry) (beamline_data : beamlines)
    : result (list shape) :=
  let major_radius := foldl Qplus 0%Q (SphereGen.radial_build geometry_data) in
  reactor_core_parts ← SphereGen.reactor_core_parts geometry_data;
  if gen_beamlines beamline_data then
    r ← add_azimuthal_beamlines reactor_core_parts (beamline_dimensions beamline_data)
          (layer_spacing beamline_data) major_radius false;
    Ok (r.1 ++ r.2)
  else
    match reactor_core_parts with
    | [] => Ok []
    | _ :: _ => Raise TypeError
    end.

End Script.

End SphereGenBeamlines.

Module SphereGenBeamlinesView.
Section View.
Context `{Float F}.
Import SphereGenBeamlines.

(** How many tools have been cut out of a solid. *)
Fixpoint cuts (s : shape (F := F)) : nat :=
  match s with
  | CutBy s' _ => Datatypes.S (cuts s')
  | _ => O
  end.

End View.
End SphereGenBeamlinesView.

(** ** tokamak_gen/tokamakgen.py *)

(** [sub in s] for strings. *)
Fixpoint has_substring (sub s : string) : bool :=
  String.prefix sub s
  || match s with
     | EmptyString => false
     | String _ rest => has_substring sub rest
     end.

Module TokamakGen.

Section Script.

Context `{Float F} `{MathLib F}.

(** CadQuery and paramak objects, kept as the calls that build them:
    [cq.Workplane("XY").polyline(points).close().revolve(degrees, (0, -10, 0),
    (0, 10, 0))], [a.cut(b)], [paramak.PoloidalFieldCoil(height, width,
    center_point, workplane="XY")] once exported and imported again, and the
    assembly [tf_step] returns. *)
Inductive solid : Type :=
| Revolve (points : list (F * F)) (degrees : Z)
| Cut (a b : solid)
| PoloidalFieldCoil (height width : F) (center_point : F * F)
| TFCoils (children : list (TfStep.child (F := F))).

(** An assembly: the objects added, each with the name given to
    [cq.Assembly.add], in the order of the calls. *)
Definition assembly : Type := list (string * solid).

(** The STEP files of the working directory, by name. *)
Definition step_files : Type := list (string * solid).

(** [Torus.calculate_r] and [Torus.calculate_z] *)
Definition calculate_r (r_0 a delta : F) (po i : Z) : F :=
  let angle := fdiv (fmul (f_of_Z i) fpi) (f_of_Z po) in
  fadd r_0
    (fmul a
       (fcos (fadd (fadd fpi angle)
                   (fmul (fmul a (fsin delta)) (fsin (fadd fpi angle)))))).

Definition calculate_z (a kappa : F) (po i : Z) (squaredness : F) : F :=
  let angle := fdiv (fmul (f_of_Z i) fpi) (f_of_Z po) in
  let angle2 := fdiv (fmul (f_of_Z (2 * i)) fpi) (f_of_Z po) in
  fmul (fmul a kappa)
    (fsin (fadd (fadd fpi angle) (fmul squaredness (fsin (fadd fpi angle2))))).

(** [Torus.get_r_and_z_points], with the defaults of the class for [delta],
    [si], [sj], [kappa] and [po]. *)
Definition get_r_and_z_points (r_0 a : F) : list F * list F :=
  let delta := f_of_Z 1 in
  let si := f_of_Z 0 in
  let sj := f_of_Z 0 in
  let kappa := f_of_Z 2 in
  let po := 54 in
  let range := seqZ 1 (2 * po - 1) in
  (map (fun i => np_round5 (calculate_r r_0 a delta po i)) range,
   map (fun i => np_round5 (calculate_z a kappa po i (if i <=? po then si else sj))) range).

(** [Torus(r_0=..., a=..., wire=False, degrees=...).torus] *)
Definition torus (r_0 a : F) (degrees : Z) : solid :=
  let pts := get_r_and_z_points r_0 a in
  Revolve (zip pts.1 pts.2) degrees.

(** [write_csv], then [csv.DictReader] on the file: a row per pair of
    points, under the header X, Y. *)
Definition write_csv (r_points z_points : list F) : list csv_row :=
  zip_with (fun r z => [("X", float_str r); ("Y", float_str z)]) r_points z_points.

Definition find_coil_centrepoint (vessel_height vessel_radius tf x_offset : F)
    (inner_coil top : bool) : F * F :=
  let vertical_offset := if top then f_of_Z 0 else fneg (f_of_Z 0) in
  let coil_height := fadd vessel_height vertical_offset in
  let coil_radius := if inner_coil then x_offset else x_offset in
  let coil_height :=
    if fle coil_height (fmul (f_of_Z (-2)) (fadd vessel_radius tf))
    then fsub coil_height (fmul (f_of_Z 2) tf)
    else if fle (fmul (f_of_Z 2) (fadd vessel_radius tf)) coil_height
    then fadd coil_height (fmul (f_of_Z 2) tf)
    else coil_height in
  (coil_radius, coil_height).

(** [cq.importers.importStep] and [os.remove] *)
Definition importStep (files : step_files) (name : string) : result solid :=
  match PyDict.get files name with
  | Some s => Ok s
  | None => Raise (ValueError "STEP File could not be loaded")
  end.

Definition remove (files : step_files) (name : string) : step_files :=
  List.filter (fun item => negb (String.eqb item.1 name)) files.

(** [for step_file in step_files: cq_coils.append(cq.importers.importStep(
    step_file)); os.remove(step_file)] *)
Definition import_all (files : step_files) (cq_coils : list solid) (names : list string)
    : result (step_files * list solid) :=
  for_each
    (fun (st : step_files * list solid) name =>
       coil ← importStep st.1 name;
       Ok (remove st.1 name, st.2 ++ [coil]))
    (files, cq_coils) names.

(** A cell of a row handed to [csv.writer]. *)
Inductive cell : Type :=
| CInt (z : Z)
| CFloat (x : F)
| CStr (s : string).

(** [generate_pf_coil_set]; the answer is the coils, the STEP files left in
    the working directory, and the rows appended to the PF coil file. *)
Definition generate_pf_coil_set (heights x_offsets : list F)
    (vessel_radius tf_dr pf_dr pf_dz major_radius : F) (inner_coil top : bool)
    (files : step_files) : result (list solid * step_files * list (list cell)) :=
  let r_turns := 10 in
  let z_turns := 10 in
  let current_per_turn := 2 in
  exported ←
    for_each
      (fun (st : step_files * list string) (item : nat * F) =>
         x_offset ← getitem x_offsets item.1;
         let centerpoint :=
           find_coil_centrepoint item.2 vessel_radius tf_dr x_offset inner_coil top in
         let pf_coil := PoloidalFieldCoil pf_dz pf_dr centerpoint in
         let step_filename := "pf_coil_" +:+ str_int (Z.of_nat item.1) +:+ ".step" in
         Ok (PyDict.setitem st.1 step_filename pf_coil, st.2 ++ [step_filename]))
      (files, []) (imap pair heights);
  imported ← import_all exported.1 [] exported.2;
  coil_data ←
    for_each
      (fun (coil_data : list (list cell)) (item : nat * F) =>
         x_offset ← getitem x_offsets item.1;
         let centerpoint :=
           find_coil_centrepoint item.2 vessel_radius tf_dr x_offset inner_coil top in
         Ok (coil_data ++
             [[CInt r_turns; CInt z_turns; CInt current_per_turn; CFloat centerpoint.1;
               CFloat pf_dr; CFloat pf_dz; CInt 0; CFloat centerpoint.2; CInt 0;
               CInt 0; CInt 1; CInt 0]]))
      [] (imap pair heights);
  Ok (imported.2, imported.1, coil_data).

(** The centre heights of the coils of a solenoid. *)
Definition solenoid_heights (solenoid_length : F) (number_of_turns : Z) : list F :=
  let dz := fdiv solenoid_length (f_of_Z number_of_turns) in
  let start_height := fdiv (fneg solenoid_length) (f_of_Z 2) in
  map (fun i => fadd start_height (fmul (f_of_Z i) dz)) (seqZ 0 number_of_turns).

(** [generate_solenoid], as run_code calls it: the length is a numpy
    float, whose division does not raise. *)
Definition generate_solenoid (solenoid_length : F) (number_of_turns : Z)
    (loop_radius solenoid_thickness : F) (files : step_files)
    : result (list solid * step_files) :=
  let exported :=
    foldl
      (fun (st : step_files * list string) height =>
         let solenoid_coil :=
           PoloidalFieldCoil (float_of_Q (2 # 10)) solenoid_thickness (loop_radius, height) in
         let step_filename := "solenoid_coil_" +:+ float_str height +:+ ".step" in
         (PyDict.setitem st.1 step_filename solenoid_coil, st.2 ++ [step_filename]))
      (files, []) (solenoid_heights solenoid_length number_of_turns) in
  imported ← import_all exported.1 [] exported.2;
  Ok (imported.2, imported.1).

(** [max(l)] and [min(l)] on a list. *)
Definition py_max (l : list F) : result F :=
  match l with
  | [] => Raise (ValueError "max() arg is an empty sequence")
  | x :: rest => Ok (foldl fmax x rest)
  end.

Definition py_min (l : list F) : result F :=
  match l with
  | [] => Raise (ValueError "min() arg is an empty sequence")
  | x :: rest => Ok (foldl fmin x rest)
  end.

(** [list(accumulate(l))] *)
Fixpoint accumulate_from (total : F) (l : list F) : list F :=
  match l with
  | [] => []
  | x :: rest => fadd total x :: accumulate_from (fadd total x) rest
  end.

Definition accumulate (l : list F) : list F :=
  match l with
  | [] => []
  | x :: rest => x :: accumulate_from x rest
  end.

(** The variables the loop over the components updates; the vessel top and
    bottom are unbound until a component after the plasma is built. *)
Record build_state : Type := {
  is_plasma : bool;
  reactor_components : assembly;
  vessel_r_points : list F;
  vessel_z_points : list F;
  vessel_top_bottom : option (F * F);
  vessel_height : F
}.

Definition build_component (major_radius : F) (st : build_state)
    (item : F * string) : result build_state :=
  let minor_radius := item.1 in
  let component_name := item.2 in
  if is_plasma st then
    Ok {| is_plasma := false;
          reactor_components :=
            reactor_components st ++ [(component_name, torus major_radius minor_radius 360)];
          vessel_r_points := vessel_r_points st;
          vessel_z_points := vessel_z_points st;
          vessel_top_bottom := vessel_top_bottom st;
          vessel_height := vessel_height st |}
  else
    let pts := get_r_and_z_points major_radius minor_radius in
    vessel_top ← py_max pts.2;
    vessel_bottom ← py_min pts.2;
    Ok {| is_plasma := false;
          reactor_components :=
            reactor_components st ++ [(component_name, torus major_radius minor_radius 180)];
          vessel_r_points := pts.1;
          vessel_z_points := pts.2;
          vessel_top_bottom := Some (vessel_top, vessel_bottom);
          vessel_height := fsub vessel_top vessel_bottom |}.

(** What the loop has bound after a pass for a component that is not the
    plasma: the 107 points of that component, and the top and the bottom of
    the vessel. *)
Definition vessel_bound (st : build_state) : Prop :=
  length (vessel_r_points st) = 107%nat
  ∧ length (vessel_z_points st) = 107%nat
  ∧ is_Some (vessel_top_bottom st).

(** [for i in range(1, len(reactor_components)): ...cut...]: every
    component but the first is cut by the one before it, as that one stands
    after its own cut. *)
Fixpoint cut_by_previous (previous : solid) (components : assembly) : assembly :=
  match components with
  | [] => []
  | (name, component) :: rest =>
      (name, Cut component previous) :: cut_by_previous (Cut component previous) rest
  end.

Definition cut_components (components : assembly) : assembly :=
  match components with
  | [] => []
  | (name, component) :: rest => (name, component) :: cut_by_previous component rest
  end.

(** [f"{prefix}_{i}"] for the objects of a list, in order. *)
Definition named (prefix : string) (objects : list solid) : assembly :=
  imap (fun i obj => (prefix +:+ "_" +:+ str_int (Z.of_nat i), obj)) objects.

(** What a call leaves behind: the three assemblies it returns, the rows
    of the vessel file, the lines [tf_step] wrote to the TF coil file, the
    rows appended to the PF coil file, and the STEP files left in the working
    directory. *)
Record outcome : Type := {
  tokamak_assembly : assembly;
  coils : assembly;
  reactor_only : assembly;
  vessel_file : list csv_row;
  tf_coil_file : list string;
  pf_rows : list (list cell);
  left_files : step_files
}.

(** The variables the loop over the coil positions updates. *)
Record coil_state : Type := {
  cs_tokamak : assembly;
  cs_coils : assembly;
  cs_rows : list (list cell);
  cs_files : step_files
}.

(** One pass of [for position_label, positions in coil_positions.items()]. *)
Definition add_coil_set (offset_x inner_offsets top_inner_coils : list F)
    (vessel_minor_radius tf_dr pf_dr pf_dz major_radius : F) (sol : bool)
    (st : coil_state) (item : string * list F) : result coil_state :=
  let position_label := item.1 in
  let positions := item.2 in
  let offsets :=
    if has_substring "inner" position_label then inner_offsets else offset_x in
  let is_inner_coil := has_substring "inner" position_label in
  let is_top := has_substring "top" position_label in
  coil_set ← generate_pf_coil_set positions offsets vessel_minor_radius tf_dr pf_dr pf_dz
                major_radius is_inner_coil is_top (cs_files st);
  lowest ← py_min top_inner_coils;
  let sol_height := fmul (f_of_Z 2) lowest in
  solenoid ←
    (if sol then
       generate_solenoid sol_height 40 (float_of_Q (8 # 100)) (float_of_Q (1 # 10))
         coil_set.1.2
     else Ok ([], coil_set.1.2));
  let pf := named position_label coil_set.1.1 in
  let sc := named ("solenoid_" +:+ position_label) solenoid.1 in
  Ok {| cs_tokamak := cs_tokamak st ++ pf ++ sc;
        cs_coils := cs_coils st ++ pf ++ sc;
        cs_rows := cs_rows st ++ coil_set.2;
        cs_files := solenoid.2 |}.

(** [run_code]; [files] are the STEP files of the working directory. *)
Definition run_code (fuel : nat) (radial_build : list F) (component_names : list string)
    (aspect_ratio tf_dz tf_dr pf_dz pf_dr : F) (sol : bool) (files : step_files)
    : result outcome :=
  let accumulated_radii := map round2 (accumulate radial_build) in
  plasma_radius ← seq_get accumulated_radii 0;
  let major_radius := fmul aspect_ratio plasma_radius in
  built ←
    for_each (build_component major_radius)
      {| is_plasma := true; reactor_components := [];
         vessel_r_points := []; vessel_z_points := [];
         vessel_top_bottom := None; vessel_height := f_of_Z 0 |}
      (zip accumulated_radii component_names);
  vessel_minor_radius ← seq_get accumulated_radii (-1);
  let filepath := write_csv (vessel_r_points built) (vessel_z_points built) in
  tf_coils ← TfStep.tf_step fuel vessel_minor_radius filepath tf_dz tf_dr;
  let top_coil_ratio := float_of_Q (1 # 8) in
  let bottom_coil_ratio := float_of_Q (1 # 8) in
  let outer_shift := float_of_Q (1 # 10) in
  let half := float_of_Q (5 # 10) in
  let min_outer_rad :=
    fadd (fadd (fadd major_radius vessel_minor_radius) tf_dr) (fmul half pf_dr) in
  let offset_x :=
    [fadd min_outer_rad outer_shift; fadd min_outer_rad outer_shift;
     fadd min_outer_rad outer_shift] in
  let max_inner_rad :=
    fsub (fsub (fsub major_radius vessel_minor_radius) tf_dr) (fmul half pf_dr) in
  let inner_offsets :=
    [fdiv max_inner_rad (f_of_Z 4); fdiv max_inner_rad (f_of_Z 2); max_inner_rad;
     fmul (f_of_Z 2) max_inner_rad; fmul (f_of_Z 4) max_inner_rad] in
  let vh := vessel_height built in
  tb ← match vessel_top_bottom built with
       | Some tb => Ok tb
       | None => Raise (UnboundLocalError "vessel_top")
       end;
  let vessel_top := tb.1 in
  let vessel_bottom := tb.2 in
  let top_end := fadd vessel_top (fmul vessel_top top_coil_ratio) in
  let bottom_end := fsub vessel_bottom (fmul (fabs vessel_bottom) bottom_coil_ratio) in
  let top_inner_coils :=
    np_linspace (fdiv vh (f_of_Z 3)) top_end 4 ++ [top_end] in
  let coil_positions :=
    [("top_coils", np_linspace (fdiv vh (f_of_Z 8)) (fdiv vh (f_of_Z 3)) 3);
     ("bottom_coils",
      np_linspace (fdiv (fneg vh) (f_of_Z 8)) (fdiv (fneg vh) (f_of_Z 3)) 3);
     ("top_inner_coils", top_inner_coils);
     ("bottom_inner_coils",
      np_linspace (fdiv (fneg vh) (f_of_Z 3)) bottom_end 4 ++ [bottom_end])] in
  let components := cut_components (reactor_components built) in
  cs ← for_each
         (add_coil_set offset_x inner_offsets top_inner_coils vessel_minor_radius
            tf_dr pf_dr pf_dz major_radius sol)
         {| cs_tokamak := components; cs_coils := []; cs_rows := []; cs_files := files |}
         coil_positions;
  let tf_children := ("TF_coils", TFCoils (TfStep.assy tf_coils)) in
  Ok {| tokamak_assembly := cs_tokamak cs ++ [tf_children];
        coils := cs_coils cs ++ [tf_children];
        reactor_only := components;
        vessel_file := filepath;
        tf_coil_file := TfStep.tf_file tf_coils;
        pf_rows := cs_rows cs;
        left_files := cs_files cs |}.

End Script.

End TokamakGen.

(** ** tokamak_gen/generate_geometry.py *)

Module GenerateGeometry.

Section Script.

Context `{Float F} `{MathLib F}.

(** The ["geometry"] object of the configuration file. *)
Record geometry : Type := {
  aspect_ratio : F;
  radial_build : list F;
  component_names : list string;
  TF_dz : F;
  TF_dr : F;
  PF_dr : F;
  PF_dz : F;
  With_Sol : bool
}.

Definition pf_header : list (TokamakGen.cell (F := F)) :=
  map TokamakGen.CStr
    ["R_turns"; "Z_turns"; "I"; "r_av"; "dr"; "dz"; "coil_x"; "coil_y"; "coil_z";
     "normal_x"; "normal_y"; "normal_z"].

(** The script: the answer is what [run_code] leaves behind, its three
    assemblies being saved as reactor.step, coils.step and
    radial_build.step, and the rows appended to the PF coil file, the header
    first. *)
Definition main (fuel : nat) (geometry_data : geometry)
    (files : TokamakGen.step_files)
    : result (TokamakGen.outcome * list (list TokamakGen.cell)) :=
  _ ← seq_get (radial_build geometry_data) 0;
  out ← TokamakGen.run_code fuel (radial_build geometry_data)
          (component_names geometry_data) (aspect_ratio geometry_data)
          (TF_dz geometry_data) (TF_dr geometry_data) (PF_dz geometry_data)
          (PF_dr geometry_data) (With_Sol geometry_data) files;
  Ok (out, pf_header :: TokamakGen.pf_rows out).

End Script.

End GenerateGeometry.

(** ** Concrete inputs for the examples *)

Module Examples.

(** A grid with one cell that holds the value 7 and contains every point. *)
Definition one_cell_grid : HeatfluxToPINN.vtkUnstructuredGrid (R := Z) :=
  {| HeatfluxToPINN.FindCell := fun _ => 0;
     HeatfluxToPINN.CellArrays := [fun _ => 7] |}.



Definition geometry_match : SphereGen.geometry :=
  {| SphereGen.radial_build := [1; 2]%Q;
     SphereGen.component_names := ["plasma"; "vessel"];
     SphereGen.cut_in_half := true;
     SphereGen.hollow_core := true |}.




Definition object_1 : list (string * json) := [("a", JInt 1); ("b", JInt 2)].

Definition object_2 : list (string * json) := [("b", JInt 3); ("c", JNull)].

(** The rows of a vessel file with three points, and the services of a
    run in which every request is answered. *)
Definition vessel_rows : list csv_row :=
  [[("X", "1.0"); ("Y", "0.5")];
   [("X", "2.0"); ("Y", "0.5")];
   [("X", "2.0"); ("Y", "1.5")]].

Definition answer : DownloadNucleus.response :=
  {| DownloadNucleus.cookies := "session";
     DownloadNucleus.json_body := Ok (JDict [("status", JStr "OK")]);
     DownloadNucleus.content := "bytes" |}.

Definition nucleus : DownloadNucleus.services :=
  {| DownloadNucleus.post_firstfactor := fun _ _ => Ok answer;
     DownloadNucleus.get_user_info := fun _ => Ok answer;
     DownloadNucleus.get_download := fun _ _ _ _ => Ok answer |}.

(** The URL of a file whose name has no dot, and the URL of one whose name
    has. *)
Definition plain_name_args : DownloadNucleus.args :=
  {| DownloadNucleus.url := "omniverse://nucleus/Projects/run1/README";
     DownloadNucleus.username := "user";
     DownloadNucleus.password := "pass";
     DownloadNucleus.file := "out.bin" |}.

Definition file_args : DownloadNucleus.args :=
  {| DownloadNucleus.url := "omniverse://nucleus/Projects/run1/mesh.vtk";
     DownloadNucleus.username := "user";
     DownloadNucleus.password := "pass";
     DownloadNucleus.file := "out.bin" |}.

(** The rows of a boundary file for [Nphi = 2], [Ntheta = 2]: three loops
    of three points, the last loop repeating the first. *)
Definition boundary_row (x y z : string) : csv_row := [("X", x); ("Y", y); ("Z", z)].

Definition boundary_rows : list csv_row :=
  [boundary_row "1" "0" "0"; boundary_row "2" "0" "1"; boundary_row "3" "0" "0";
   boundary_row "1" "1" "0"; boundary_row "2" "1" "1"; boundary_row "3" "1" "0";
   boundary_row "1" "0" "0"; boundary_row "2" "0" "1"; boundary_row "3" "0" "0"].

End Examples.

(** ** A stand-in on the rationals for the rest of the numeric library

    [np.linspace] has its end points and equal steps; [math.acos] is the
    start of its series at zero and is defined everywhere; the roundings
    keep the number. *)

Module QMath.

Definition linspace (start stop : Q) (num : nat) : list Q :=
  map (fun i : nat =>
         Qred (start + inject_Z (Z.of_nat i) * ((stop - start) / inject_Z (Z.of_nat num - 1))))
      (seq 0 num).

#[export] Instance Q_MathLib : MathLib Q := {|
  float_of_Q := fun q => q;
  facos := fun x => Some (Qred ((355 # 226) - x - x * x * x / 6));
  fatan2 := fun y x => Qred (y / (1 + x * x));
  fdegrees := fun x => Qred (x * 180 / (355 # 113));
  np_linspace := linspace;
  fle := Qle_bool;
  fabs := fun x => if Qle_bool 0 x then x else Qopp x;
  round2 := fun x => x;
  np_round5 := fun x => x
|}.

End QMath.

Module BeamlineExamples.

(** A reactor of two layers, and beamlines in two layers of two and three
    around it. *)
Definition with_beamlines : SphereGenBeamlines.beamlines :=
  {| SphereGenBeamlines.gen_beamlines := true;
     SphereGenBeamlines.beamline_dimensions := [4; 1; 1]%Q;
     SphereGenBeamlines.layer_spacing := [2; 3] |}.

Definition without_beamlines : SphereGenBeamlines.beamlines :=
  {| SphereGenBeamlines.gen_beamlines := false;
     SphereGenBeamlines.beamline_dimensions := [4; 1; 1]%Q;
     SphereGenBeamlines.layer_spacing := [2; 3] |}.

End BeamlineExamples.

(** ** A stand-in on the integers

    Whole numbers, written in decimal and read back as written; division
    rounds down, and the circular functions are constant. *)

Module ZFloat.

Definition linspace (start stop : Z) (num : nat) : list Z :=
  map (fun i : nat => start + Z.of_nat i * (stop - start) / (Z.of_nat num - 1)) (seq 0 num).

#[export] Instance Z_Float : Float Z := {|
  f_of_Z := fun z => z;
  fadd := Z.add;
  fsub := Z.sub;
  fmul := Z.mul;
  fdiv := Z.div;
  fneg := Z.opp;
  fmax := Z.max;
  fmin := Z.min;
  fcos := fun _ => 1;
  fsin := fun _ => 0;
  fpi := 3;
  fis_zero := fun x => x =? 0;
  float_of_string := fun s => Z.of_int <$> DecimalString.NilZero.int_of_string s;
  float_str := str_int
|}.

#[export] Instance Z_MathLib : MathLib Z := {|
  float_of_Q := Qfloor;
  facos := fun x => Some (1 - x);
  fatan2 := fun y x => y - x;
  fdegrees := fun x => x * 60;
  np_linspace := linspace;
  fle := Z.leb;
  fabs := Z.abs;
  round2 := fun x => x;
  np_round5 := fun x => x
|}.

End ZFloat.

Module TokamakExamples.

(** A plasma of radius 2 inside a vessel 1 thick, without solenoid. *)
Definition two_layers : GenerateGeometry.geometry (F := Z) :=
  {| GenerateGeometry.aspect_ratio := 2;
     GenerateGeometry.radial_build := [2; 1];
     GenerateGeometry.component_names := ["Plasma"; "Vessel"];
     GenerateGeometry.TF_dz := 1;
     GenerateGeometry.TF_dr := 1;
     GenerateGeometry.PF_dr := 1;
     GenerateGeometry.PF_dz := 1;
     GenerateGeometry.With_Sol := false |}.


End TokamakExamples.

(** * Part II: properties *)

(** ** The models on concrete inputs *)

Example str_int_examples :
  (str_int 0, str_int 12, str_int (-7)) = ("0", "12", "-7").
Proof. vm_compute. reflexivity. Qed.

Example round3_examples :
  (round3 (12335 # 10000), round3 (12345 # 10000), round3 (12346 # 10000))
  = ((1234 # 1000)%Q, (1234 # 1000)%Q, (1235 # 1000)%Q).
Proof. vm_compute. reflexivity. Qed.

Example replace_example :
  PyStr.replace "True" "true" "[True, TrueTrue, Tru]" = "[true, truetrue, Tru]".
Proof. vm_compute. reflexivity. Qed.

Example strip_ends_examples :
  (PyStr.strip_ends "[1]x", PyStr.strip_ends "ab", PyStr.strip_ends "a")
  = ("1]", EmptyString, EmptyString).
Proof. vm_compute. reflexivity. Qed.

Example read_json_string_example :
  JsonStringToFile.read_json_string "{
}
" = "{
 }
".
Proof. vm_compute. reflexivity. Qed.

Example unpack2_example :
  PyDict.unpack2 Examples.object_1 Examples.object_2
  = [("a", JInt 1); ("b", JInt 3); ("c", JNull)].
Proof. vm_compute. reflexivity. Qed.

Example heatflux_three_columns :
  HeatfluxToPINN.main 0 Examples.one_cell_grid
    (HeatfluxToPINN.Arr2 3 [[1; 2; 3]; [4; 5; 6]])
  = Ok [[1; 2; 3; 7]; [4; 5; 6; 7]].
Proof. vm_compute. reflexivity. Qed.

Example heatflux_single_line :
  HeatfluxToPINN.main 0 Examples.one_cell_grid (HeatfluxToPINN.Arr1 [1; 2; 3])
  = Raise IndexError.
Proof. vm_compute. reflexivity. Qed.

Example pull_unknown_bucket :
  Minio.pull
    {| Minio.pull_filename := "mesh.vtk"; Minio.pull_bucket := "runs";
       Minio.pull_file_save := "mesh.vtk" |}
    {| Minio.list_buckets_reply := Ok [];
       Minio.str_eq_bucket := fun _ _ => false;
       Minio.make_bucket_ok := true |}
  = [Minio.Minio_new "minio-console.mcfe.itservices.manchester.ac.uk"
       "oJoz9gvQ4d1GJPmrl9YN" "cZ7psKhLQ5P3V5OkUXGV5nNItojEZgZLaUHyXoMH" true;
     Minio.list_buckets;
     Minio.logging_error "Error: Bucket runs does not exist."].
Proof. vm_compute. reflexivity. Qed.

Example make_build_gmsh_calls :
  (fun r => match r with
            | Ok out => Some (RadialFromVmec.layer_passes out,
                              length (RadialFromVmec.gmsh out),
                              last (RadialFromVmec.gmsh out))
            | _ => None
            end)
    (RadialFromVmec.make_build (H := QFloat.Q_Float) 20 Examples.boundary_rows 2 2 [1; 2]%Q)
  = Some (1%nat, 30%nat, Some (RadialFromVmec.write "layer_0.step")).
Proof. vm_compute. reflexivity. Qed.

Example make_build_empty_thickness_list :
  RadialFromVmec.make_build (H := QFloat.Q_Float) 20 Examples.boundary_rows 2 2 []
  = Raise IndexError.
Proof. vm_compute. reflexivity. Qed.

(** ** The result monad *)

Lemma bind_Ok {A B} (m : result A) (f : A → result B) (b : B) :
  (m ≫= f) = Ok b ↔ ∃ a, m = Ok a ∧ f a = Ok b.
Proof.
  destruct m as [a| |]; simpl; split.
  - intros Hf. exists a. done.
  - intros (a' & [= <-] & Hf). done.
  - discriminate.
  - intros (a' & [=] & _).
  - discriminate.
  - intros (a' & [=] & _).
Qed.

Lemma mapM_Ok {A B} (f : A → result B) (l : list A) (k : list B) :
  mapM f l = Ok k ↔ Forall2 (fun a b => f a = Ok b) l k.
Proof.
  revert k. induction l as [|a l IH]; intros k; simpl.
  - split.
    + intros [= <-]. constructor.
    + intros Hk. inversion Hk. done.
  - rewrite bind_Ok. split.
    + intros (b & Hb & Hrest). apply bind_Ok in Hrest as (k' & Hk' & [= <-]).
      constructor; [done|]. by apply IH.
    + intros Hk. inversion Hk as [|? b ? k' Hb Hk']; subst.
      exists b. split; [done|]. apply bind_Ok. exists k'.
      split; [by apply IH|done].
Qed.

(** ** unstructured_heatflux_to_PINN.py *)

Section HeatfluxProperties.

Import HeatfluxToPINN.

Context {R : Type}.
Variable zero : R.

Lemma fill_results_from (input_map acc : list R) (k : nat) :
  (k + length input_map ≤ length acc)%nat →
  foldl (fun results p => <[p.1 := p.2]> results) acc
        (imap (fun ii result => ((k + ii)%nat, result)) input_map)
  = take k acc ++ input_map ++ drop (k + length input_map) acc.
Proof.
  revert acc k. induction input_map as [|x l IH]; intros acc k Hlen; simpl in *.
  - rewrite Nat.add_0_r. by rewrite take_drop.
  - rewrite Nat.add_0_r.
    erewrite (imap_ext _ (fun ii result => ((Datatypes.S k + ii)%nat, result)) l).
    2:{ intros i y _. simpl. f_equal. lia. }
    rewrite IH; [|rewrite length_insert; lia].
    rewrite (take_S_r _ _ x); [|apply list_lookup_insert_eq; lia].
    rewrite take_insert_ge; [|lia].
    rewrite drop_insert_lt; [|lia].
    rewrite <- (assoc_L (++)). simpl.
    by replace (Datatypes.S (k + length l))%nat with (k + Datatypes.S (length l))%nat by lia.
Qed.

Lemma fill_results_id (input_map : list R) :
  fill_results zero input_map = input_map.
Proof.
  unfold fill_results.
  rewrite (fill_results_from input_map _ 0); [|rewrite length_replicate; lia].
  simpl. rewrite drop_ge; [|rewrite length_replicate; lia].
  by rewrite app_nil_r.
Qed.

Lemma column_stack_Ok (coordinates cols out : list (list R)) :
  column_stack coordinates cols = Ok out ↔
  Forall3 (fun row extra o => o = row ++ extra) coordinates cols out.
Proof.
  revert cols out. induction coordinates as [|row l IH]; intros cols out.
  - destruct cols; simpl; split; try discriminate.
    + intros [= <-]. constructor.
    + intros Hf. inversion Hf. done.
    + intros Hf. inversion Hf.
  - destruct cols as [|extra cols]; simpl.
    + split; [discriminate|]. intros Hf. inversion Hf.
    + rewrite bind_Ok. split.
      * intros (rest & Hrest & [= <-]). constructor; [done|]. by apply IH.
      * intros Hf. inversion Hf as [|? ? ? ? ? rest Ho Hrest]; subst.
        exists rest. split; [by apply IH|done].
Qed.

(** The output of a run on a two-dimensional array, row by row. *)
Lemma main_rows (grid : vtkUnstructuredGrid) (ncols : nat)
    (rows out : list (list R)) :
  main zero grid (Arr2 ncols rows) = Ok out ↔
  Forall2 (fun row o =>
             ∃ q, vtkSearchPoints zero grid (row_coordinates ncols row) = Ok q
                  ∧ o = row_coordinates ncols row ++ q :: row_area ncols row)
          rows out.
Proof.
  unfold main, row_coordinates, row_area. simpl.
  destruct (decide (ncols = 4%nat)) as [Hn|Hn].
  - rewrite bind_Ok. setoid_rewrite mapM_Ok. setoid_rewrite fill_results_id.
    setoid_rewrite column_stack_Ok. split.
    + intros (qs & Hqs & Hout).
      revert qs out Hqs Hout. induction rows as [|row rows IH]; intros qs out Hqs Hout.
      * inversion Hqs; subst. inversion Hout; subst. constructor.
      * inversion Hqs as [|? q ? qs' Hq Hqs']; subst. simpl in Hout.
        inversion Hout as [|? ? o ? ? out' Ho Hout']; subst.
        constructor; [by exists q|]. by eapply IH.
    + intros Hout. induction Hout as [|row o rows out (q & Hq & ->) _ (qs & Hqs & Hst)].
      * exists []. split; constructor.
      * exists (q :: qs). split; [by constructor|]. simpl. by constructor.
  - rewrite bind_Ok. setoid_rewrite mapM_Ok. setoid_rewrite fill_results_id.
    setoid_rewrite column_stack_Ok. split.
    + intros (qs & Hqs & Hout).
      revert qs out Hqs Hout. induction rows as [|row rows IH]; intros qs out Hqs Hout.
      * inversion Hqs; subst. inversion Hout; subst. constructor.
      * inversion Hqs as [|? q ? qs' Hq Hqs']; subst. simpl in Hout.
        inversion Hout as [|? ? o ? ? out' Ho Hout']; subst.
        constructor; [by exists q|]. by eapply IH.
    + intros Hout. induction Hout as [|row o rows out (q & Hq & ->) _ (qs & Hqs & Hst)].
      * exists []. split; constructor.
      * exists (q :: qs). split; [by constructor|]. simpl. by constructor.
Qed.

End HeatfluxProperties.

Section HeatfluxClaims.

Import HeatfluxToPINN.

Context {R : Type}.
Variable zero : R.

(** C1, as amended.  On a two-dimensional coordinates array the script
    writes one output row per input row, in the same order.  Row [i] holds
    the coordinates of input row [i] (all of its columns, or the first three
    when the array has four columns), then the heat flux looked up at exactly
    those coordinates, then the fourth input column when there is one.  The
    run writes its file exactly when every lookup succeeds, and what it writes
    for row [i] does not depend on the other rows. *)
Theorem heatflux_rows_in_order (grid : vtkUnstructuredGrid) (ncols : nat)
    (rows : list (list R)) :
  (Forall (fun row => ∃ q, vtkSearchPoints zero grid (row_coordinates ncols row) = Ok q) rows
   → ∃ out, main zero grid (Arr2 ncols rows) = Ok out)
  ∧ ∀ out, main zero grid (Arr2 ncols rows) = Ok out →
      length out = length rows
      ∧ (∀ i row, rows !! i = Some row →
           ∃ q, vtkSearchPoints zero grid (row_coordinates ncols row) = Ok q
                ∧ out !! i = Some (row_coordinates ncols row ++ q :: row_area ncols row))
      ∧ (∀ rows' out' i,
           main zero grid (Arr2 ncols rows') = Ok out' →
           rows' !! i = rows !! i → out' !! i = out !! i).
Proof.
  split.
  - intros Hall. induction Hall as [|row rows (q & Hq) _ (out & Hout)].
    + exists []. apply main_rows. constructor.
    + exists ((row_coordinates ncols row ++ q :: row_area ncols row) :: out).
      apply main_rows. constructor; [by exists q|]. by apply main_rows.
  - intros out Hout. apply main_rows in Hout. split; [|split].
    + symmetry. by eapply Forall2_length.
    + intros i row Hrow.
      destruct (Forall2_lookup_l _ _ _ _ _ Hout Hrow) as (o & Ho & q & Hq & ->).
      by exists q.
    + intros rows' out' i Hout' Hi. apply main_rows in Hout'.
      destruct (rows !! i) as [row|] eqn:Hrow.
      * destruct (Forall2_lookup_l _ _ _ _ _ Hout Hrow) as (o & Ho & q & Hq & ->).
        destruct (Forall2_lookup_l _ _ _ _ _ Hout' Hi) as (o' & Ho' & q' & Hq' & ->).
        rewrite Ho, Ho'. congruence.
      * apply lookup_ge_None in Hrow, Hi.
        rewrite (Forall2_length _ _ _ Hout) in Hrow.
        rewrite (Forall2_length _ _ _ Hout') in Hi.
        by rewrite !(proj2 (lookup_ge_None _ _)).
Qed.


End HeatfluxClaims.

(** C1 as stated fails on a file with four columns: the fourth column is
    set aside and written after the heat flux, so the output row is neither
    the input row followed by the heat flux nor the three coordinates
    followed by the heat flux alone. *)
Lemma heatflux_four_columns_counterexample :
  HeatfluxToPINN.main 0 Examples.one_cell_grid (HeatfluxToPINN.Arr2 4 [[1; 2; 3; 9]; [4; 5; 6; 8]])
    = Ok [[1; 2; 3; 7; 9]; [4; 5; 6; 7; 8]]
  ∧ HeatfluxToPINN.vtkSearchPoints 0 Examples.one_cell_grid [1; 2; 3] = Ok 7
  ∧ [1; 2; 3; 7; 9] ≠ [1; 2; 3; 9] ++ [7]
  ∧ [1; 2; 3; 7; 9] ≠ [1; 2; 3] ++ [7].
Proof.
  split; [vm_compute; reflexivity|].
  split; [vm_compute; reflexivity|].
  split; discriminate.
Qed.

Lemma heatflux_rows_in_order_witness :
  ∃ out, HeatfluxToPINN.main 0 Examples.one_cell_grid (HeatfluxToPINN.Arr2 4 [[1; 2; 3; 9]]) = Ok out
         ∧ length out = 1%nat.
Proof.
  destruct (heatflux_rows_in_order 0 Examples.one_cell_grid 4 [[1; 2; 3; 9]]) as [Hex Hrows].
  destruct Hex as [out Hout].
  - repeat constructor. exists 7. vm_compute. reflexivity.
  - exists out. split; [exact Hout|]. exact (proj1 (Hrows out Hout)).
Defined.


(** ** tile_paramak.py *)











(** ** sphere_gen.py *)

Lemma layer_step_without_export (names : list string) (m : Q) (wp : string)
    (cut_in_half hollow_core : bool) (dir : string)
    (st : SphereGen.layer_state) (idx : nat) (thickness : Q) :
  ∃ st', SphereGen.layer_step names m wp cut_in_half hollow_core false dir
           st idx thickness = Ok st'.
Proof.
  unfold SphereGen.layer_step.
  destruct (bool_decide (idx = 1%nat) && hollow_core); eauto.
Qed.

Lemma layer_loop_without_export (names : list string) (m : Q) (wp : string)
    (cut_in_half hollow_core : bool) (dir : string) (rb : list Q)
    (st : SphereGen.layer_state) (idx : nat) :
  ∃ st', SphereGen.layer_loop
           (SphereGen.layer_step names m wp cut_in_half hollow_core false dir)
           st idx rb = Ok st'.
Proof.
  revert st idx. induction rb as [|thickness rb IH]; intros st idx;
    cbn [SphereGen.layer_loop].
  - by exists st.
  - destruct (layer_step_without_export names m wp cut_in_half hollow_core dir
                st idx thickness) as [st1 Hst1].
    rewrite Hst1. cbn [mbind result_bind]. apply IH.
Qed.








(** ** minio_pull/pull.py and minio_push/push.py *)

Lemma pull_clients (args : Minio.pull_args) (srv : Minio.server) :
  Minio.clients (Minio.pull args srv)
  = [Minio.Minio_new "minio-console.mcfe.itservices.manchester.ac.uk"
       "oJoz9gvQ4d1GJPmrl9YN" "cZ7psKhLQ5P3V5OkUXGV5nNItojEZgZLaUHyXoMH" true].
Proof.
  unfold Minio.pull, Minio.clients. cbn [List.filter].
  destruct (Minio.list_buckets_reply srv) as [buckets| |]; [|done|done].
  by destruct (negb (Minio.bucket_in srv (Minio.pull_bucket args) buckets)).
Qed.

Lemma push_clients (args : Minio.push_args) (srv : Minio.server) :
  Minio.clients (Minio.push args srv)
  = [Minio.Minio_new "minio-console.mcfe.itservices.manchester.ac.uk"
       "oJoz9gvQ4d1GJPmrl9YN" "cZ7psKhLQ5P3V5OkUXGV5nNItojEZgZLaUHyXoMH" true].
Proof.
  unfold Minio.push, Minio.clients. cbn [List.filter].
  destruct (Minio.list_buckets_reply srv) as [buckets| |]; [|done|done].
  destruct (negb (Minio.bucket_in srv (Minio.push_bucket args) buckets)); [|done].
  by destruct (Minio.make_bucket_ok srv).
Qed.

(** C6.  Whatever the command-line arguments, and whatever the server
    answers, a run of pull.py or of push.py constructs its Minio client once,
    with the same constant endpoint, access key and secret key: any two runs
    construct equal clients. *)
Theorem minio_client_constant :
  let client :=
    Minio.Minio_new "minio-console.mcfe.itservices.manchester.ac.uk"
      "oJoz9gvQ4d1GJPmrl9YN" "cZ7psKhLQ5P3V5OkUXGV5nNItojEZgZLaUHyXoMH" true in
  (∀ args srv, Minio.clients (Minio.pull args srv) = [client])
  ∧ (∀ args srv, Minio.clients (Minio.push args srv) = [client])
  ∧ (∀ args1 srv1 args2 srv2,
       Minio.clients (Minio.pull args1 srv1) = Minio.clients (Minio.pull args2 srv2))
  ∧ (∀ args1 srv1 args2 srv2,
       Minio.clients (Minio.push args1 srv1) = Minio.clients (Minio.push args2 srv2))
  ∧ (∀ args1 srv1 args2 srv2,
       Minio.clients (Minio.pull args1 srv1) = Minio.clients (Minio.push args2 srv2)).
Proof.
  intros client. split; [apply pull_clients|]. split; [apply push_clients|].
  split; [|split]; intros args1 srv1 args2 srv2;
    by rewrite ?pull_clients, ?push_clients.
Qed.

(** ** Python dicts *)

Section DictProperties.

Context {V : Type}.

Implicit Types (d : list (string * V)) (k : string) (v : V).

Lemma dict_get_setitem d k v k' :
  PyDict.get (PyDict.setitem d k v) k'
  = if decide (k = k') then Some v else PyDict.get d k'.
Proof.
  induction d as [|[k0 v0] d IH]; simpl.
  - destruct (String.eqb_spec k k'); by case_decide.
  - destruct (String.eqb_spec k0 k) as [->|Hne]; simpl.
    + destruct (String.eqb_spec k k'); by case_decide.
    + destruct (String.eqb_spec k0 k') as [->|Hne'].
      * by rewrite decide_False by congruence.
      * apply IH.
Qed.

Lemma dict_get_None d k : PyDict.get d k = None ↔ k ∉ PyDict.keys d.
Proof.
  induction d as [|[k0 v0] d IH]; simpl.
  - split; [intros _; apply not_elem_of_nil|done].
  - rewrite not_elem_of_cons. destruct (String.eqb_spec k0 k) as [->|Hne].
    + split; [done|]. intros [Hk _]. done.
    + rewrite IH. split; [intros Hk; split; [congruence|done]|intros [_ Hk]; done].
Qed.

Lemma dict_setitem_new d k v :
  k ∉ PyDict.keys d → PyDict.setitem d k v = d ++ [(k, v)].
Proof.
  induction d as [|[k0 v0] d IH]; simpl; [done|].
  rewrite not_elem_of_cons. intros [Hne Hk].
  destruct (String.eqb_spec k0 k) as [->|_]; [done|]. by rewrite IH.
Qed.

Lemma dict_elem_of_keys_setitem d k v k' :
  k' ∈ PyDict.keys (PyDict.setitem d k v) ↔ k' = k ∨ k' ∈ PyDict.keys d.
Proof.
  unfold PyDict.keys. induction d as [|[k0 v0] d IH]; simpl.
  - rewrite elem_of_cons. tauto.
  - destruct (String.eqb_spec k0 k) as [->|_]; simpl; rewrite !elem_of_cons.
    + tauto.
    + rewrite IH. tauto.
Qed.

Lemma dict_keys_setitem d k v :
  list_to_set (PyDict.keys (PyDict.setitem d k v))
  =@{gset string} {[k]} ∪ list_to_set (PyDict.keys d).
Proof.
  apply set_eq. intros k'.
  rewrite elem_of_union, elem_of_singleton, !elem_of_list_to_set.
  apply dict_elem_of_keys_setitem.
Qed.

Lemma dict_setitem_well_formed d k v :
  PyDict.well_formed d → PyDict.well_formed (PyDict.setitem d k v).
Proof.
  unfold PyDict.well_formed.
  induction d as [|[k0 v0] d IH]; simpl.
  - intros _. apply NoDup_singleton.
  - rewrite NoDup_cons. intros [Hk0 Hd].
    destruct (String.eqb_spec k0 k) as [->|Hne]; simpl.
    + by apply NoDup_cons.
    + apply NoDup_cons. split; [|by apply IH].
      intros Hin. apply dict_elem_of_keys_setitem in Hin as [Heq|Hin]; done.
Qed.

Lemma dict_update_well_formed d other :
  PyDict.well_formed d → PyDict.well_formed (PyDict.update d other).
Proof.
  unfold PyDict.update. revert d.
  induction other as [|[k v] other IH]; intros d Hd; simpl; [done|].
  apply IH. by apply dict_setitem_well_formed.
Qed.

Lemma dict_keys_update d other :
  list_to_set (PyDict.keys (PyDict.update d other))
  =@{gset string} list_to_set (PyDict.keys d) ∪ list_to_set (PyDict.keys other).
Proof.
  unfold PyDict.update. revert d.
  induction other as [|[k v] other IH]; intros d; simpl.
  - set_solver.
  - rewrite IH, dict_keys_setitem. set_solver.
Qed.

Lemma dict_get_update d other k :
  PyDict.well_formed other →
  PyDict.get (PyDict.update d other) k
  = match PyDict.get other k with
    | Some v => Some v
    | None => PyDict.get d k
    end.
Proof.
  unfold PyDict.update, PyDict.well_formed. revert d.
  induction other as [|[k0 v0] other IH]; intros d Hwf; simpl; [done|].
  apply NoDup_cons in Hwf as [Hk0 Hwf].
  rewrite IH by done. rewrite dict_get_setitem.
  destruct (String.eqb_spec k0 k) as [->|Hne].
  - rewrite decide_True by done.
    by rewrite (proj2 (dict_get_None other k) Hk0).
  - by rewrite decide_False by done.
Qed.

Lemma dict_update_append d other :
  PyDict.well_formed other →
  (∀ k, k ∈ PyDict.keys other → k ∉ PyDict.keys d) →
  PyDict.update d other = d ++ other.
Proof.
  unfold PyDict.update, PyDict.well_formed. revert d.
  induction other as [|[k0 v0] other IH]; intros d Hwf Hdisj; simpl.
  - by rewrite app_nil_r.
  - apply NoDup_cons in Hwf as [Hk0 Hwf].
    rewrite dict_setitem_new by (apply Hdisj; simpl; left).
    rewrite IH; [by rewrite <- (assoc_L (++))|done|].
    intros k Hk. unfold PyDict.keys. rewrite map_app. simpl.
    rewrite not_elem_of_app, not_elem_of_cons. split; [|split].
    + apply Hdisj. simpl. by right.
    + intros ->. done.
    + apply not_elem_of_nil.
Qed.

Lemma dict_update_empty d : PyDict.well_formed d → PyDict.update [] d = d.
Proof.
  intros Hwf. rewrite dict_update_append; [done|done|].
  intros k _. apply not_elem_of_nil.
Qed.

End DictProperties.

(** ** json_append.py *)

(** C10.  On two JSON objects the script writes their right-biased union:
    the keys of the output are the keys of the first or of the second
    object, a key of the second object maps to the value the second object
    gives it, any other key keeps its value from the first object, and an
    empty second object leaves the first one as it is. *)
Theorem json_append_right_biased_union (d1 d2 : list (string * json)) :
  PyDict.well_formed d1 → PyDict.well_formed d2 →
  ∃ d, JsonAppend.combine (JDict d1) (JDict d2) = Ok (JDict d)
       ∧ PyDict.well_formed d
       ∧ list_to_set (PyDict.keys d)
         =@{gset string} list_to_set (PyDict.keys d1) ∪ list_to_set (PyDict.keys d2)
       ∧ (∀ k v, PyDict.get d2 k = Some v → PyDict.get d k = Some v)
       ∧ (∀ k, PyDict.get d2 k = None → PyDict.get d k = PyDict.get d1 k)
       ∧ JsonAppend.combine (JDict d1) (JDict []) = Ok (JDict d1).
Proof.
  intros Hwf1 Hwf2. exists (PyDict.unpack2 d1 d2).
  unfold JsonAppend.combine, PyDict.unpack2. rewrite (dict_update_empty d1 Hwf1).
  split; [done|]. split; [by apply dict_update_well_formed|].
  split; [apply dict_keys_update|]. split; [|split].
  - intros k v Hk. by rewrite dict_get_update, Hk.
  - intros k Hk. by rewrite dict_get_update, Hk.
  - done.
Qed.

Lemma json_append_right_biased_union_witness :
  ∃ d, JsonAppend.combine (JDict Examples.object_1) (JDict Examples.object_2) = Ok (JDict d)
       ∧ PyDict.get d "b" = Some (JInt 3)
       ∧ PyDict.get d "a" = Some (JInt 1).
Proof.
  assert (Hwf1 : PyDict.well_formed Examples.object_1).
  { unfold PyDict.well_formed. simpl. apply (bool_decide_unpack _). vm_compute. exact I. }
  assert (Hwf2 : PyDict.well_formed Examples.object_2).
  { unfold PyDict.well_formed. simpl. apply (bool_decide_unpack _). vm_compute. exact I. }
  destruct (json_append_right_biased_union _ _ Hwf1 Hwf2)
    as (d & Hd & _ & _ & Hsecond & Hfirst & _).
  exists d. split; [exact Hd|]. split.
  - apply Hsecond. vm_compute. reflexivity.
  - rewrite Hfirst; vm_compute; reflexivity.
Defined.

(** ** json_string_to_file.py *)

Lemma append_cons (c : ascii) (a b : string) : String c a +:+ b = String c (a +:+ b).
Proof. reflexivity. Qed.

Lemma append_nil_l (b : string) : EmptyString +:+ b = b.
Proof. reflexivity. Qed.

Lemma append_assoc (a b c : string) : (a +:+ b) +:+ c = a +:+ (b +:+ c).
Proof. induction a as [|x a IH]; [done|]. by rewrite !append_cons, IH. Qed.

Lemma append_nil_r (a : string) : a +:+ EmptyString = a.
Proof. induction a as [|x a IH]; [done|]. by rewrite append_cons, IH. Qed.












(** ** Loops *)

Lemma while_upto_zero {T} (first last : Z) (body : Z → T → result T) (t : T) :
  while_upto 0 first last body t = Diverge.
Proof. reflexivity. Qed.

Lemma while_upto_succ {T} (fuel : nat) (first last : Z)
    (body : Z → T → result T) (t : T) :
  while_upto (Datatypes.S fuel) first last body t
  = if first <=? last then
      t' ← body first t;
      r ← while_upto fuel (first + 1) last body t';
      Ok (r.1, Datatypes.S r.2)
    else Ok (t, 0%nat).
Proof.
  unfold while_upto. cbn [while_loop fst snd].
  destruct (first <=? last); [|done].
  destruct (body first t) as [t'| |]; cbn [mbind result_bind]; [|done|done].
  by destruct (while_loop fuel _ _ (first + 1, t')) as [[[c t''] k]| |].
Qed.

(** A counting loop that returns made exactly [last + 1 - first] passes (none
    when that is negative), and its result is that of the unrolled loop. *)
Lemma while_upto_Ok {T} (fuel : nat) (first last : Z)
    (body : Z → T → result T) (t t' : T) (k : nat) :
  while_upto fuel first last body t = Ok (t', k) →
  k = Z.to_nat (last + 1 - first) ∧ for_range k first body t = Ok t'.
Proof.
  revert first t t' k. induction fuel as [|fuel IH]; intros first t t' k; [done|].
  rewrite while_upto_succ. destruct (Z.leb_spec first last) as [Hle|Hgt].
  - destruct (body first t) as [t1| |] eqn:Hbody; cbn [mbind result_bind]; [|done|done].
    destruct (while_upto fuel (first + 1) last body t1) as [[t2 k2]| |] eqn:Hrest;
      cbn [mbind result_bind fst snd]; [|done|done].
    intros [= <- <-]. apply IH in Hrest as [-> Hrest]. split; [lia|].
    cbn [for_range]. rewrite Hbody. exact Hrest.
  - intros [= <- <-]. split; [lia|done].
Qed.

(** With more fuel than passes, a counting loop is its unrolled form. *)
Lemma while_upto_for_range {T} (fuel : nat) (first last : Z)
    (body : Z → T → result T) (t : T) :
  (Z.to_nat (last + 1 - first) < fuel)%nat →
  while_upto fuel first last body t
  = (t' ← for_range (Z.to_nat (last + 1 - first)) first body t;
     Ok (t', Z.to_nat (last + 1 - first))).
Proof.
  revert first t. induction fuel as [|fuel IH]; intros first t Hfuel; [lia|].
  rewrite while_upto_succ. destruct (Z.leb_spec first last) as [Hle|Hgt].
  - replace (Z.to_nat (last + 1 - first))
      with (Datatypes.S (Z.to_nat (last + 1 - (first + 1)))) by lia.
    cbn [for_range].
    destruct (body first t) as [t1| |]; cbn [mbind result_bind]; [|done|done].
    rewrite IH by lia.
    by destruct (for_range _ (first + 1) body t1).
  - by replace (Z.to_nat (last + 1 - first)) with 0%nat by lia.
Qed.

(** A property of the counter and the state that every pass keeps, and
    under which every pass returns, holds after the unrolled loop, which
    returns. *)
Lemma for_range_invariant {T} (P : Z → T → Prop) (n : nat) (first : Z)
    (body : Z → T → result T) (t : T) :
  P first t →
  (∀ i t, first <= i < first + Z.of_nat n → P i t →
          ∃ t', body i t = Ok t' ∧ P (i + 1) t') →
  ∃ t', for_range n first body t = Ok t' ∧ P (first + Z.of_nat n) t'.
Proof.
  revert first t. induction n as [|n IH]; intros first t Ht Hbody; cbn [for_range].
  - exists t. split; [done|]. by replace (first + Z.of_nat 0) with first by lia.
  - destruct (Hbody first t) as (t1 & Ht1 & HP1); [lia|done|].
    rewrite Ht1. cbn [mbind result_bind].
    replace (first + Z.of_nat (Datatypes.S n)) with (first + 1 + Z.of_nat n) by lia.
    apply IH; [done|].
    intros i t2 Hi. apply Hbody. lia.
Qed.

(** The same for a property kept by the passes that return. *)
Lemma for_range_preserves {T} (P : Z → T → Prop) (n : nat) (first : Z)
    (body : Z → T → result T) (t t' : T) :
  P first t →
  (∀ i t t', first <= i < first + Z.of_nat n → P i t → body i t = Ok t' → P (i + 1) t') →
  for_range n first body t = Ok t' → P (first + Z.of_nat n) t'.
Proof.
  revert first t. induction n as [|n IH]; intros first t Ht Hbody; cbn [for_range].
  - intros [= <-]. by replace (first + Z.of_nat 0) with first by lia.
  - destruct (body first t) as [t1| |] eqn:Ht1; cbn [mbind result_bind]; [|done|done].
    replace (first + Z.of_nat (Datatypes.S n)) with (first + 1 + Z.of_nat n) by lia.
    apply IH.
    + eapply Hbody; [|exact Ht|exact Ht1]. lia.
    + intros i t2 t3 Hi. apply Hbody. lia.
Qed.

(** An unrolled loop whose passes never run out of fuel does not either. *)
Lemma for_range_not_Diverge {T} (n : nat) (first : Z)
    (body : Z → T → result T) (t : T) :
  (∀ i t, first <= i < first + Z.of_nat n → body i t ≠ Diverge) →
  for_range n first body t ≠ Diverge.
Proof.
  revert first t. induction n as [|n IH]; intros first t Hbody; cbn [for_range]; [done|].
  destruct (body first t) as [t1| |] eqn:Ht1; cbn [mbind result_bind]; [|done|].
  - apply IH. intros i t2 Hi. apply Hbody. lia.
  - intros _. by apply (Hbody first t); [lia|].
Qed.

(** Bodies that agree on the counters of the loop give the same loop. *)
Lemma for_range_ext {T} (n : nat) (first : Z) (body body' : Z → T → result T) (t : T) :
  (∀ i t, first <= i < first + Z.of_nat n → body i t = body' i t) →
  for_range n first body t = for_range n first body' t.
Proof.
  revert first t. induction n as [|n IH]; intros first t Hext; cbn [for_range]; [done|].
  rewrite Hext by lia.
  destruct (body' first t) as [t1| |]; cbn [mbind result_bind]; [|done|done].
  apply IH. intros i t2 Hi. apply Hext. lia.
Qed.

Lemma while_upto_ext {T} (fuel : nat) (first last : Z)
    (body body' : Z → T → result T) (t : T) :
  (∀ i t, first <= i <= last → body i t = body' i t) →
  while_upto fuel first last body t = while_upto fuel first last body' t.
Proof.
  revert first t. induction fuel as [|fuel IH]; intros first t Hext; [done|].
  rewrite !while_upto_succ. destruct (Z.leb_spec first last) as [Hle|Hgt]; [|done].
  rewrite Hext by lia.
  destruct (body' first t) as [t1| |]; cbn [mbind result_bind]; [|done|done].
  rewrite IH; [done|]. intros i t2 Hi. apply Hext. lia.
Qed.

(** ** tokamak_gen/tf_step_v3.py *)

(** Read a successful run backwards through its binds. *)
Ltac bind_inv H :=
  repeat (cbv zeta in H;
          match type of H with
          | (_ ≫= _) = Ok _ =>
              let a := fresh "a" in
              let Ha := fresh "Ha" in
              apply bind_Ok in H as (a & Ha & H); cbv beta in H
          end).

Section TfStepProperties.

Context `{Float F}.

Lemma add_coils_loop (fuel : nat) (p7 : TfStep.workplane)
    (ad : list TfStep.child * list string * nat) :
  while_upto fuel 1 12 (TfStep.add_body 12 p7) ([], ["ADDING TF COILS"]) = Ok ad →
  ad.1.1 = map (TfStep.tf_coil 12 p7) [1; 2; 3; 4; 5; 6; 7; 8; 9; 10; 11; 12]
  ∧ ad.2 = 12%nat.
Proof.
  destruct ad as [st k]. intros Hloop.
  apply while_upto_Ok in Hloop as [-> Hloop].
  change (Z.to_nat (12 + 1 - 1)) with 12%nat in *.
  cbn [for_range TfStep.add_body mbind result_bind fst snd app Z.add Pos.add
       Pos.succ] in Hloop.
  injection Hloop as <-. done.
Qed.

Lemma write_coils_loop (fuel : nat) (tot_point : Z) (angle_int : F)
    (xcentre ycentre zcentre : list F) (cl : list string * list nat * nat) :
  while_upto fuel 1 12
    (TfStep.coil_body fuel tot_point angle_int xcentre ycentre zcentre) ([], []) = Ok cl →
  cl.2 = 12%nat ∧ cl.1.2 = replicate 12 (Z.to_nat (tot_point + 1)).
Proof.
  destruct cl as [st k]. intros Hloop.
  apply while_upto_Ok in Hloop as [-> Hloop].
  change (Z.to_nat (12 + 1 - 1)) with 12%nat in *. split; [done|].
  apply (for_range_preserves
           (fun i (st : list string * list nat) =>
              st.2 = replicate (Z.to_nat (i - 1)) (Z.to_nat (tot_point + 1))))
    in Hloop; [exact Hloop|done|].
  intros i t t' Hi Ht. unfold TfStep.coil_body. intros Hbody. bind_inv Hbody.
  injection Hbody as <-. destruct a as [lines n].
  apply while_upto_Ok in Ha as [-> _]. cbn [fst snd]. rewrite Ht.
  replace (Z.to_nat (i + 1 - 1)) with (Datatypes.S (Z.to_nat (i - 1))) by lia.
  replace (tot_point + 1 - 0) with (tot_point + 1) by lia.
  by rewrite replicate_S_end.
Qed.

Lemma convert_points_loop (fuel : nat) (tot_point : Z) (xs ys : list string)
    (st : list F * list F) (cv : list F * list F * nat) :
  while_upto fuel 0 tot_point (TfStep.convert_body tot_point xs ys) st = Ok cv →
  cv.2 = Z.to_nat (tot_point + 1).
Proof.
  destruct cv as [st' k]. intros Hloop.
  apply while_upto_Ok in Hloop as [-> _]. cbn [snd]. f_equal. lia.
Qed.

(** What a returning call of [tf_step] leaves: twelve coils, and the pass
    counts of its loops. *)
Lemma tf_step_returns (fuel : nat) (r : F) (file : list csv_row) (zt rt : F)
    (out : TfStep.outcome) :
  TfStep.tf_step fuel r file zt rt = Ok out →
  (∃ points_out points_tot,
     TfStep.assy out
     = map (TfStep.tf_coil 12 (TfStep.coil_profile points_out points_tot zt))
           [1; 2; 3; 4; 5; 6; 7; 8; 9; 10; 11; 12])
  ∧ TfStep.loops out
    = {| TfStep.convert_points := Datatypes.S (length file);
         TfStep.write_coils := 12;
         TfStep.write_points := replicate 12 (Datatypes.S (length file));
         TfStep.add_coils := 12 |}.
Proof.
  unfold TfStep.tf_step. intros Hout. bind_inv Hout.
  injection Hout as <-. cbn [TfStep.assy TfStep.loops].
  apply add_coils_loop in Ha7 as [Hassy Hadd].
  apply write_coils_loop in Ha6 as [Hcoils Hpoints].
  apply convert_points_loop in Ha0.
  split.
  - eexists _, _. exact Hassy.
  - rewrite Ha0, Hcoils, Hpoints, Hadd.
    by replace (Z.to_nat (Z.of_nat (length file) + 1)) with (Datatypes.S (length file)) by lia.
Qed.

End TfStepProperties.

(** ** Code without loops does not run out of fuel *)

Lemma bind_not_Diverge {A B} (m : result A) (f : A → result B) :
  m ≠ Diverge → (∀ a, m = Ok a → f a ≠ Diverge) → (m ≫= f) ≠ Diverge.
Proof. destruct m as [a| |]; cbn [mbind result_bind]; [|done|done]. intros _ Hf. by apply Hf. Qed.

Lemma getitem_not_Diverge {A} (l : list A) (i : nat) : getitem l i ≠ Diverge.
Proof. unfold getitem. by destruct (l !! i). Qed.

Lemma setitem_not_Diverge {A} (l : list A) (i : nat) (v : A) : setitem l i v ≠ Diverge.
Proof. unfold setitem. by case_decide. Qed.

Lemma py_float_not_Diverge `{Float F} (s : string) : py_float s ≠ Diverge.
Proof. unfold py_float. by destruct (float_of_string s). Qed.

Lemma csv_get_not_Diverge (col : csv_row) (column : string) : csv_get col column ≠ Diverge.
Proof. unfold csv_get. by destruct (PyDict.get col column). Qed.

Lemma array_max_not_Diverge `{Float F} (a : list F) : array_max a ≠ Diverge.
Proof. by destruct a. Qed.

Lemma array_min_not_Diverge `{Float F} (a : list F) : array_min a ≠ Diverge.
Proof. by destruct a. Qed.

Lemma axis_index_not_Diverge (len : nat) (i : Z) : axis_index len i ≠ Diverge.
Proof.
  unfold axis_index. destruct ((0 <=? i) && (i <? Z.of_nat len)); [done|].
  by destruct ((- Z.of_nat len <=? i) && (i <? 0)).
Qed.

Create HintDb no_diverge.

#[export] Hint Resolve getitem_not_Diverge setitem_not_Diverge py_float_not_Diverge
  csv_get_not_Diverge array_max_not_Diverge array_min_not_Diverge
  axis_index_not_Diverge : no_diverge.

(** Straight-line code: peel the binds, close the calls with the hints. *)
Ltac no_diverge :=
  repeat first
    [ apply bind_not_Diverge; [|intros ? ?]
    | progress auto with no_diverge
    | match goal with
      | |- (if ?b then _ else _) ≠ Diverge => destruct b
      | |- Ok _ ≠ Diverge => discriminate
      | |- Raise _ ≠ Diverge => discriminate
      end ].

Lemma seq_get_not_Diverge {A} (l : list A) (i : Z) : seq_get l i ≠ Diverge.
Proof. unfold seq_get. no_diverge. Qed.

Lemma seq_set_not_Diverge {A} (l : list A) (i : Z) (v : A) : seq_set l i v ≠ Diverge.
Proof. unfold seq_set. no_diverge. Qed.

#[export] Hint Resolve seq_get_not_Diverge seq_set_not_Diverge : no_diverge.

Lemma get3_not_Diverge {A} (arr : list (list (list A))) (i j k : Z) :
  get3 arr i j k ≠ Diverge.
Proof. unfold get3. no_diverge. Qed.

Lemma set3_not_Diverge {A} (arr : list (list (list A))) (i j k : Z) (v : A) :
  set3 arr i j k v ≠ Diverge.
Proof. unfold set3. no_diverge. Qed.

#[export] Hint Resolve get3_not_Diverge set3_not_Diverge : no_diverge.

(** A counting loop with more fuel than passes, whose passes do not run out
    of fuel, does not either. *)
Lemma while_upto_not_Diverge {T} (fuel : nat) (first last : Z)
    (body : Z → T → result T) (t : T) :
  (Z.to_nat (last + 1 - first) < fuel)%nat →
  (∀ i t, first <= i <= last → body i t ≠ Diverge) →
  while_upto fuel first last body t ≠ Diverge.
Proof.
  intros Hfuel Hbody. rewrite while_upto_for_range by done.
  apply bind_not_Diverge; [|done].
  apply for_range_not_Diverge. intros i t' Hi. apply Hbody. lia.
Qed.

Section TfStepTermination.

Context `{Float F}.

Lemma tf_read_columns_not_Diverge (file : list csv_row) :
  TfStep.read_columns file ≠ Diverge.
Proof. induction file as [|col file IH]; cbn [TfStep.read_columns]; no_diverge. Qed.

Lemma convert_body_not_Diverge (tot_point : Z) (xs ys : list string) (count : Z)
    (st : list F * list F) :
  TfStep.convert_body tot_point xs ys count st ≠ Diverge.
Proof. unfold TfStep.convert_body. no_diverge. Qed.

Lemma point_body_not_Diverge (x1 y1 z1 : list F) (count : Z) (lines : list string) :
  TfStep.point_body x1 y1 z1 count lines ≠ Diverge.
Proof. unfold TfStep.point_body. no_diverge. Qed.

Lemma coil_body_not_Diverge (fuel : nat) (tot_point : Z) (angle_int : F)
    (xc yc zc : list F) (coil_count : Z) (st : list string * list nat) :
  (Z.to_nat (tot_point + 1) < fuel)%nat →
  TfStep.coil_body fuel tot_point angle_int xc yc zc coil_count st ≠ Diverge.
Proof.
  intros Hfuel. unfold TfStep.coil_body. cbv zeta.
  apply bind_not_Diverge; [|done].
  apply while_upto_not_Diverge; [by replace (tot_point + 1 - 0) with (tot_point + 1) by lia|].
  intros i t _. apply point_body_not_Diverge.
Qed.

(** With more fuel than the longest loop has passes, [tf_step] ends: it
    returns or raises. *)
Lemma tf_step_not_Diverge (fuel : nat) (r : F) (file : list csv_row) (zt rt : F) :
  (Datatypes.S (length file) < fuel)%nat → (12 < fuel)%nat →
  TfStep.tf_step fuel r file zt rt ≠ Diverge.
Proof.
  intros Hpoints Hcoils. unfold TfStep.tf_step. cbv zeta.
  apply bind_not_Diverge; [apply tf_read_columns_not_Diverge|intros cols _].
  apply bind_not_Diverge; [|intros cv _].
  { apply while_upto_not_Diverge; [lia|]. intros i t _. apply convert_body_not_Diverge. }
  do 5 (apply bind_not_Diverge; [no_diverge|intros ? _]).
  apply bind_not_Diverge; [|intros cl _].
  { apply while_upto_not_Diverge; [simpl; lia|].
    intros i t _. apply coil_body_not_Diverge. lia. }
  apply bind_not_Diverge; [|done].
  apply while_upto_not_Diverge; [simpl; lia|]. done.
Qed.

End TfStepTermination.

(** ** Calls that return *)

Lemma bind_Ok_intro {A B} (m : result A) (f : A → result B) (a : A) (b : B) :
  m = Ok a → f a = Ok b → (m ≫= f) = Ok b.
Proof. by intros -> <-. Qed.

Lemma getitem_Ok {A} (l : list A) (i : nat) (a : A) : l !! i = Some a → getitem l i = Ok a.
Proof. unfold getitem. by intros ->. Qed.

Lemma setitem_Ok {A} (l : list A) (i : nat) (v : A) :
  (i < length l)%nat → setitem l i v = Ok (<[i := v]> l).
Proof. unfold setitem. intros Hi. by rewrite decide_True. Qed.

Section TfStepReturns.

Context `{Float F}.

Lemma py_float_Ok (s : string) (x : F) : float_of_string s = Some x → py_float s = Ok x.
Proof. unfold py_float. by intros ->. Qed.

Lemma tf_read_columns_Ok (file : list csv_row) :
  TfStep.well_formed_vessel file →
  ∃ xs ys, TfStep.read_columns file = Ok (xs, ys)
           ∧ length xs = length file ∧ length ys = length file
           ∧ Forall (fun s => is_Some (float_of_string s)) xs
           ∧ Forall (fun s => is_Some (float_of_string s)) ys.
Proof.
  induction 1 as [|col file [(cx & x & Hcx & Hx) (cy & y & Hcy & Hy)] _ IH];
    cbn [TfStep.read_columns].
  - exists [], []. repeat split; constructor.
  - destruct IH as (xs & ys & -> & Hlx & Hly & Hfx & Hfy).
    unfold csv_get. rewrite Hcx, Hcy. cbn [mbind result_bind fst snd].
    exists (cx :: xs), (cy :: ys). simpl. rewrite Hlx, Hly.
    repeat split; constructor; eauto.
Qed.

Lemma convert_loop_Ok (xs ys : list string) (n : nat) :
  length xs = n → length ys = n →
  Forall (fun s => is_Some (float_of_string s)) xs →
  Forall (fun s => is_Some (float_of_string s)) ys →
  ∃ st, for_range (Datatypes.S n) 0
          (TfStep.convert_body (Z.of_nat n) xs ys)
          (np_zeros (Datatypes.S n), np_zeros (Datatypes.S n)) = Ok st
        ∧ length st.1 = Datatypes.S n ∧ length st.2 = Datatypes.S n.
Proof.
  intros Hlx Hly Hfx Hfy.
  destruct (for_range_invariant
              (fun _ (st : list F * list F) =>
                 length st.1 = Datatypes.S n ∧ length st.2 = Datatypes.S n)
              (Datatypes.S n) 0 (TfStep.convert_body (Z.of_nat n) xs ys)
              (np_zeros (Datatypes.S n), np_zeros (Datatypes.S n)))
    as (st & Hst & Hlen).
  - unfold np_zeros. cbn [fst snd]. by rewrite !length_replicate.
  - intros i [xo yo] Hi [Hxo Hyo]. cbn [fst snd] in *.
    unfold TfStep.convert_body. cbn [fst snd].
    destruct (Z.leb_spec i (Z.of_nat n - 1)) as [Hle|Hgt].
    + destruct (lookup_lt_is_Some_2 xs (Z.to_nat i)) as [cx Hcx]; [lia|].
      destruct (lookup_lt_is_Some_2 ys (Z.to_nat i)) as [cy Hcy]; [lia|].
      destruct (Forall_lookup_1 _ _ _ _ Hfx Hcx) as [x Hx].
      destruct (Forall_lookup_1 _ _ _ _ Hfy Hcy) as [y Hy].
      rewrite (getitem_Ok _ _ _ Hcx). cbn [mbind result_bind].
      rewrite (py_float_Ok _ _ Hx). cbn [mbind result_bind].
      rewrite setitem_Ok by lia. cbn [mbind result_bind].
      rewrite (getitem_Ok _ _ _ Hcy). cbn [mbind result_bind].
      rewrite (py_float_Ok _ _ Hy). cbn [mbind result_bind].
      rewrite setitem_Ok by lia. cbn [mbind result_bind].
      eexists. split; [done|]. cbn [fst snd]. by rewrite !length_insert.
    + destruct (lookup_lt_is_Some_2 xo 0) as [x0 Hx0]; [lia|].
      destruct (lookup_lt_is_Some_2 yo 0) as [y0 Hy0]; [lia|].
      rewrite (getitem_Ok _ _ _ Hx0). cbn [mbind result_bind].
      rewrite setitem_Ok by lia. cbn [mbind result_bind].
      rewrite (getitem_Ok _ _ _ Hy0). cbn [mbind result_bind].
      rewrite setitem_Ok by lia. cbn [mbind result_bind].
      eexists. split; [done|]. cbn [fst snd]. by rewrite !length_insert.
  - exists st. done.
Qed.

Lemma point_loop_Ok (x1 y1 z1 : list F) (n : nat) (lines : list string) :
  length x1 = n → length y1 = n → length z1 = n →
  ∃ lines', for_range n 0 (TfStep.point_body x1 y1 z1) lines = Ok lines'.
Proof.
  intros Hx Hy Hz.
  destruct (for_range_invariant (fun _ (_ : list string) => True) n 0
              (TfStep.point_body x1 y1 z1) lines) as (lines' & Hl & _); [done| |eauto].
  intros i t Hi _. unfold TfStep.point_body.
  destruct (lookup_lt_is_Some_2 x1 (Z.to_nat i)) as [x Hx1]; [lia|].
  destruct (lookup_lt_is_Some_2 y1 (Z.to_nat i)) as [y Hy1]; [lia|].
  destruct (lookup_lt_is_Some_2 z1 (Z.to_nat i)) as [z Hz1]; [lia|].
  rewrite (getitem_Ok _ _ _ Hx1). cbn [mbind result_bind].
  rewrite (getitem_Ok _ _ _ Hy1). cbn [mbind result_bind].
  rewrite (getitem_Ok _ _ _ Hz1). cbn [mbind result_bind]. eauto.
Qed.

Lemma coil_loop_Ok (fuel : nat) (n : nat) (angle_int : F) (xc yc zc : list F)
    (st : list string * list nat) :
  length xc = Datatypes.S n → length yc = Datatypes.S n → length zc = Datatypes.S n →
  (Datatypes.S n < fuel)%nat → (12 < fuel)%nat →
  ∃ cl, while_upto fuel 1 12
          (TfStep.coil_body fuel (Z.of_nat n) angle_int xc yc zc) st = Ok cl.
Proof.
  intros Hx Hy Hz Hfuel Hfuel'.
  rewrite while_upto_for_range by (simpl; lia).
  destruct (for_range_invariant (fun _ (_ : list string * list nat) => True)
              (Z.to_nat (12 + 1 - 1)) 1
              (TfStep.coil_body fuel (Z.of_nat n) angle_int xc yc zc) st)
    as (cl & Hcl & _); [done| |rewrite Hcl; cbn [mbind result_bind]; eauto].
  intros i t _ _. unfold TfStep.coil_body. cbv zeta.
  rewrite while_upto_for_range by lia.
  replace (Z.to_nat (Z.of_nat n + 1 - 0)) with (Datatypes.S n) by lia.
  edestruct (point_loop_Ok) as [lines' Hlines'];
    [| | |rewrite Hlines'; cbn [mbind result_bind]; eauto].
  - by rewrite length_zip_with, !length_map, Hx, Hz, Nat.min_id.
  - done.
  - by rewrite length_zip_with, !length_map, Hx, Hz, Nat.min_id.
Qed.

Lemma add_loop_Ok (fuel : nat) (p7 : TfStep.workplane) (st : list TfStep.child * list string) :
  (12 < fuel)%nat →
  ∃ ad, while_upto fuel 1 12 (TfStep.add_body 12 p7) st = Ok ad.
Proof.
  intros Hfuel. rewrite while_upto_for_range by (simpl; lia).
  change (Z.to_nat (12 + 1 - 1)) with 12%nat.
  cbn [for_range TfStep.add_body mbind result_bind]. eauto.
Qed.

Lemma tf_step_Ok (fuel : nat) (r : F) (file : list csv_row) (zt rt : F) :
  TfStep.well_formed_vessel file → fis_zero r = false →
  (Datatypes.S (length file) < fuel)%nat → (12 < fuel)%nat →
  ∃ out, TfStep.tf_step fuel r file zt rt = Ok out.
Proof.
  intros Hfile Hr Hpoints Hcoils.
  destruct (tf_read_columns_Ok file Hfile) as (xs & ys & Hread & Hlx & Hly & Hfx & Hfy).
  destruct (convert_loop_Ok xs ys (length file) Hlx Hly Hfx Hfy)
    as ([xorig yorig] & Hcv & Hxo & Hyo). cbn [fst snd] in Hxo, Hyo.
  unfold TfStep.tf_step. cbv zeta. rewrite Hread. cbn [mbind result_bind fst snd].
  rewrite while_upto_for_range by lia.
  replace (Z.to_nat (Z.of_nat (length file) + 1 - 0)) with (Datatypes.S (length file)) by lia.
  replace (Z.to_nat (Z.of_nat (length file) + 1)) with (Datatypes.S (length file)) by lia.
  rewrite Hcv. cbn [mbind result_bind fst snd].
  destruct xorig as [|x0 xorig]; [done|]. destruct yorig as [|y0 yorig]; [done|].
  cbn [array_max array_min mbind result_bind]. rewrite Hr. cbn [mbind result_bind].
  edestruct (coil_loop_Ok fuel (length file)) as [cl Hcl];
    [| | |exact Hpoints|exact Hcoils|rewrite Hcl].
  - by rewrite !length_map.
  - by rewrite !length_map.
  - unfold np_zeros. by rewrite length_replicate.
  - cbn [mbind result_bind].
    edestruct (add_loop_Ok fuel) as [ad Had]; [exact Hcoils|rewrite Had].
    cbn [mbind result_bind]. eauto.
Qed.



(** X1.  Every loop of [tf_step] is bounded.  With more fuel than the vessel
    file has rows plus one, and more than twelve, a call never runs out of
    fuel; on a well-formed vessel file and a radius that is not zero it
    returns; and in every call that returns, the two loops over the points
    made exactly [tot_point + 1] passes (the second one for each of the twelve
    coils) and the two loops over the coils exactly twelve. *)
Theorem tf_step_terminates (fuel : nat) (r : F) (file : list csv_row)
    (z_thickness r_thickness : F) :
  (Datatypes.S (length file) < fuel)%nat → (12 < fuel)%nat →
  TfStep.tf_step fuel r file z_thickness r_thickness ≠ Diverge
  ∧ (TfStep.well_formed_vessel file → fis_zero r = false →
     ∃ out, TfStep.tf_step fuel r file z_thickness r_thickness = Ok out)
  ∧ ∀ out, TfStep.tf_step fuel r file z_thickness r_thickness = Ok out →
           TfStep.loops out
           = {| TfStep.convert_points := Datatypes.S (length file);
                TfStep.write_coils := 12;
                TfStep.write_points := replicate 12 (Datatypes.S (length file));
                TfStep.add_coils := 12 |}.
Proof.
  intros Hpoints Hcoils. split; [by apply tf_step_not_Diverge|]. split.
  - intros Hfile Hr. by apply tf_step_Ok.
  - intros out Hout. by apply tf_step_returns in Hout as [_ Hloops].
Qed.

End TfStepReturns.

#[local] Existing Instance QFloat.Q_Float.


Lemma tf_step_terminates_witness :
  ∃ out, TfStep.tf_step 20 (1 # 2)%Q Examples.vessel_rows (1 # 10)%Q (1 # 10)%Q = Ok out.
Proof.
  destruct (tf_step_terminates 20 (1 # 2)%Q Examples.vessel_rows (1 # 10)%Q (1 # 10)%Q)
    as (_ & Hreturns & _).
  - vm_compute. lia.
  - lia.
  - apply Hreturns.
    + repeat constructor; eexists _, _; (split; [reflexivity|vm_compute; reflexivity]).
    + vm_compute. reflexivity.
Defined.

(** ** download_nucleus/download.py *)

Lemma download_loop_body_continues (url : string) (st : DownloadNucleus.loop_state) :
  PyStr.contains "."%char (default EmptyString (last (PyStr.split "/"%char url))) = false →
  ∃ st', DownloadNucleus.loop_body url st = Ok st' ∧ DownloadNucleus.looping st' = true.
Proof. intros Hdot. unfold DownloadNucleus.loop_body. rewrite Hdot. simpl. eauto. Qed.

Lemma download_loop_never_breaks (fuel : nat) (url : string)
    (st : DownloadNucleus.loop_state) :
  PyStr.contains "."%char (default EmptyString (last (PyStr.split "/"%char url))) = false →
  DownloadNucleus.looping st = true →
  while_loop fuel DownloadNucleus.looping (DownloadNucleus.loop_body url) st = Diverge.
Proof.
  intros Hdot. revert st. induction fuel as [|fuel IH]; intros st Hloop; [done|].
  cbn [while_loop]. rewrite Hloop.
  destruct (download_loop_body_continues url st Hdot) as (st' & -> & Hloop').
  cbn [mbind result_bind]. by rewrite IH.
Qed.

(** C7, where the code departs from it.  Once the two Authelia requests
    are answered, a run of download.py on a URL whose last segment holds no
    dot never leaves its [while True] loop: whatever the fuel, the run does
    not end. *)
Theorem download_never_ends (fuel : nat) (net : DownloadNucleus.services)
    (a : DownloadNucleus.args) (r1 r2 : DownloadNucleus.response) (j1 j2 : json) :
  DownloadNucleus.post_firstfactor net "authelia_galaxy_bind" "r4l/@p8f42mu57M@" = Ok r1 →
  DownloadNucleus.json_body r1 = Ok j1 →
  DownloadNucleus.get_user_info net (DownloadNucleus.cookies r1) = Ok r2 →
  DownloadNucleus.json_body r2 = Ok j2 →
  PyStr.contains "."%char
    (default EmptyString (last (PyStr.split "/"%char (DownloadNucleus.url a)))) = false →
  DownloadNucleus.main fuel net a = Diverge.
Proof.
  intros Hr1 Hj1 Hr2 Hj2 Hdot. unfold DownloadNucleus.main.
  rewrite Hr1. cbn [mbind result_bind]. rewrite Hj1. cbn [mbind result_bind].
  rewrite Hr2. cbn [mbind result_bind]. rewrite Hj2. cbn [mbind result_bind].
  by rewrite download_loop_never_breaks.
Qed.

Lemma download_never_ends_witness :
  DownloadNucleus.main 1000 Examples.nucleus Examples.plain_name_args = Diverge.
Proof.
  apply (download_never_ends 1000 Examples.nucleus Examples.plain_name_args
           Examples.answer Examples.answer
           (JDict [("status", JStr "OK")]) (JDict [("status", JStr "OK")]));
    reflexivity.
Defined.

(** On a URL whose last segment holds a dot the same run ends after one
    pass of the loop. *)
Lemma download_file_url_ends :
  DownloadNucleus.main 2 Examples.nucleus Examples.file_args = Ok ("out.bin", "bytes").
Proof. vm_compute. reflexivity. Qed.

(** ** stellarator_plasma_cad/radial_from_vmec.py *)

Lemma while_upto_preserves {T} (P : T → Prop) (fuel : nat) (first last : Z)
    (body : Z → T → result T) (t : T) (r : T * nat) :
  P t →
  (∀ i t t', first <= i <= last → P t → body i t = Ok t' → P t') →
  while_upto fuel first last body t = Ok r → P r.1.
Proof.
  destruct r as [t' k]. intros Ht Hbody Hloop.
  apply while_upto_Ok in Hloop as [-> Hloop].
  apply (for_range_preserves (fun _ => P)) in Hloop; [done|done|].
  intros i t1 t2 Hi. apply Hbody. lia.
Qed.

Lemma seq_get_head {A} (x : A) (l : list A) : seq_get (x :: l) 0 = Ok x.
Proof.
  unfold seq_get, axis_index. cbn [length].
  replace ((0 <=? 0) && (0 <? Z.of_nat (Datatypes.S (length l)))) with true
    by (symmetry; apply andb_true_iff; split; [done|apply Z.ltb_lt; lia]).
  done.
Qed.

Section RadialFromVmecProperties.

Context `{Float F}.

Import RadialFromVmec.

Lemma written_files_app (cs cs' : list (gmsh_call (F := F))) :
  written_files (cs ++ cs') = written_files cs ++ written_files cs'.
Proof. unfold written_files. apply omap_app. Qed.

Lemma add_points_no_write (fuel : nat) (loop_num_tot loop_jump : Z)
    (Coords : array3) (calls calls' : list (gmsh_call (F := F))) :
  add_points fuel loop_num_tot loop_jump Coords calls = Ok calls' →
  written_files calls' = written_files calls.
Proof.
  unfold add_points. intros Hrun. bind_inv Hrun. injection Hrun as <-.
  apply (while_upto_preserves (fun cs => written_files cs = written_files calls))
    in Ha; [done|done|].
  intros loop_num cs cs' _ Hcs Hbody. bind_inv Hbody. injection Hbody as <-.
  apply (while_upto_preserves (fun cs => written_files cs = written_files calls))
    in Ha0; [done|done|].
  intros count cs1 cs2 _ Hcs1 Hpoint. bind_inv Hpoint. injection Hpoint as <-.
  by rewrite written_files_app, Hcs1, app_nil_r.
Qed.

Lemma add_lines_no_write (fuel : nat) (loop_num_tot loop_jump line_shift : Z)
    (calls calls' : list (gmsh_call (F := F))) :
  add_lines fuel loop_num_tot loop_jump line_shift calls = Ok calls' →
  written_files calls' = written_files calls.
Proof.
  unfold add_lines. intros Hrun. bind_inv Hrun. injection Hrun as <-.
  apply (while_upto_preserves (fun cs => written_files cs = written_files calls))
    in Ha; [done|done|].
  intros loop_num cs cs' _ Hcs Hbody. bind_inv Hbody. injection Hbody as <-.
  apply (while_upto_preserves (fun cs => written_files cs = written_files calls))
    in Ha0; [done|done|].
  intros count cs1 cs2 _ Hcs1 [= <-].
  rewrite written_files_app, Hcs1.
  destruct (count =? _), (loop_num =? _); by rewrite app_nil_r.
Qed.

Lemma add_surfaces_no_write (fuel : nat)
    (loop_num_tot loop_jump line_shift final_point layer_count : Z)
    (calls : list (gmsh_call (F := F))) (sf : list Z * list (gmsh_call (F := F))) :
  add_surfaces fuel loop_num_tot loop_jump line_shift final_point layer_count calls = Ok sf →
  written_files sf.2 = written_files calls.
Proof.
  unfold add_surfaces. intros Hrun. bind_inv Hrun. injection Hrun as <-.
  apply (while_upto_preserves
           (fun st : list Z * list (gmsh_call (F := F)) => written_files st.2 = written_files calls))
    in Ha; [done|done|].
  intros loop_num st st' _ Hst Hbody. bind_inv Hbody. injection Hbody as <-.
  apply (while_upto_preserves
           (fun st : list Z * list (gmsh_call (F := F)) => written_files st.2 = written_files calls))
    in Ha0; [done|done|].
  intros count st1 st2 _ Hst1 Hsurf. cbv zeta in Hsurf.
  destruct (count =? final_point); injection Hsurf as <-; cbn [snd];
    rewrite !written_files_app, Hst1; by rewrite app_nil_r.
Qed.

(** One pass of the layer loop writes one file, named after the layer. *)
Lemma layer_body_writes (fuel : nat) (Nphi Ntheta : Z) (thickness_list : list F)
    (Coords_orig : array3) (layer_count : Z) (st st' : layer_state) :
  layer_body fuel Nphi Ntheta thickness_list Coords_orig layer_count st = Ok st' →
  written_files (calls st')
  = written_files (calls st) ++ ["layer_" +:+ str_int layer_count +:+ ".step"].
Proof.
  unfold layer_body. intros Hrun. bind_inv Hrun. injection Hrun as <-.
  cbn [calls]. rewrite written_files_app.
  apply add_surfaces_no_write in Ha5. apply add_lines_no_write in Ha4.
  apply add_points_no_write in Ha3. by rewrite Ha5, Ha4, Ha3.
Qed.

(** The layer loop reads the thickness list at index 0 only. *)
Lemma layer_body_head (fuel : nat) (Nphi Ntheta : Z) (t : F) (ts ts' : list F)
    (Coords_orig : array3) (st : layer_state) :
  layer_body fuel Nphi Ntheta (t :: ts) Coords_orig 0 st
  = layer_body fuel Nphi Ntheta (t :: ts') Coords_orig 0 st.
Proof. unfold layer_body. by rewrite !seq_get_head. Qed.

Lemma layer_body_prints (fuel : nat) (Nphi Ntheta : Z) (t : F) (ts : list F)
    (Coords_orig : array3) (st st' : layer_state) :
  layer_body fuel Nphi Ntheta (t :: ts) Coords_orig 0 st = Ok st' →
  stdout st' = stdout st ++ ["layer:  0 thickness of layer: " +:+ float_str t].
Proof.
  unfold layer_body. rewrite !seq_get_head. cbn [mbind result_bind].
  intros Hrun. bind_inv Hrun. by injection Hrun as <-.
Qed.

(** The rest of the thickness list does not reach the result. *)
Lemma make_build_head (fuel : nat) (file : list csv_row) (Nphi Ntheta : Z)
    (t : F) (ts ts' : list F) :
  make_build fuel file Nphi Ntheta (t :: ts) = make_build fuel file Nphi Ntheta (t :: ts').
Proof.
  unfold make_build. cbv zeta.
  repeat match goal with
         | |- (?m ≫= _) = (?m ≫= _) =>
             destruct m; cbn [mbind result_bind]; [|done|done]
         end.
  match goal with
  | |- (while_upto _ _ _ ?body _ ≫= _) = (while_upto _ _ _ ?body' _ ≫= _) =>
      rewrite (while_upto_ext fuel 0 0 body body'); [done|]
  end.
  intros i st Hi. replace i with 0 by lia. apply layer_body_head.
Qed.

End RadialFromVmecProperties.

Section RadialFromVmecTermination.

Context `{Float F}.

Import RadialFromVmec.

(** Peel the binds and the counting loops of a function of the script. *)
Ltac no_diverge_step :=
  first
    [ apply while_upto_not_Diverge; [lia|intros ? ? _]
    | apply bind_not_Diverge; [|intros ? _]
    | progress auto with no_diverge
    | progress cbv zeta
    | match goal with
      | |- (if ?b then _ else _) ≠ Diverge => destruct b
      | |- Ok _ ≠ Diverge => discriminate
      | |- Raise _ ≠ Diverge => discriminate
      end ].

Ltac no_diverge_loops := repeat no_diverge_step.

Lemma rfv_read_columns_not_Diverge (file : list csv_row) :
  read_columns file ≠ Diverge.
Proof. induction file as [|col file IH]; cbn [read_columns]; no_diverge. Qed.

Lemma store_cell_not_Diverge (arr : array3) (i j k : Z) (cells : list string) (counter : Z) :
  store_cell arr i j k cells counter ≠ Diverge.
Proof. unfold store_cell, array3 in *. no_diverge. Qed.

Hint Resolve rfv_read_columns_not_Diverge store_cell_not_Diverge : no_diverge.

Lemma np_zeros3_not_Diverge (a b : Z) : np_zeros3 (F := F) a b ≠ Diverge.
Proof. unfold np_zeros3. by destruct ((a <? 0) || (b <? 0)). Qed.

Hint Resolve np_zeros3_not_Diverge : no_diverge.

Lemma layer_body_not_Diverge (fuel : nat) (Nphi Ntheta : Z) (thickness_list : list F)
    (Coords_orig : array3) (layer_count : Z) (st : layer_state) :
  (Z.to_nat (Nphi + 1) < fuel)%nat → (Z.to_nat (Ntheta + 1) < fuel)%nat →
  layer_body fuel Nphi Ntheta thickness_list Coords_orig layer_count st ≠ Diverge.
Proof.
  intros Hphi Htheta.
  unfold layer_body, copy_coords, measure_dist, add_points, add_lines, add_surfaces,
    array3 in *.
  cbv zeta. no_diverge_loops.
Qed.

(** With more fuel than [Nphi + 1] and [Ntheta + 1], and more than one,
    [make_build] ends: it returns or raises. *)
Lemma make_build_not_Diverge (fuel : nat) (file : list csv_row) (Nphi Ntheta : Z)
    (thickness_list : list F) :
  (Z.to_nat (Nphi + 1) < fuel)%nat → (Z.to_nat (Ntheta + 1) < fuel)%nat →
  (1 < fuel)%nat →
  make_build fuel file Nphi Ntheta thickness_list ≠ Diverge.
Proof.
  intros Hphi Htheta Hone. unfold make_build, fill_orig, array3 in *. cbv zeta.
  repeat first [apply layer_body_not_Diverge; assumption | no_diverge_step].
Qed.

End RadialFromVmecTermination.

(** ** Calls of [make_build] that return *)

(** A counting loop with more fuel than passes, whose passes keep a property
    of the counter and the state and return under it, returns, and the
    property holds at the end. *)
Lemma while_upto_invariant {T} (P : Z → T → Prop) (fuel : nat) (first last : Z)
    (body : Z → T → result T) (t : T) :
  (Z.to_nat (last + 1 - first) < fuel)%nat →
  P first t →
  (∀ i t, first <= i <= last → P i t → ∃ t', body i t = Ok t' ∧ P (i + 1) t') →
  ∃ t', while_upto fuel first last body t = Ok (t', Z.to_nat (last + 1 - first))
        ∧ P (first + Z.of_nat (Z.to_nat (last + 1 - first))) t'.
Proof.
  intros Hfuel Ht Hbody. rewrite while_upto_for_range by done.
  destruct (for_range_invariant P (Z.to_nat (last + 1 - first)) first body t)
    as (t' & Ht' & HP); [done| |].
  - intros i t1 Hi. apply Hbody. lia.
  - exists t'. by rewrite Ht'.
Qed.

Section Arrays.

Context {A : Type}.

Lemma axis_index_Ok (len : nat) (i : Z) :
  0 <= i < Z.of_nat len → axis_index len i = Ok (Z.to_nat i).
Proof.
  intros Hi. unfold axis_index.
  replace ((0 <=? i) && (i <? Z.of_nat len)) with true; [done|].
  symmetry. apply andb_true_iff. split; [apply Z.leb_le|apply Z.ltb_lt]; lia.
Qed.

Lemma seq_get_Ok (l : list A) (i : Z) :
  0 <= i < Z.of_nat (length l) →
  ∃ x, seq_get l i = Ok x ∧ l !! Z.to_nat i = Some x.
Proof.
  intros Hi. unfold seq_get. rewrite axis_index_Ok by done. cbn [mbind result_bind].
  destruct (lookup_lt_is_Some_2 l (Z.to_nat i)) as [x Hx]; [lia|].
  exists x. by rewrite (getitem_Ok _ _ _ Hx).
Qed.

Lemma seq_set_Ok (l : list A) (i : Z) (v : A) :
  0 <= i < Z.of_nat (length l) → seq_set l i v = Ok (<[Z.to_nat i := v]> l).
Proof.
  intros Hi. unfold seq_set. rewrite axis_index_Ok by done. cbn [mbind result_bind].
  apply setitem_Ok. lia.
Qed.

End Arrays.

Section Arrays3.

Context {A : Type}.

Lemma get3_Ok (a b : nat) (arr : list (list (list A))) (i j k : Z) :
  shaped a b arr →
  0 <= i < Z.of_nat a → 0 <= j < Z.of_nat b → 0 <= k < 3 →
  ∃ x, get3 arr i j k = Ok x.
Proof.
  intros [Hlen Hplanes] Hi Hj Hk. unfold get3.
  destruct (seq_get_Ok arr i) as (plane & -> & Hplane); [lia|]. cbn [mbind result_bind].
  destruct (Forall_lookup_1 _ _ _ _ Hplanes Hplane) as [Hb Hrows].
  destruct (seq_get_Ok plane j) as (row & -> & Hrow); [lia|]. cbn [mbind result_bind].
  pose proof (Forall_lookup_1 _ _ _ _ Hrows Hrow) as Hthree. cbv beta in Hthree.
  destruct (seq_get_Ok row k) as (x & -> & _); [lia|]. eauto.
Qed.

Lemma set3_Ok (a b : nat) (arr : list (list (list A))) (i j k : Z) (v : A) :
  shaped a b arr →
  0 <= i < Z.of_nat a → 0 <= j < Z.of_nat b → 0 <= k < 3 →
  ∃ arr', set3 arr i j k v = Ok arr' ∧ shaped a b arr'.
Proof.
  intros [Hlen Hplanes] Hi Hj Hk. unfold set3.
  destruct (seq_get_Ok arr i) as (plane & -> & Hplane); [lia|]. cbn [mbind result_bind].
  destruct (Forall_lookup_1 _ _ _ _ Hplanes Hplane) as [Hb Hrows].
  destruct (seq_get_Ok plane j) as (row & -> & Hrow); [lia|]. cbn [mbind result_bind].
  pose proof (Forall_lookup_1 _ _ _ _ Hrows Hrow) as Hthree. cbv beta in Hthree.
  rewrite seq_set_Ok by lia. cbn [mbind result_bind].
  rewrite seq_set_Ok by lia. cbn [mbind result_bind].
  rewrite seq_set_Ok by lia.
  eexists. split; [done|]. split; [by rewrite length_insert|].
  apply Forall_insert; [done|]. split; [by rewrite length_insert|].
  apply Forall_insert; [done|]. by rewrite length_insert.
Qed.

End Arrays3.

Section RadialFromVmecReturns.

Context `{Float F}.

Import RadialFromVmec.

Lemma rfv_read_columns_Ok (file : list csv_row) :
  Forall (fun col => numeric_cell col "X" ∧ numeric_cell col "Y" ∧ numeric_cell col "Z") file →
  ∃ xs ys zs, read_columns file = Ok (xs, ys, zs)
              ∧ length xs = length file ∧ length ys = length file
              ∧ length zs = length file
              ∧ Forall numeric xs ∧ Forall numeric ys ∧ Forall numeric zs.
Proof.
  induction 1 as [|col file ((cx & x & Hcx & Hx) & (cy & y & Hcy & Hy) & (cz & z & Hcz & Hz)) _ IH];
    cbn [read_columns].
  - exists [], [], []. repeat split; constructor.
  - destruct IH as (xs & ys & zs & -> & Hlx & Hly & Hlz & Hfx & Hfy & Hfz).
    unfold csv_get. rewrite Hcx, Hcy, Hcz. cbn [mbind result_bind fst snd].
    exists (cx :: xs), (cy :: ys), (cz :: zs). simpl. rewrite Hlx, Hly, Hlz.
    repeat split; constructor; unfold numeric; eauto.
Qed.

Lemma store_cell_Ok (a b : nat) (arr : (list (list (list F)))) (i j k : Z) (cells : list string)
    (counter : Z) :
  shaped a b arr →
  0 <= i < Z.of_nat a → 0 <= j < Z.of_nat b → 0 <= k < 3 →
  0 <= counter < Z.of_nat (length cells) → Forall numeric cells →
  ∃ arr', store_cell arr i j k cells counter = Ok arr' ∧ shaped a b arr'.
Proof.
  intros Harr Hi Hj Hk Hcounter Hcells. unfold store_cell.
  destruct (seq_get_Ok cells counter Hcounter) as (cell & -> & Hcell).
  cbn [mbind result_bind].
  destruct (Forall_lookup_1 _ _ _ _ Hcells Hcell) as [v Hv].
  rewrite (py_float_Ok _ _ Hv). cbn [mbind result_bind].
  by apply (set3_Ok a b).
Qed.

Lemma fill_orig_Ok (fuel : nat) (Nphi Ntheta : Z) (xs ys zs : list string)
    (arr : (list (list (list F)))) :
  0 <= Nphi → 0 <= Ntheta →
  (Z.to_nat (Nphi + 1) < fuel)%nat → (Z.to_nat (Ntheta + 1) < fuel)%nat →
  shaped (Z.to_nat (Nphi + 1)) (Z.to_nat (Ntheta + 1)) arr →
  (Nphi + 1) * (Ntheta + 1) <= Z.of_nat (length xs) →
  (Nphi + 1) * (Ntheta + 1) <= Z.of_nat (length ys) →
  (Nphi + 1) * (Ntheta + 1) <= Z.of_nat (length zs) →
  Forall numeric xs → Forall numeric ys → Forall numeric zs →
  ∃ r, fill_orig fuel Nphi Ntheta xs ys zs arr = Ok r
       ∧ shaped (Z.to_nat (Nphi + 1)) (Z.to_nat (Ntheta + 1)) r.2.
Proof.
  intros Hphi Htheta Hfphi Hftheta Harr Hlx Hly Hlz Hfx Hfy Hfz. unfold fill_orig.
  edestruct (while_upto_invariant
               (fun Phi (st : Z * (list (list (list F)))) =>
                  st.1 = Phi * (Ntheta + 1)
                  ∧ shaped (Z.to_nat (Nphi + 1)) (Z.to_nat (Ntheta + 1)) st.2)
               fuel 0 Nphi) as (r & -> & _ & Hr); [lia| | |].
  - split; [|exact Harr]. cbn [fst]. lia.
  - intros Phi st HPhi [Hcounter Hst].
    edestruct (while_upto_invariant
                 (fun Theta (st : Z * (list (list (list F)))) =>
                    st.1 = Phi * (Ntheta + 1) + Theta
                    ∧ shaped (Z.to_nat (Nphi + 1)) (Z.to_nat (Ntheta + 1)) st.2)
                 fuel 0 Ntheta) as (r & -> & Hc & Hr); [lia| | |].
    + split; [lia|exact Hst].
    + intros Theta [counter a] HTheta [Hcounter' Hst']. cbn [fst snd] in *.
      assert (Hin : 0 <= counter < (Nphi + 1) * (Ntheta + 1)) by nia.
      destruct (store_cell_Ok _ _ a Phi Theta 0 xs counter Hst')
        as (a1 & -> & Ha1); [lia..|done|]. cbn [mbind result_bind].
      destruct (store_cell_Ok _ _ a1 Phi Theta 1 ys counter Ha1)
        as (a2 & -> & Ha2); [lia..|done|]. cbn [mbind result_bind].
      destruct (store_cell_Ok _ _ a2 Phi Theta 2 zs counter Ha2)
        as (a3 & -> & Ha3); [lia..|done|]. cbn [mbind result_bind].
      eexists. split; [done|]. cbn [fst snd]. split; [lia|done].
    + cbn [mbind result_bind fst]. eexists. split; [done|].
      split; [|exact Hr]. rewrite Hc. lia.
  - cbn [mbind result_bind fst]. eauto.
Qed.

Lemma copy_coords_Ok (fuel : nat) (Nphi Ntheta layer_count : Z)
    (Coords_orig Coords : list (list (list F))) :
  0 <= Nphi → 0 <= Ntheta →
  (Z.to_nat (Nphi + 1) < fuel)%nat → (Z.to_nat (Ntheta + 1) < fuel)%nat →
  shaped (Z.to_nat (Nphi + 1)) (Z.to_nat (Ntheta + 1)) Coords_orig →
  shaped (Z.to_nat (Nphi + 1)) (Z.to_nat (Ntheta + 1)) Coords →
  ∃ Coords', copy_coords fuel Nphi Ntheta layer_count Coords_orig Coords = Ok Coords'
             ∧ shaped (Z.to_nat (Nphi + 1)) (Z.to_nat (Ntheta + 1)) Coords'.
Proof.
  intros Hphi Htheta Hfphi Hftheta Horig Hcoords. unfold copy_coords.
  edestruct (while_upto_invariant
               (fun _ (a : list (list (list F))) =>
                  shaped (Z.to_nat (Nphi + 1)) (Z.to_nat (Ntheta + 1)) a)
               fuel 0 Nphi) as (r & -> & Hr); [lia|exact Hcoords| |].
  - intros Phi a HPhi Ha.
    edestruct (while_upto_invariant
                 (fun _ (a : list (list (list F))) =>
                    shaped (Z.to_nat (Nphi + 1)) (Z.to_nat (Ntheta + 1)) a)
                 fuel 0 Ntheta) as (r & -> & Hr); [lia|exact Ha| |].
    + intros Theta a0 HTheta Ha0. destruct (layer_count =? 0); [|eauto].
      destruct (get3_Ok _ _ Coords_orig Phi Theta 0 Horig) as [x ->]; [lia..|].
      cbn [mbind result_bind].
      destruct (set3_Ok _ _ a0 Phi Theta 0 x Ha0) as (a1 & -> & Ha1); [lia..|].
      cbn [mbind result_bind].
      destruct (get3_Ok _ _ Coords_orig Phi Theta 1 Horig) as [y ->]; [lia..|].
      cbn [mbind result_bind].
      destruct (set3_Ok _ _ a1 Phi Theta 1 y Ha1) as (a2 & -> & Ha2); [lia..|].
      cbn [mbind result_bind].
      destruct (get3_Ok _ _ Coords_orig Phi Theta 2 Horig) as [z ->]; [lia..|].
      cbn [mbind result_bind].
      by apply (set3_Ok _ _ a2 Phi Theta 2 z Ha2); lia.
    + cbn [mbind result_bind fst]. eauto.
  - cbn [mbind result_bind fst]. eauto.
Qed.

Lemma measure_dist_Ok (fuel : nat) (Nphi Ntheta : Z)
    (Coords_orig Coords : list (list (list F))) :
  0 <= Nphi → 0 <= Ntheta →
  (Z.to_nat (Nphi + 1) < fuel)%nat → (Z.to_nat (Ntheta + 1) < fuel)%nat →
  shaped (Z.to_nat (Nphi + 1)) (Z.to_nat (Ntheta + 1)) Coords_orig →
  shaped (Z.to_nat (Nphi + 1)) (Z.to_nat (Ntheta + 1)) Coords →
  measure_dist fuel Nphi Ntheta Coords_orig Coords = Ok tt.
Proof.
  intros Hphi Htheta Hfphi Hftheta Horig Hcoords. unfold measure_dist.
  edestruct (while_upto_invariant (fun _ (_ : unit) => True) fuel 0 Nphi)
    as ([] & -> & _); [lia|done| |done].
  intros phi_test [] Hp _.
  edestruct (while_upto_invariant (fun _ (_ : unit) => True) fuel 0 Ntheta)
    as ([] & -> & _); [lia|done| |cbn [mbind result_bind]; eauto].
  intros theta_test [] Ht _.
  destruct (get3_Ok _ _ Coords_orig phi_test theta_test 0 Horig) as [? ->]; [lia..|].
  cbn [mbind result_bind].
  destruct (get3_Ok _ _ Coords phi_test theta_test 0 Hcoords) as [? ->]; [lia..|].
  cbn [mbind result_bind].
  destruct (get3_Ok _ _ Coords_orig phi_test theta_test 1 Horig) as [? ->]; [lia..|].
  cbn [mbind result_bind].
  destruct (get3_Ok _ _ Coords phi_test theta_test 1 Hcoords) as [? ->]; [lia..|].
  cbn [mbind result_bind].
  destruct (get3_Ok _ _ Coords_orig phi_test theta_test 2 Horig) as [? ->]; [lia..|].
  cbn [mbind result_bind].
  destruct (get3_Ok _ _ Coords phi_test theta_test 2 Hcoords) as [? ->]; [lia..|].
  cbn [mbind result_bind]. eauto.
Qed.

Lemma add_points_Ok (fuel : nat) (Nphi Ntheta : Z) (Coords : list (list (list F)))
    (calls : list gmsh_call) :
  0 <= Nphi → 0 <= Ntheta →
  (Z.to_nat (Nphi + 1) < fuel)%nat → (Z.to_nat (Ntheta + 1) < fuel)%nat →
  shaped (Z.to_nat (Nphi + 1)) (Z.to_nat (Ntheta + 1)) Coords →
  ∃ calls', add_points fuel Nphi (Ntheta + 1) Coords calls = Ok calls'.
Proof.
  intros Hphi Htheta Hfphi Hftheta Hcoords. unfold add_points.
  edestruct (while_upto_invariant (fun _ (_ : list (gmsh_call (F := F))) => True)
               fuel 1 Nphi) as (r & -> & _); [lia|done| |cbn [mbind result_bind]; eauto].
  intros loop_num cs Hl _. cbv zeta.
  edestruct (while_upto_invariant (fun _ (_ : list (gmsh_call (F := F))) => True)
               fuel (loop_count_min loop_num (Ntheta + 1))
               (loop_count_min loop_num (Ntheta + 1) + (Ntheta + 1) - 1 - 1))
    as (r & -> & _); [lia|done| |cbn [mbind result_bind]; eauto].
  intros count cs' Hc _.
  destruct (get3_Ok _ _ Coords (loop_num - 1)
              (count - loop_count_min loop_num (Ntheta + 1)) 0 Hcoords) as [x ->]; [lia..|].
  cbn [mbind result_bind].
  destruct (get3_Ok _ _ Coords (loop_num - 1)
              (count - loop_count_min loop_num (Ntheta + 1)) 1 Hcoords) as [y ->]; [lia..|].
  cbn [mbind result_bind].
  destruct (get3_Ok _ _ Coords (loop_num - 1)
              (count - loop_count_min loop_num (Ntheta + 1)) 2 Hcoords) as [z ->]; [lia..|].
  cbn [mbind result_bind]. eauto.
Qed.

Lemma add_lines_Ok (fuel : nat) (Nphi Ntheta line_shift : Z)
    (calls : list (gmsh_call (F := F))) :
  0 <= Nphi → 0 <= Ntheta →
  (Z.to_nat (Nphi + 1) < fuel)%nat → (Z.to_nat (Ntheta + 1) < fuel)%nat →
  ∃ calls', add_lines fuel Nphi (Ntheta + 1) line_shift calls = Ok calls'.
Proof.
  intros Hphi Htheta Hfphi Hftheta. unfold add_lines.
  edestruct (while_upto_invariant (fun _ (_ : list (gmsh_call (F := F))) => True)
               fuel 1 Nphi) as (r & -> & _); [lia|done| |cbn [mbind result_bind]; eauto].
  intros loop_num cs Hl _. cbv zeta.
  edestruct (while_upto_invariant (fun _ (_ : list (gmsh_call (F := F))) => True)
               fuel (loop_count_min loop_num (Ntheta + 1))
               (loop_count_min loop_num (Ntheta + 1) + (Ntheta + 1) - 1 - 1))
    as (r & -> & _); [lia|done| |cbn [mbind result_bind]; eauto].
  intros count cs' Hc _. eauto.
Qed.

Lemma add_surfaces_Ok (fuel : nat) (Nphi Ntheta line_shift final_point layer_count : Z)
    (calls : list (gmsh_call (F := F))) :
  0 <= Nphi → 0 <= Ntheta →
  (Z.to_nat (Nphi + 1) < fuel)%nat → (Z.to_nat (Ntheta + 1) < fuel)%nat →
  ∃ sf, add_surfaces fuel Nphi (Ntheta + 1) line_shift final_point layer_count calls = Ok sf.
Proof.
  intros Hphi Htheta Hfphi Hftheta. unfold add_surfaces.
  edestruct (while_upto_invariant
               (fun _ (_ : list Z * list (gmsh_call (F := F))) => True)
               fuel 1 Nphi) as (r & -> & _); [lia|done| |cbn [mbind result_bind]; eauto].
  intros loop_num st Hl _. cbv zeta.
  edestruct (while_upto_invariant
               (fun _ (_ : list Z * list (gmsh_call (F := F))) => True)
               fuel (loop_count_min loop_num (Ntheta + 1))
               (loop_count_min loop_num (Ntheta + 1) + (Ntheta + 1) - 2))
    as (r & -> & _); [lia|done| |cbn [mbind result_bind]; eauto].
  intros count st' Hc _. cbv beta zeta.
  destruct (count =? final_point); eexists; (split; [reflexivity|exact I]).
Qed.

Lemma layer_body_Ok (fuel : nat) (Nphi Ntheta : Z) (t : F) (ts : list F)
    (Coords_orig : list (list (list F))) (st : layer_state) :
  0 <= Nphi → 0 <= Ntheta →
  (Z.to_nat (Nphi + 1) < fuel)%nat → (Z.to_nat (Ntheta + 1) < fuel)%nat →
  shaped (Z.to_nat (Nphi + 1)) (Z.to_nat (Ntheta + 1)) Coords_orig →
  shaped (Z.to_nat (Nphi + 1)) (Z.to_nat (Ntheta + 1)) (Coords st) →
  ∃ st', layer_body fuel Nphi Ntheta (t :: ts) Coords_orig 0 st = Ok st'
         ∧ shaped (Z.to_nat (Nphi + 1)) (Z.to_nat (Ntheta + 1)) (Coords st').
Proof.
  intros Hphi Htheta Hfphi Hftheta Horig Hcoords. unfold layer_body.
  rewrite !seq_get_head. cbn [mbind result_bind]. cbv zeta.
  destruct (copy_coords_Ok fuel Nphi Ntheta 0 Coords_orig (Coords st))
    as (C & -> & HC); [done..|]. cbn [mbind result_bind].
  rewrite measure_dist_Ok by done. cbn [mbind result_bind].
  destruct (add_points_Ok fuel Nphi Ntheta C (calls st)) as [c1 ->]; [done..|].
  cbn [mbind result_bind].
  destruct (add_lines_Ok fuel Nphi Ntheta (Ntheta * Nphi) c1) as [c2 ->]; [done..|].
  cbn [mbind result_bind].
  edestruct (add_surfaces_Ok fuel Nphi Ntheta) as [sf ->]; [done..|].
  cbn [mbind result_bind]. eexists. split; [reflexivity|exact HC].
Qed.

Lemma np_zeros3_Ok (a b : Z) :
  0 <= a → 0 <= b →
  ∃ arr, np_zeros3 (F := F) a b = Ok arr ∧ shaped (Z.to_nat a) (Z.to_nat b) arr.
Proof.
  intros Ha Hb. unfold np_zeros3.
  replace ((a <? 0) || (b <? 0)) with false
    by (symmetry; apply orb_false_iff; split; apply Z.ltb_ge; lia).
  eexists. split; [done|]. split; [by rewrite length_replicate|].
  apply Forall_replicate. split; [by rewrite length_replicate|].
  apply Forall_replicate. by rewrite length_replicate.
Qed.

(** On a well-formed boundary file and a thickness list with at least one
    entry, with more fuel than [Nphi + 1] and [Ntheta + 1], [make_build]
    returns. *)
Lemma make_build_Ok (fuel : nat) (file : list csv_row) (Nphi Ntheta : Z)
    (t : F) (ts : list F) :
  well_formed_boundary file Nphi Ntheta →
  (Z.to_nat (Nphi + 1) < fuel)%nat → (Z.to_nat (Ntheta + 1) < fuel)%nat →
  ∃ out, make_build fuel file Nphi Ntheta (t :: ts) = Ok out.
Proof.
  intros (Hphi & Htheta & Hrows & Hcells) Hfphi Hftheta.
  unfold make_build. cbv zeta.
  destruct (np_zeros3_Ok (Nphi + 1) (Ntheta + 1)) as (zeros & -> & Hzeros); [lia..|].
  cbn [mbind result_bind].
  destruct (rfv_read_columns_Ok file Hcells)
    as (xs & ys & zs & -> & Hlx & Hly & Hlz & Hfx & Hfy & Hfz).
  cbn [mbind result_bind fst snd].
  destruct (fill_orig_Ok fuel Nphi Ntheta xs ys zs zeros) as ([counter orig] & -> & Horig);
    [lia..|done|lia|lia|lia|done|done|done|]. cbn [mbind result_bind fst snd] in *.
  destruct (get3_Ok _ _ orig 0 0 0 Horig) as [c00 ->]; [lia..|]. cbn [mbind result_bind].
  destruct (get3_Ok _ _ orig 0 (Ntheta ÷ 2 + 1) 0 Horig) as [chalf ->];
    [lia| |lia|].
  { pose proof (Z.quot_pos Ntheta 2). pose proof (Z.quot_lt Ntheta 2). lia. }
  cbn [mbind result_bind].
  replace (Nphi =? 0) with false by (symmetry; apply Z.eqb_neq; lia).
  cbn [mbind result_bind].
  edestruct (while_upto_invariant (fun _ (st : layer_state (F := F)) =>
               shaped (Z.to_nat (Nphi + 1)) (Z.to_nat (Ntheta + 1)) (Coords st))
               fuel 0 0) as (st' & -> & _); [simpl; lia|exact Hzeros| |].
  - intros i st Hi Hst. replace i with 0 by lia.
    apply layer_body_Ok; [lia|lia|done..].
  - cbn [mbind result_bind]. eauto.
Qed.

(** C9.  Whatever follows its first entry in the thickness list,
    [make_build] makes exactly one pass of its layer loop, the pass for
    [layer_count = 0].  On a well-formed boundary file the call returns; and
    a call that returns made one pass, printed the thickness
    [thickness_list[0]], wrote exactly one STEP file, named layer_0.step, and
    left the same result as with any other list that starts with the same
    entry. *)
Theorem make_build_single_layer (fuel : nat) (file : list csv_row) (Nphi Ntheta : Z)
    (t : F) (ts : list F) :
  (well_formed_boundary file Nphi Ntheta →
   (Z.to_nat (Nphi + 1) < fuel)%nat → (Z.to_nat (Ntheta + 1) < fuel)%nat →
   ∃ out, make_build fuel file Nphi Ntheta (t :: ts) = Ok out)
  ∧ ∀ out, make_build fuel file Nphi Ntheta (t :: ts) = Ok out →
      layer_passes out = 1%nat
      ∧ written_files (gmsh out) = ["layer_0.step"]
      ∧ last (printed out) = Some ("layer:  0 thickness of layer: " +:+ float_str t)
      ∧ ∀ ts', make_build fuel file Nphi Ntheta (t :: ts') = Ok out.
Proof.
  split; [apply make_build_Ok|].
  intros out Hout. split; [|split; [|split]].
  - unfold make_build in Hout. bind_inv Hout. injection Hout as <-.
    cbn [layer_passes]. destruct a6 as [st k].
    by apply while_upto_Ok in Ha6 as [-> _].
  - unfold make_build in Hout. bind_inv Hout. injection Hout as <-.
    cbn [gmsh]. destruct a6 as [st k].
    apply while_upto_Ok in Ha6 as [-> Hpass].
    change (Z.to_nat (0 + 1 - 0)) with 1%nat in Hpass.
    cbn [for_range] in Hpass. bind_inv Hpass. injection Hpass as <-.
    apply layer_body_writes in Ha6. cbn [fst]. rewrite Ha6. reflexivity.
  - unfold make_build in Hout. bind_inv Hout. injection Hout as <-.
    cbn [printed]. destruct a6 as [st k].
    apply while_upto_Ok in Ha6 as [-> Hpass].
    change (Z.to_nat (0 + 1 - 0)) with 1%nat in Hpass.
    cbn [for_range] in Hpass. bind_inv Hpass. injection Hpass as <-.
    apply layer_body_prints in Ha6. cbn [fst]. rewrite Ha6.
    cbn [stdout]. by rewrite last_snoc.
  - intros ts'. by rewrite <- (make_build_head fuel file Nphi Ntheta t ts ts').
Qed.


End RadialFromVmecReturns.

Lemma make_build_single_layer_witness :
  ∃ out, RadialFromVmec.make_build 20 Examples.boundary_rows 2 2 [1; 2; 3]%Q = Ok out
         ∧ RadialFromVmec.written_files (RadialFromVmec.gmsh out) = ["layer_0.step"]
         ∧ RadialFromVmec.make_build 20 Examples.boundary_rows 2 2 [1]%Q = Ok out.
Proof.
  destruct (make_build_single_layer 20 Examples.boundary_rows 2 2 1%Q [2; 3]%Q)
    as [Hreturns Hlayer].
  destruct Hreturns as [out Hout].
  - split; [lia|]. split; [lia|]. split; [vm_compute; discriminate|].
    repeat constructor; eexists _, _; (split; [reflexivity|vm_compute; reflexivity]).
  - vm_compute. lia.
  - vm_compute. lia.
  - exists out. split; [exact Hout|].
    destruct (Hlayer out Hout) as (_ & Hfiles & _ & Hrest).
    split; [exact Hfiles|exact (Hrest [])].
Defined.

(** * Part II, continued: further properties of the code *)

Import RadialFromVmecInputs RadialFromVmecCalls PyDictOrder SphereGenLayers
  SphereGenExports SphereGenBeamlinesView.

(** ** tokamak_gen/tf_step_v3.py: when a call returns, how it fails, what it
    builds and writes *)

Lemma getitem_Ok_inv {A} (l : list A) (i : nat) (a : A) :
  getitem l i = Ok a → l !! i = Some a.
Proof. unfold getitem. destruct (l !! i); [|done]. by intros [= ->]. Qed.

Lemma setitem_Ok_inv {A} (l l' : list A) (i : nat) (v : A) :
  setitem l i v = Ok l' → (i < length l)%nat ∧ l' = <[i := v]> l.
Proof. unfold setitem. case_decide; [|done]. by intros [= <-]. Qed.

Lemma py_float_Ok_inv `{Float F} (s : string) (x : F) :
  py_float s = Ok x → float_of_string s = Some x.
Proof. unfold py_float. destruct (float_of_string s); [|done]. by intros [= ->]. Qed.

Lemma csv_get_Ok_inv (col : csv_row) (column cell : string) :
  csv_get col column = Ok cell → PyDict.get col column = Some cell.
Proof. unfold csv_get. destruct (PyDict.get col column); [|done]. by intros [= ->]. Qed.

Section TfStepErrors.

Context `{Float F}.

Lemma tf_read_columns_inv (file : list csv_row) (xs ys : list string) :
  TfStep.read_columns file = Ok (xs, ys) →
  Forall2 (fun col cell => PyDict.get col "X" = Some cell) file xs
  ∧ Forall2 (fun col cell => PyDict.get col "Y" = Some cell) file ys.
Proof.
  revert xs ys. induction file as [|col file IH]; intros xs ys; cbn [TfStep.read_columns].
  - intros [= <- <-]. split; constructor.
  - intros Hread. bind_inv Hread. injection Hread as <- <-.
    destruct a1 as [xs' ys']. destruct (IH xs' ys' Ha1) as [Hx Hy].
    apply csv_get_Ok_inv in Ha, Ha0. split; by constructor.
Qed.

Lemma convert_loop_numeric (n : Z) (k : nat) (xs ys : list string)
    (st st' : list F * list F) :
  for_range k 0 (TfStep.convert_body n xs ys) st = Ok st' →
  ∀ j : nat, Z.of_nat j < Z.of_nat k → Z.of_nat j < n →
    (∃ cell x, xs !! j = Some cell ∧ float_of_string cell = Some x)
    ∧ (∃ cell y, ys !! j = Some cell ∧ float_of_string cell = Some y).
Proof.
  intros Hloop.
  refine (for_range_preserves
           (fun i (_ : list F * list F) =>
              ∀ j : nat, Z.of_nat j < i → Z.of_nat j < n →
                (∃ cell x, xs !! j = Some cell ∧ float_of_string cell = Some x)
                ∧ (∃ cell y, ys !! j = Some cell ∧ float_of_string cell = Some y))
           k 0 _ st st' _ _ Hloop); [intros j; lia|].
  intros i t t' Hi Ht Hbody j Hj Hjn.
  destruct (decide (Z.of_nat j < i)) as [Hlt|Hge]; [by apply Ht|].
  assert (i = Z.of_nat j) as -> by lia.
  unfold TfStep.convert_body in Hbody.
  destruct (Z.leb_spec (Z.of_nat j) (n - 1)) as [_|Hgt]; [|lia].
  bind_inv Hbody. rewrite Nat2Z.id in *.
  apply getitem_Ok_inv in Ha, Ha2. apply py_float_Ok_inv in Ha0, Ha3.
  split; eauto.
Qed.

(** X2.  [tf_step] returns exactly on the vessel files it can read, with a radius
    that is not zero. *)
Theorem tf_step_returns_iff (fuel : nat) (r : F) (file : list csv_row)
    (z_thickness r_thickness : F) :
  (Datatypes.S (length file) < fuel)%nat → (12 < fuel)%nat →
  (∃ out, TfStep.tf_step fuel r file z_thickness r_thickness = Ok out)
  ↔ TfStep.well_formed_vessel file ∧ fis_zero r = false.
Proof.
  intros Hpoints Hcoils. split; [|intros [Hfile Hr]; by apply tf_step_Ok].
  intros [out Hout]. unfold TfStep.tf_step in Hout. bind_inv Hout.
  destruct a as [xs ys]. apply tf_read_columns_inv in Ha as [Hxs Hys].
  destruct a0 as [st k]. apply while_upto_Ok in Ha0 as [-> Hloop].
  split.
  - apply Forall_lookup_2. intros j col Hcol.
    pose proof (lookup_lt_Some _ _ _ Hcol) as Hj.
    destruct (convert_loop_numeric _ _ _ _ _ _ Hloop j) as [(cx & x & Hcx & Hx) (cy & y & Hcy & Hy)];
      [lia|lia|].
    cbn [fst snd] in *.
    pose proof (Forall2_lookup_lr _ _ _ _ _ _ Hxs Hcol Hcx) as Hgx.
    pose proof (Forall2_lookup_lr _ _ _ _ _ _ Hys Hcol Hcy) as Hgy.
    split; [by exists cx, x|by exists cy, y].
  - destruct (fis_zero r); [done|done].
Qed.








(** The loop of points closes: the entry after the last point of the file
    repeats the first. *)
Lemma convert_loop_closed (n : nat) (xs ys : list string) (st0 st : list F * list F) :
  length st0.1 = Datatypes.S n → length st0.2 = Datatypes.S n →
  for_range (Datatypes.S n) 0 (TfStep.convert_body (Z.of_nat n) xs ys) st0 = Ok st →
  length st.1 = Datatypes.S n ∧ length st.2 = Datatypes.S n
  ∧ st.1 !! n = st.1 !! 0%nat ∧ st.2 !! n = st.2 !! 0%nat.
Proof.
  intros Hx0 Hy0 Hloop.
  pose proof (for_range_preserves
           (fun i (st : list F * list F) =>
              length st.1 = Datatypes.S n ∧ length st.2 = Datatypes.S n
              ∧ (i = Z.of_nat n + 1 → st.1 !! n = st.1 !! 0%nat ∧ st.2 !! n = st.2 !! 0%nat))
           (Datatypes.S n) 0 (TfStep.convert_body (Z.of_nat n) xs ys) st0 st) as Hinv.
  cbv beta in Hinv. destruct Hinv as (Hlx & Hly & Hclosed); [..|exact Hloop|].
  - split; [done|]. split; [done|]. lia.
  - intros i [xo yo] [xo' yo'] Hi (Hxo & Hyo & _) Hbody. cbn [fst snd] in *.
    unfold TfStep.convert_body in Hbody. cbn [fst snd] in Hbody.
    destruct (Z.leb_spec i (Z.of_nat n - 1)) as [Hle|Hgt]; bind_inv Hbody;
      injection Hbody as <- <-.
    + apply setitem_Ok_inv in Ha1 as [_ ->], Ha4 as [_ ->].
      rewrite !length_insert. split; [done|]. split; [done|]. lia.
    + apply setitem_Ok_inv in Ha0 as [_ ->], Ha2 as [_ ->].
      apply getitem_Ok_inv in Ha, Ha1.
      rewrite !length_insert. split; [done|]. split; [done|]. intros _.
      replace (Z.to_nat i) with n by lia.
      destruct n as [|n].
      * done.
      * rewrite !list_lookup_insert_eq by lia.
        rewrite !list_lookup_insert_ne by done. by rewrite Ha, Ha1.
  - split; [done|]. split; [done|]. apply Hclosed. lia.
Qed.

Lemma lookup_map_closed {A B} (f : A → B) (l : list A) (n : nat) :
  l !! n = l !! 0%nat → map f l !! n = map f l !! 0%nat.
Proof. intros Hl. change (map f l) with (f <$> l). by rewrite !list_lookup_fmap, Hl. Qed.

Lemma lookup_zip_with_closed {A B C} (f : A → B → C) (l : list A) (k : list B) (n : nat) :
  l !! n = l !! 0%nat → k !! n = k !! 0%nat →
  zip_with f l k !! n = zip_with f l k !! 0%nat.
Proof. intros Hl Hk. by rewrite !lookup_zip_with, Hl, Hk. Qed.

(** X4.  The two polylines of the coil profile are closed loops: each has one
    point more than the vessel file has rows, every point has three
    coordinates, and the last point repeats the first. *)
Theorem tf_step_profile_closed (fuel : nat) (r : F) (file : list csv_row)
    (z_thickness r_thickness : F) (out : TfStep.outcome) :
  TfStep.tf_step fuel r file z_thickness r_thickness = Ok out →
  ∃ points_out points_tot,
    TfStep.assy out
    = map (TfStep.tf_coil 12 (TfStep.coil_profile points_out points_tot z_thickness))
          [1; 2; 3; 4; 5; 6; 7; 8; 9; 10; 11; 12]
    ∧ length points_out = Datatypes.S (length file)
    ∧ length points_tot = Datatypes.S (length file)
    ∧ Forall (fun p => length p = 3%nat) points_out
    ∧ Forall (fun p => length p = 3%nat) points_tot
    ∧ points_out !! length file = points_out !! 0%nat
    ∧ points_tot !! length file = points_tot !! 0%nat.
Proof.
  unfold TfStep.tf_step. intros Hout. bind_inv Hout. injection Hout as <-.
  cbn [TfStep.assy]. apply add_coils_loop in Ha7 as [Hassy _].
  destruct a0 as [st k]. apply while_upto_Ok in Ha0 as [-> Hloop].
  replace (Z.to_nat (Z.of_nat (length file) + 1 - 0)) with (Datatypes.S (length file)) in Hloop by lia.
  replace (Z.to_nat (Z.of_nat (length file) + 1)) with (Datatypes.S (length file)) in * by lia.
  apply convert_loop_closed in Hloop as (Hlx & Hly & Hcx & Hcy);
    [|unfold np_zeros; cbn [fst snd]; by rewrite length_replicate..].
  cbn [fst snd] in *.
  eexists _, _. split; [exact Hassy|].
  assert (Hz : ∀ f : F → F,
             map f (np_zeros (Datatypes.S (length file))) !! length file
             = map f (np_zeros (Datatypes.S (length file))) !! 0%nat).
  { intros f. apply lookup_map_closed. unfold np_zeros.
    rewrite !lookup_replicate_2 by lia. done. }
  repeat split.
  - unfold np_zeros.
    by rewrite length_zip_with, length_zip, !length_map, Hlx, Hly, length_replicate, !Nat.min_id.
  - unfold np_zeros.
    by rewrite length_zip_with, length_zip, !length_map, Hlx, Hly, length_replicate, !Nat.min_id.
  - apply Forall_forall. intros p Hp. apply elem_of_lookup_zip_with in Hp
      as (i & x & yz & -> & _ & _). done.
  - apply Forall_forall. intros p Hp. apply elem_of_lookup_zip_with in Hp
      as (i & x & yz & -> & _ & _). done.
  - apply lookup_zip_with_closed; [by do 2 apply lookup_map_closed|].
    unfold zip. apply lookup_zip_with_closed; [by do 2 apply lookup_map_closed|apply Hz].
  - apply lookup_zip_with_closed; [by do 2 apply lookup_map_closed|].
    unfold zip. apply lookup_zip_with_closed; [by do 2 apply lookup_map_closed|apply Hz].
Qed.

Lemma point_loop_lines (x1 y1 z1 : list F) (k : nat) (lines lines' : list string) :
  for_range k 0 (TfStep.point_body x1 y1 z1) lines = Ok lines' →
  ∃ pts, lines' = lines ++ pts ∧ length pts = k.
Proof.
  intros Hloop.
  pose proof (for_range_preserves
           (fun i (l : list string) => ∃ pts, l = lines ++ pts ∧ Z.of_nat (length pts) = i)
           k 0 (TfStep.point_body x1 y1 z1) lines lines') as Hinv.
  cbv beta in Hinv. destruct Hinv as (pts & -> & Hpts); [..|exact Hloop|].
  - exists []. by rewrite app_nil_r.
  - intros i l l' Hi (pts & -> & Hpts) Hbody. unfold TfStep.point_body in Hbody.
    bind_inv Hbody. injection Hbody as <-.
    eexists (pts ++ [_]). rewrite app_assoc. split; [done|].
    rewrite length_app. simpl. lia.
  - exists pts. split; [done|]. lia.
Qed.

Lemma coil_loop_blocks (fuel : nat) (n : nat) (angle_int : F) (xc yc zc : list F)
    (st : list string * list nat) :
  for_range 12 1 (TfStep.coil_body fuel (Z.of_nat n) angle_int xc yc zc) ([], []) = Ok st →
  ∃ blocks,
    st.1 = concat blocks
    ∧ Forall2 (fun i block =>
                 ∃ pts, block = ("TF Coil " +:+ str_int i) :: "x,y,z" :: pts
                        ∧ length pts = Datatypes.S n)
              [1; 2; 3; 4; 5; 6; 7; 8; 9; 10; 11; 12] blocks.
Proof.
  intros Hloop.
  pose proof (for_range_preserves
           (fun i (st : list string * list nat) =>
              ∃ blocks, st.1 = concat blocks
                ∧ Forall2 (fun i block =>
                             ∃ pts, block = ("TF Coil " +:+ str_int i) :: "x,y,z" :: pts
                                    ∧ length pts = Datatypes.S n)
                          (seqZ 1 (i - 1)) blocks)
           12 1 (TfStep.coil_body fuel (Z.of_nat n) angle_int xc yc zc) ([], []) st) as Hinv.
  cbv beta in Hinv. apply Hinv; [| |exact Hloop]; clear Hinv Hloop.
  - exists []. split; [done|]. constructor.
  - intros i [lines counts] [lines' counts'] Hi (blocks & Hlines & Hblocks) Hbody.
    cbn [fst snd] in *. unfold TfStep.coil_body in Hbody. bind_inv Hbody.
    injection Hbody as <- <-. destruct a as [l p]. apply while_upto_Ok in Ha as [-> Hpts].
    apply point_loop_lines in Hpts as (pts & -> & Hpts). cbn [fst snd] in *.
    exists (blocks ++ [("TF Coil " +:+ str_int i) :: "x,y,z" :: pts]).
    split.
    + rewrite concat_app, Hlines. simpl. by rewrite app_nil_r, <- app_assoc.
    + replace (i + 1 - 1) with ((i - 1) + 1) by lia. rewrite seqZ_app by lia.
      apply Forall2_app; [done|].
      replace (1 + (i - 1)) with i by lia. constructor; [|constructor].
      exists pts. split; [done|]. rewrite Hpts. lia.
Qed.

(** X5.  The coil file holds twelve blocks, one per coil and in the order of the
    coils: the line TF Coil [i], the line x,y,z, and one line per point of the
    closed loop. *)
Theorem tf_step_coil_file (fuel : nat) (r : F) (file : list csv_row)
    (z_thickness r_thickness : F) (out : TfStep.outcome) :
  TfStep.tf_step fuel r file z_thickness r_thickness = Ok out →
  ∃ blocks,
    TfStep.tf_file out = concat blocks
    ∧ Forall2 (fun i block =>
                 ∃ pts, block = ("TF Coil " +:+ str_int i) :: "x,y,z" :: pts
                        ∧ length pts = Datatypes.S (length file))
              [1; 2; 3; 4; 5; 6; 7; 8; 9; 10; 11; 12] blocks
    ∧ length (TfStep.tf_file out) = (12 * (length file + 3))%nat.
Proof.
  unfold TfStep.tf_step. intros Hout. bind_inv Hout. injection Hout as <-.
  cbn [TfStep.tf_file]. destruct a6 as [st k]. apply while_upto_Ok in Ha6 as [-> Hloop].
  change (Z.to_nat (12 + 1 - 1)) with 12%nat in Hloop. cbn [fst].
  apply coil_loop_blocks in Hloop as (blocks & Hlines & Hblocks).
  exists blocks. split; [done|]. split; [exact Hblocks|].
  rewrite Hlines. clear -Hblocks.
  repeat match goal with
         | H : Forall2 _ (_ :: _) _ |- _ =>
             apply Forall2_cons_inv_l in H as (? & ? & (? & -> & ?) & H & ->)
         | H : Forall2 _ [] _ |- _ => apply Forall2_nil_inv_l in H as ->
         end.
  repeat first [rewrite length_app | progress cbn [length concat]]. lia.
Qed.

End TfStepErrors.

(** ** stellarator_plasma_cad/radial_from_vmec.py: the precondition of
    [make_build] and the geometry it sends to gmsh *)

(** A counting loop that returns had more fuel than passes. *)
Lemma while_upto_Ok_fuel {T} (fuel : nat) (first last : Z)
    (body : Z → T → result T) (t : T) (r : T * nat) :
  while_upto fuel first last body t = Ok r →
  (Z.to_nat (last + 1 - first) < fuel)%nat.
Proof.
  revert first t r. induction fuel as [|fuel IH]; intros first t r; [done|].
  rewrite while_upto_succ. destruct (Z.leb_spec first last) as [Hle|Hgt]; [|lia].
  destruct (body first t) as [t1| |]; cbn [mbind result_bind]; [|done|done].
  destruct (while_upto fuel (first + 1) last body t1) as [r1| |] eqn:Hrest;
    cbn [mbind result_bind]; [|done|done].
  intros _. apply IH in Hrest. lia.
Qed.

Section RadialFromVmecThickness.

Context `{Float F}.

Import RadialFromVmec.

Lemma layer_body_thickness (fuel : nat) (Nphi Ntheta : Z) (t t' : F) (ts ts' : list F)
    (Coords_orig : array3) (st st1 : layer_state) :
  layer_body fuel Nphi Ntheta (t :: ts) Coords_orig 0 st = Ok st1 →
  ∃ st1', layer_body fuel Nphi Ntheta (t' :: ts') Coords_orig 0 st = Ok st1'
          ∧ Coords st1' = Coords st1 ∧ calls st1' = calls st1
          ∧ stdout st1 = stdout st ++ ["layer:  0 thickness of layer: " +:+ float_str t]
          ∧ stdout st1' = stdout st ++ ["layer:  0 thickness of layer: " +:+ float_str t'].
Proof.
  unfold layer_body. rewrite !seq_get_head. cbn [mbind result_bind].
  intros Hrun. bind_inv Hrun. injection Hrun as <-.
  rewrite Ha. cbn [mbind result_bind]. rewrite Ha0. cbn [mbind result_bind].
  rewrite Ha1. cbn [mbind result_bind]. rewrite Ha2. cbn [mbind result_bind].
  rewrite Ha3. cbn [mbind result_bind]. eauto 10.
Qed.

(** X9.  The thickness list does not reach the geometry: with any other
    non-empty list the call makes the same gmsh calls, and only the line
    that prints the thickness differs. *)
Theorem make_build_ignores_thickness (fuel : nat) (file : list csv_row) (Nphi Ntheta : Z)
    (t t' : F) (ts ts' : list F) (out : outcome) :
  make_build fuel file Nphi Ntheta (t :: ts) = Ok out →
  ∃ out' shared,
    make_build fuel file Nphi Ntheta (t' :: ts') = Ok out'
    ∧ gmsh out' = gmsh out
    ∧ layer_passes out' = layer_passes out
    ∧ printed out = shared ++ ["layer:  0 thickness of layer: " +:+ float_str t]
    ∧ printed out' = shared ++ ["layer:  0 thickness of layer: " +:+ float_str t'].
Proof.
  unfold make_build. cbv zeta. intros Hout.
  repeat match type of Hout with
         | (?m ≫= _) = Ok _ =>
             lazymatch m with
             | while_upto _ _ _ _ _ => fail
             | _ => destruct m; cbn [mbind result_bind] in Hout |- *; [|done|done]
             end
         end.
  apply bind_Ok in Hout as ([st1 k] & Hloop & Hout). injection Hout as <-.
  pose proof (while_upto_Ok_fuel _ _ _ _ _ _ Hloop) as Hfuel.
  apply while_upto_Ok in Hloop as [-> Hpass].
  change (Z.to_nat (0 + 1 - 0)) with 1%nat in *.
  cbn [for_range] in Hpass. apply bind_Ok in Hpass as (st2 & Hpass & [= <-]).
  apply (layer_body_thickness _ _ _ t t' ts ts') in Hpass
    as (st1' & Hrun & HC & Hcalls & Hout1 & Hout1').
  rewrite while_upto_for_range by (change (Z.to_nat (0 + 1 - 0)) with 1%nat; lia).
  change (Z.to_nat (0 + 1 - 0)) with 1%nat.
  cbn [for_range]. rewrite Hrun. cbn [mbind result_bind fst snd gmsh printed layer_passes].
  eexists _, _. split; [done|]. split; [done|]. split; [done|]. split; [exact Hout1|exact Hout1'].
Qed.

End RadialFromVmecThickness.

Section ArraysInv.

Context {A : Type}.

Lemma axis_index_Ok_inv (len : nat) (i : Z) (n : nat) :
  axis_index len i = Ok n →
  (n < len)%nat
  ∧ ((0 <= i < Z.of_nat len ∧ n = Z.to_nat i)
     ∨ (- Z.of_nat len <= i < 0 ∧ n = Z.to_nat (Z.of_nat len + i))).
Proof.
  unfold axis_index.
  destruct (Z.leb_spec 0 i), (Z.ltb_spec i (Z.of_nat len)); cbn [andb];
    try (intros [= <-]; split; [lia|left; lia]).
  all: destruct (Z.leb_spec (- Z.of_nat len) i), (Z.ltb_spec i 0); cbn [andb];
    try done; try (intros [= <-]; split; [lia|right; lia]).
Qed.

Lemma seq_get_Ok_inv (l : list A) (i : Z) (x : A) :
  seq_get l i = Ok x →
  ∃ n, axis_index (length l) i = Ok n ∧ l !! n = Some x.
Proof.
  unfold seq_get. intros Hget. bind_inv Hget. apply getitem_Ok_inv in Hget. eauto.
Qed.

Lemma seq_set_Ok_inv (l l' : list A) (i : Z) (v : A) :
  seq_set l i v = Ok l' →
  ∃ n, axis_index (length l) i = Ok n ∧ l' = <[n := v]> l.
Proof.
  unfold seq_set. intros Hset. bind_inv Hset. apply setitem_Ok_inv in Hset as [_ ->]. eauto.
Qed.

End ArraysInv.

Section Arrays3Inv.

Context {A : Type}.

Lemma set3_shaped (a b : nat) (arr arr' : list (list (list A))) (i j k : Z) (v : A) :
  set3 arr i j k v = Ok arr' → shaped a b arr → shaped a b arr'.
Proof.
  unfold set3. intros Hset [Hlen Hplanes]. bind_inv Hset.
  apply seq_get_Ok_inv in Ha as (ni & _ & Hplane).
  apply seq_get_Ok_inv in Ha0 as (nj & _ & Hrow).
  apply seq_set_Ok_inv in Ha1 as (nk & _ & ->).
  apply seq_set_Ok_inv in Ha2 as (nj' & _ & ->).
  apply seq_set_Ok_inv in Hset as (ni' & _ & ->).
  destruct (Forall_lookup_1 _ _ _ _ Hplanes Hplane) as [Hb Hrows].
  pose proof (Forall_lookup_1 _ _ _ _ Hrows Hrow) as Hthree. cbv beta in Hthree.
  split; [by rewrite length_insert|].
  apply Forall_insert; [done|]. split; [by rewrite length_insert|].
  apply Forall_insert; [done|]. by rewrite length_insert.
Qed.

Lemma get3_Ok_inv (a b : nat) (arr : list (list (list A))) (i j k : Z) (x : A) :
  get3 arr i j k = Ok x → shaped a b arr →
  ∃ ni nj, axis_index a i = Ok ni ∧ axis_index b j = Ok nj.
Proof.
  unfold get3. intros Hget [Hlen Hplanes]. bind_inv Hget.
  apply seq_get_Ok_inv in Ha as (ni & Hi & Hplane).
  apply seq_get_Ok_inv in Ha0 as (nj & Hj & Hrow).
  destruct (Forall_lookup_1 _ _ _ _ Hplanes Hplane) as [Hb _].
  rewrite Hlen in Hi. rewrite Hb in Hj. eauto.
Qed.

End Arrays3Inv.

Section RadialFromVmecPrecondition.

Context `{Float F}.

Import RadialFromVmec.

Lemma np_zeros3_Ok_inv (a b : Z) (arr : list (list (list F))) :
  np_zeros3 a b = Ok arr → 0 <= a ∧ 0 <= b ∧ shaped (Z.to_nat a) (Z.to_nat b) arr.
Proof.
  intros Hz. assert (0 <= a ∧ 0 <= b) as [Ha Hb].
  { unfold np_zeros3 in Hz. destruct (Z.ltb_spec a 0), (Z.ltb_spec b 0); cbn [orb] in Hz;
      try done. }
  destruct (np_zeros3_Ok a b Ha Hb) as (arr' & Harr' & Hshaped).
  rewrite Hz in Harr'. by injection Harr' as <-.
Qed.

Lemma rfv_read_columns_inv (file : list csv_row) (xs ys zs : list string) :
  read_columns file = Ok (xs, ys, zs) →
  Forall2 (fun col cell => PyDict.get col "X" = Some cell) file xs
  ∧ Forall2 (fun col cell => PyDict.get col "Y" = Some cell) file ys
  ∧ Forall2 (fun col cell => PyDict.get col "Z" = Some cell) file zs.
Proof.
  revert xs ys zs. induction file as [|col file IH]; intros xs ys zs; cbn [read_columns].
  - intros [= <- <- <-]. repeat split; constructor.
  - intros Hread. bind_inv Hread. injection Hread as <- <- <-.
    destruct a2 as [[xs' ys'] zs']. destruct (IH xs' ys' zs' Ha2) as (Hx & Hy & Hz).
    apply csv_get_Ok_inv in Ha, Ha0, Ha1. repeat split; by constructor.
Qed.



Lemma store_cell_Ok_inv (a b : nat) (arr arr' : list (list (list F))) (i j k : Z)
    (cells : list string) (counter : Z) :
  store_cell arr i j k cells counter = Ok arr' → shaped a b arr → 0 <= counter →
  shaped a b arr'
  ∧ counter < Z.of_nat (length cells)
  ∧ ∃ cell x, cells !! Z.to_nat counter = Some cell ∧ float_of_string cell = Some x.
Proof.
  unfold store_cell. intros Hstore Harr Hcounter. bind_inv Hstore.
  apply seq_get_Ok_inv in Ha as (n & Hn & Hcell).
  apply axis_index_Ok_inv in Hn as [_ [[Hlt ->]|[Hneg _]]]; [|lia].
  apply py_float_Ok_inv in Ha0.
  split; [by eapply set3_shaped|]. split; [lia|eauto].
Qed.


Lemma fill_orig_Ok_inv (fuel : nat) (Nphi Ntheta : Z) (xs ys zs : list string)
    (arr : list (list (list F))) (r : Z * list (list (list F))) :
  fill_orig fuel Nphi Ntheta xs ys zs arr = Ok r →
  0 <= Nphi + 1 → 0 <= Ntheta + 1 →
  shaped (Z.to_nat (Nphi + 1)) (Z.to_nat (Ntheta + 1)) arr →
  shaped (Z.to_nat (Nphi + 1)) (Z.to_nat (Ntheta + 1)) r.2
  ∧ (Nphi + 1) * (Ntheta + 1) <= Z.of_nat (length xs)
  ∧ numeric_below xs ((Nphi + 1) * (Ntheta + 1))
  ∧ numeric_below ys ((Nphi + 1) * (Ntheta + 1))
  ∧ numeric_below zs ((Nphi + 1) * (Ntheta + 1)).
Proof.
  unfold fill_orig. intros Hfill Hphi Htheta Harr.
  apply bind_Ok in Hfill as ([st k] & Hloop & [= <-]). cbn [fst].
  apply while_upto_Ok in Hloop as [-> Hloop].
  set (Q := fun c : Z =>
              c <= Z.of_nat (length xs)
              ∧ numeric_below xs c ∧ numeric_below ys c ∧ numeric_below zs c).
  assert (Hst : shaped (Z.to_nat (Nphi + 1)) (Z.to_nat (Ntheta + 1)) st.2
                ∧ st.1 = (Nphi + 1) * (Ntheta + 1) ∧ Q st.1).
  { match type of Hloop with
    | for_range ?n ?first ?body ?t = Ok ?t' =>
        pose proof (for_range_preserves
          (fun Phi (st : Z * list (list (list F))) =>
             shaped (Z.to_nat (Nphi + 1)) (Z.to_nat (Ntheta + 1)) st.2
             ∧ st.1 = Phi * (Ntheta + 1) ∧ Q st.1)
          n first body t t') as Hinv
    end.
    cbv beta in Hinv. replace (0 + Z.of_nat (Z.to_nat (Nphi + 1 - 0))) with (Nphi + 1) in Hinv by lia.
    apply Hinv; [| |exact Hloop]; clear Hinv Hloop.
    - cbn [fst snd]. split; [done|]. split; [lia|]. unfold Q. repeat split; try lia; intros j; lia.
    - intros Phi st0 st1 HPhi (Hs0 & Hc0 & HQ0) Hbody.
      apply bind_Ok in Hbody as ([st2 k2] & Hinner & [= <-]). cbn [fst].
      apply while_upto_Ok in Hinner as [-> Hinner].
      match type of Hinner with
      | for_range ?n ?first ?body ?t = Ok ?t' =>
          pose proof (for_range_preserves
            (fun Theta (st : Z * list (list (list F))) =>
               shaped (Z.to_nat (Nphi + 1)) (Z.to_nat (Ntheta + 1)) st.2
               ∧ st.1 = Phi * (Ntheta + 1) + Theta ∧ Q st.1)
            n first body t t') as Hinv
      end.
      cbv beta in Hinv.
      replace (0 + Z.of_nat (Z.to_nat (Ntheta + 1 - 0))) with (Ntheta + 1) in Hinv by lia.
      destruct Hinv as (Hs2 & Hc2 & HQ2); [| |exact Hinner|].
      + split; [done|]. split; [lia|done].
      + clear Hinner. intros Theta [c a0] [c' a'] HTheta (Hsa & Hca & HQa) Hstep.
        cbn [fst snd] in *. bind_inv Hstep. injection Hstep as <- <-.
        assert (0 <= c) by nia.
        eapply store_cell_Ok_inv in Ha as (Hs1 & Hlx & cx & x & Hcx & Hx); [|done..].
        eapply store_cell_Ok_inv in Ha0 as (Hs2 & Hly & cy & y & Hcy & Hy); [|done..].
        eapply store_cell_Ok_inv in Ha1 as (Hs3 & Hlz & cz & z & Hcz & Hz); [|done..].
        split; [done|]. split; [lia|].
        destruct HQa as (_ & Hnx & Hny & Hnz).
        unfold Q. split; [lia|].
        repeat split; intros j Hj; destruct (decide (Z.of_nat j < c)) as [Hlt|Hge];
          try (by auto); replace j with (Z.to_nat c) by lia; eauto.
      + split; [done|]. split; [lia|done]. }
  destruct Hst as (Hs & Hc & Hlen & Hnx & Hny & Hnz). rewrite Hc in *. done.
Qed.


Lemma numeric_below_column (file : list csv_row) (column : string) (cells : list string) (N : Z) :
  Forall2 (fun col cell => PyDict.get col column = Some cell) file cells →
  numeric_below cells N →
  Forall (fun col => numeric_cell col column) (take (Z.to_nat N) file).
Proof.
  intros Hcells Hnum. apply Forall_lookup_2. intros j col Hcol.
  apply lookup_take_Some in Hcol as [Hcol Hj].
  destruct (Hnum j) as (cell & x & Hcell & Hx); [lia|].
  pose proof (Forall2_lookup_lr _ _ _ _ _ _ Hcells Hcol Hcell) as Hget. by exists cell, x.
Qed.




Lemma make_build_Ok_inv (fuel : nat) (file : list csv_row) (Nphi Ntheta : Z)
    (thickness_list : list F) (out : outcome) :
  make_build fuel file Nphi Ntheta thickness_list = Ok out →
  readable_boundary file Nphi Ntheta ∧ thickness_list ≠ [].
Proof.
  intros Hout. unfold make_build in Hout. cbv zeta in Hout.
  apply bind_Ok in Hout as (Coords0 & _ & Hout).
  apply bind_Ok in Hout as (zeros & Hzeros & Hout).
  apply bind_Ok in Hout as ([[xs ys] zs] & Hread & Hout). cbn [fst snd] in Hout.
  apply bind_Ok in Hout as ([counter orig] & Hfill & Hout). cbn [fst snd] in Hout.
  apply bind_Ok in Hout as (c00 & Hc00 & Hout).
  apply bind_Ok in Hout as (chalf & Hchalf & Hout).
  apply bind_Ok in Hout as ([] & Hdiv & Hout).
  apply bind_Ok in Hout as ([st k] & Hloop & _).
  apply np_zeros3_Ok_inv in Hzeros as (Hphi & Htheta & Hshaped).
  apply rfv_read_columns_inv in Hread as (Hxs & Hys & Hzs).
  eapply fill_orig_Ok_inv in Hfill as (Horig & Hlen & Hnx & Hny & Hnz);
    [|exact Hphi|exact Htheta|exact Hshaped].
  cbn [snd] in Horig.
  eapply get3_Ok_inv in Hc00 as (n0 & _ & Hn0 & _); [|exact Horig].
  eapply get3_Ok_inv in Hchalf as (_ & nh & _ & Hnh); [|exact Horig].
  apply axis_index_Ok_inv in Hn0 as [Hn0 _].
  apply axis_index_Ok_inv in Hnh as [_ Hnh].
  assert (Nphi ≠ 0) by (destruct (Z.eqb_spec Nphi 0); done).
  assert (1 <= Ntheta).
  { destruct (decide (Ntheta = -1)) as [->|]; [simpl in Hnh; lia|].
    destruct (decide (Ntheta = 0)) as [->|]; [change (0 ÷ 2) with 0 in Hnh; lia|]. lia. }
  apply while_upto_Ok in Hloop as [-> Hloop].
  change (Z.to_nat (0 + 1 - 0)) with 1%nat in Hloop. cbn [for_range] in Hloop.
  apply bind_Ok in Hloop as (st1 & Hbody & _). unfold layer_body in Hbody.
  apply bind_Ok in Hbody as (t & Ht & _).
  rewrite <- (Forall2_length _ _ _ Hxs) in Hlen.
  split; [|by intros ->].
  split; [lia|]. split; [done|]. split; [done|]. split.
  - apply Forall_lookup_2. intros j col Hcol.
    destruct (Forall2_lookup_l _ _ _ _ _ Hxs Hcol) as (? & _ & ->).
    destruct (Forall2_lookup_l _ _ _ _ _ Hys Hcol) as (? & _ & ->).
    destruct (Forall2_lookup_l _ _ _ _ _ Hzs Hcol) as (? & _ & ->). eauto.
  - pose proof (numeric_below_column _ _ _ _ Hxs Hnx) as Hfx.
    pose proof (numeric_below_column _ _ _ _ Hys Hny) as Hfy.
    pose proof (numeric_below_column _ _ _ _ Hzs Hnz) as Hfz.
    apply Forall_lookup_2. intros j col Hcol.
    pose proof (Forall_lookup_1 _ _ _ _ Hfx Hcol).
    pose proof (Forall_lookup_1 _ _ _ _ Hfy Hcol).
    pose proof (Forall_lookup_1 _ _ _ _ Hfz Hcol). done.
Qed.


End RadialFromVmecPrecondition.

Section Entries.

Context {A : Type}.

Lemma get3_entry (arr : list (list (list A))) (i j k : Z) (x : A) :
  0 <= i → 0 <= j → 0 <= k →
  get3 arr i j k = Ok x → entry3 arr (Z.to_nat i) (Z.to_nat j) (Z.to_nat k) = Some x.
Proof.
  intros Hi Hj Hk. unfold get3, entry3. intros Hget. bind_inv Hget.
  apply seq_get_Ok_inv in Ha as (ni & Hni & Hplane).
  apply seq_get_Ok_inv in Ha0 as (nj & Hnj & Hrow).
  apply seq_get_Ok_inv in Hget as (nk & Hnk & Hx).
  apply axis_index_Ok_inv in Hni as [_ [[_ ->]|[? _]]]; [|lia].
  apply axis_index_Ok_inv in Hnj as [_ [[_ ->]|[? _]]]; [|lia].
  apply axis_index_Ok_inv in Hnk as [_ [[_ ->]|[? _]]]; [|lia].
  rewrite Hplane. cbn. rewrite Hrow. cbn. done.
Qed.

Lemma set3_entry (arr arr' : list (list (list A))) (i j k : Z) (v : A) :
  0 <= i → 0 <= j → 0 <= k →
  set3 arr i j k v = Ok arr' →
  entry3 arr' (Z.to_nat i) (Z.to_nat j) (Z.to_nat k) = Some v
  ∧ ∀ i' j' k', ¬ (i' = Z.to_nat i ∧ j' = Z.to_nat j ∧ k' = Z.to_nat k) →
      entry3 arr' i' j' k' = entry3 arr i' j' k'.
Proof.
  intros Hi Hj Hk. unfold set3. intros Hset. bind_inv Hset.
  apply seq_get_Ok_inv in Ha as (ni & Hni & Hplane).
  apply seq_get_Ok_inv in Ha0 as (nj & Hnj & Hrow).
  apply seq_set_Ok_inv in Ha1 as (nk & Hnk & ->).
  apply seq_set_Ok_inv in Ha2 as (nj' & Hnj' & ->).
  apply seq_set_Ok_inv in Hset as (ni' & Hni' & ->).
  rewrite Hni in Hni'. injection Hni' as <-. rewrite Hnj in Hnj'. injection Hnj' as <-.
  apply axis_index_Ok_inv in Hni as [Hli [[_ ->]|[? _]]]; [|lia].
  apply axis_index_Ok_inv in Hnj as [Hlj [[_ ->]|[? _]]]; [|lia].
  apply axis_index_Ok_inv in Hnk as [Hlk [[_ ->]|[? _]]]; [|lia].
  unfold entry3. split.
  - rewrite list_lookup_insert_eq by done. cbn.
    rewrite list_lookup_insert_eq by done. cbn.
    by rewrite list_lookup_insert_eq by done.
  - intros i' j' k' Hne.
    destruct (decide (i' = Z.to_nat i)) as [->|Hi']; [|by rewrite list_lookup_insert_ne].
    rewrite list_lookup_insert_eq by done. rewrite Hplane. cbn.
    destruct (decide (j' = Z.to_nat j)) as [->|Hj']; [|by rewrite list_lookup_insert_ne].
    rewrite list_lookup_insert_eq by done. rewrite Hrow. cbn.
    destruct (decide (k' = Z.to_nat k)) as [->|Hk']; [by destruct Hne|].
    by rewrite list_lookup_insert_ne.
Qed.

End Entries.

(** Position [l * M + p] of a grid with rows of [M] entries names one row
    and one column. *)
Lemma grid_position_unique (M l p l' p' : Z) :
  0 <= p < M → 0 <= p' < M → l * M + p = l' * M + p' → l = l' ∧ p = p'.
Proof.
  intros Hp Hp' Heq.
  destruct (Z.div_mod_unique M l l' p p') as [-> ->]; [lia|lia|lia|done].
Qed.

(** The two nested counting loops of the script, over [Phi_count] and
    [Theta_count]: a property of the number of inner passes made so far. *)
Lemma grid_loop_preserves {T} (P : Z → T → Prop) (fuel : nat) (Nphi Ntheta : Z)
    (body : Z → Z → T → result T) (t : T) (r : T * nat) :
  while_upto fuel 0 Nphi
    (fun Phi st => r ← while_upto fuel 0 Ntheta (body Phi) st; Ok r.1) t = Ok r →
  0 <= Nphi + 1 → 0 <= Ntheta + 1 →
  P 0 t →
  (∀ Phi Theta s s', 0 <= Phi <= Nphi → 0 <= Theta <= Ntheta →
     P (Phi * (Ntheta + 1) + Theta) s → body Phi Theta s = Ok s' →
     P (Phi * (Ntheta + 1) + Theta + 1) s') →
  P ((Nphi + 1) * (Ntheta + 1)) r.1.
Proof.
  intros Hloop Hphi Htheta Ht Hbody. destruct r as [t' k]. cbn [fst].
  apply while_upto_Ok in Hloop as [-> Hloop].
  match type of Hloop with
  | for_range ?n ?first ?b ?t = Ok ?t' =>
      pose proof (for_range_preserves (fun Phi s => P (Phi * (Ntheta + 1)) s)
                    n first b t t') as Hinv
  end.
  cbv beta in Hinv.
  replace (0 + Z.of_nat (Z.to_nat (Nphi + 1 - 0))) with (Nphi + 1) in Hinv by lia.
  apply Hinv; [done| |exact Hloop]. clear Hinv Hloop.
  intros Phi s s' HPhi Hs Hrow.
  apply bind_Ok in Hrow as ([s1 k1] & Hrow & [= <-]).
  apply while_upto_Ok in Hrow as [-> Hrow].
  pose proof (for_range_preserves (fun Theta s => P (Phi * (Ntheta + 1) + Theta) s)
                (Z.to_nat (Ntheta + 1 - 0)) 0 (body Phi) s s1) as Hinv.
  cbv beta in Hinv.
  replace (0 + Z.of_nat (Z.to_nat (Ntheta + 1 - 0))) with (Ntheta + 1) in Hinv by lia.
  replace ((Phi + 1) * (Ntheta + 1)) with (Phi * (Ntheta + 1) + (Ntheta + 1)) by lia.
  apply Hinv; [by replace (Phi * (Ntheta + 1) + 0) with (Phi * (Ntheta + 1)) by lia| |exact Hrow].
  intros Theta s2 s3 HTheta Hs2 Hstep.
  replace (Phi * (Ntheta + 1) + (Theta + 1)) with (Phi * (Ntheta + 1) + Theta + 1) by lia.
  eapply Hbody; [| |exact Hs2|exact Hstep]; lia.
Qed.

Section RadialFromVmecGeometry.

Context `{Float F}.

Import RadialFromVmec.

Lemma store_cell_entry (arr arr' : list (list (list F))) (i j k : Z)
    (cells : list string) (counter : Z) :
  0 <= i → 0 <= j → 0 <= k → 0 <= counter →
  store_cell arr i j k cells counter = Ok arr' →
  (∃ v, cell_float cells (Z.to_nat counter) = Some v
        ∧ entry3 arr' (Z.to_nat i) (Z.to_nat j) (Z.to_nat k) = Some v)
  ∧ ∀ i' j' k', ¬ (i' = Z.to_nat i ∧ j' = Z.to_nat j ∧ k' = Z.to_nat k) →
      entry3 arr' i' j' k' = entry3 arr i' j' k'.
Proof.
  intros Hi Hj Hk Hcounter. unfold store_cell. intros Hstore. bind_inv Hstore.
  apply seq_get_Ok_inv in Ha as (n & Hn & Hcell).
  apply axis_index_Ok_inv in Hn as [_ [[Hlt ->]|[Hneg _]]]; [|lia].
  apply py_float_Ok_inv in Ha0.
  apply set3_entry in Hstore as [Hnew Hold]; [|done..].
  split; [|done]. exists a0. split; [|done]. unfold cell_float. by rewrite Hcell.
Qed.


Lemma fill_orig_entries (fuel : nat) (Nphi Ntheta : Z) (xs ys zs : list string)
    (arr : list (list (list F))) (r : Z * list (list (list F))) :
  fill_orig fuel Nphi Ntheta xs ys zs arr = Ok r →
  0 <= Nphi + 1 → 0 <= Ntheta + 1 →
  ∀ l p, 0 <= l <= Nphi → 0 <= p <= Ntheta →
    holds_row xs ys zs r.2 l p (l * (Ntheta + 1) + p).
Proof.
  unfold fill_orig. intros Hfill Hphi Htheta.
  apply bind_Ok in Hfill as ([st k] & Hloop & [= <-]).
  apply (grid_loop_preserves
           (fun c (st : Z * list (list (list F))) =>
              st.1 = c
              ∧ ∀ l p, 0 <= l → 0 <= p <= Ntheta → l * (Ntheta + 1) + p < c →
                  holds_row xs ys zs st.2 l p (l * (Ntheta + 1) + p)))
    in Hloop; [| done | done | |].
  - destruct Hloop as [_ Hall]. cbn [fst] in *. intros l p Hl Hp. apply Hall; [lia|lia|nia].
  - split; [done|]. intros l p Hl Hp Hlt. cbn [fst] in Hlt. nia.
  - intros Phi Theta [c a] [c' a'] HPhi HTheta [Hc Hall] Hstep. cbn [fst snd] in *.
    subst c. bind_inv Hstep. injection Hstep as <- <-.
    assert (0 <= Phi * (Ntheta + 1) + Theta) by nia.
    apply store_cell_entry in Ha as [(x & Hx & Hex) Ho1]; [|lia..].
    apply store_cell_entry in Ha0 as [(y & Hy & Hey) Ho2]; [|lia..].
    apply store_cell_entry in Ha1 as [(z & Hz & Hez) Ho3]; [|lia..].
    split; [done|]. intros l p Hl Hp Hlt.
    destruct (decide (l * (Ntheta + 1) + p < Phi * (Ntheta + 1) + Theta)) as [Hbefore|Hnow].
    + destruct (Hall l p Hl Hp Hbefore) as (x' & y' & z' & Hx' & Hy' & Hz' & Hex' & Hey' & Hez').
      assert (Hpos : ¬ (Z.to_nat l = Z.to_nat Phi ∧ Z.to_nat p = Z.to_nat Theta)).
      { intros [Hl' Hp']. assert (l = Phi) by lia. assert (p = Theta) by lia. subst. lia. }
      exists x', y', z'. repeat split; try done.
      * rewrite Ho3, Ho2, Ho1; [done|..]; intros (? & ? & ?); by apply Hpos.
      * rewrite Ho3, Ho2, Ho1; [done|..]; intros (? & ? & ?); by apply Hpos.
      * rewrite Ho3, Ho2, Ho1; [done|..]; intros (? & ? & ?); by apply Hpos.
    + destruct (grid_position_unique (Ntheta + 1) l p Phi Theta) as [-> ->]; [lia|lia|lia|].
      exists x, y, z. repeat split; try done.
      * rewrite Ho3, Ho2; [done|..]; intros (? & ? & ?); done.
      * rewrite Ho3; [done|]. intros (? & ? & ?); done.
Qed.


Lemma copy_coords_entries (fuel : nat) (Nphi Ntheta : Z)
    (Coords_orig Coords Coords' : list (list (list F))) :
  copy_coords fuel Nphi Ntheta 0 Coords_orig Coords = Ok Coords' →
  0 <= Nphi + 1 → 0 <= Ntheta + 1 →
  ∀ l p (k : nat), 0 <= l <= Nphi → 0 <= p <= Ntheta → (k < 3)%nat →
    is_Some (entry3 Coords_orig (Z.to_nat l) (Z.to_nat p) k)
    ∧ entry3 Coords' (Z.to_nat l) (Z.to_nat p) k
      = entry3 Coords_orig (Z.to_nat l) (Z.to_nat p) k.
Proof.
  unfold copy_coords. intros Hcopy Hphi Htheta.
  apply bind_Ok in Hcopy as ([st n] & Hloop & [= <-]).
  pose proof (grid_loop_preserves
           (fun c (C : list (list (list F))) =>
              ∀ l p (k : nat), 0 <= l → 0 <= p <= Ntheta → l * (Ntheta + 1) + p < c →
                (k < 3)%nat →
                is_Some (entry3 Coords_orig (Z.to_nat l) (Z.to_nat p) k)
                ∧ entry3 C (Z.to_nat l) (Z.to_nat p) k
                  = entry3 Coords_orig (Z.to_nat l) (Z.to_nat p) k)
           _ _ _ _ _ _ Hloop Hphi Htheta) as Hinv.
  cbv beta in Hinv. cbn [fst] in Hinv.
  intros l0 p0 k0 Hl0 Hp0 Hk0. apply Hinv; [| |lia|lia|nia|done]; clear Hinv Hloop.
  - intros l' p' k' Hl' Hp' Hlt. nia.
  - intros Phi Theta a a' HPhi HTheta Hall Hstep. change (0 =? 0) with true in Hstep.
    cbv iota in Hstep. bind_inv Hstep.
    apply get3_entry in Ha as Hx, Ha1 as Hy, Ha3 as Hz; [|lia..].
    apply set3_entry in Ha0 as [Hn1 Ho1], Ha2 as [Hn2 Ho2], Hstep as [Hn3 Ho3]; [|lia..].
    change (Z.to_nat 0) with 0%nat in *. change (Z.to_nat 1) with 1%nat in *.
    change (Z.to_nat 2) with 2%nat in *.
    intros l p k Hl Hp Hlt Hk.
    destruct (decide (l * (Ntheta + 1) + p < Phi * (Ntheta + 1) + Theta)) as [Hbefore|Hnow].
    + assert (Hpos : ¬ (Z.to_nat l = Z.to_nat Phi ∧ Z.to_nat p = Z.to_nat Theta)).
      { intros [Hl' Hp']. assert (l = Phi) by lia. assert (p = Theta) by lia. subst. lia. }
      destruct (Hall l p k Hl Hp Hbefore Hk) as [Hsome Heq]. split; [done|].
      rewrite Ho3, Ho2, Ho1; [done|..]; intros (? & ? & ?); by apply Hpos.
    + destruct (grid_position_unique (Ntheta + 1) l p Phi Theta) as [-> ->]; [lia|lia|lia|].
      destruct k as [|[|[|k]]]; [| | |lia].
      * rewrite Hx. split; [done|]. rewrite Ho3, Ho2; [done|..]; intros (? & ? & ?); done.
      * rewrite Hy. split; [done|]. rewrite Ho3; [done|]. intros (? & ? & ?); done.
      * rewrite Hz. split; [done|]. done.
Qed.

End RadialFromVmecGeometry.

(** The nested loops over [loop_num] and [count]: a property of [count]. *)
Lemma count_loop_preserves {T} (P : Z → T → Prop) (fuel : nat) (Nphi Ntheta : Z)
    (last : Z → Z) (body : Z → Z → T → result T) (t : T) (r : T * nat) :
  while_upto fuel 1 Nphi
    (fun loop_num st =>
       r ← while_upto fuel (RadialFromVmec.loop_count_min loop_num (Ntheta + 1))
             (last loop_num) (body loop_num) st;
       Ok r.1) t = Ok r →
  (∀ loop_num,
     last loop_num = RadialFromVmec.loop_count_min loop_num (Ntheta + 1) + Ntheta - 1) →
  0 <= Nphi → 0 <= Ntheta →
  P 0 t →
  (∀ loop_num count s s', 1 <= loop_num <= Nphi →
     (loop_num - 1) * Ntheta <= count < loop_num * Ntheta →
     P count s → body loop_num count s = Ok s' → P (count + 1) s') →
  P (Nphi * Ntheta) r.1.
Proof.
  intros Hloop Hlast Hphi Htheta Ht Hbody. destruct r as [t' k]. cbn [fst].
  apply while_upto_Ok in Hloop as [-> Hloop].
  match type of Hloop with
  | for_range ?n ?first ?b ?t = Ok ?t' =>
      pose proof (for_range_preserves (fun loop_num s => P ((loop_num - 1) * Ntheta) s)
                    n first b t t') as Hinv
  end.
  cbv beta in Hinv.
  replace ((1 + Z.of_nat (Z.to_nat (Nphi + 1 - 1)) - 1) * Ntheta) with (Nphi * Ntheta)
    in Hinv by (f_equal; lia).
  apply Hinv; [done| |exact Hloop]. clear Hinv Hloop.
  intros loop_num s s' Hnum Hs Hrow.
  apply bind_Ok in Hrow as ([s1 k1] & Hrow & [= <-]).
  apply while_upto_Ok in Hrow as [-> Hrow].
  rewrite Hlast in Hrow. unfold RadialFromVmec.loop_count_min in Hrow.
  replace ((loop_num - 1) * (Ntheta + 1) - 1 * (loop_num - 1)) with ((loop_num - 1) * Ntheta)
    in Hrow by lia.
  replace (Z.to_nat ((loop_num - 1) * Ntheta + Ntheta - 1 + 1 - (loop_num - 1) * Ntheta))
    with (Z.to_nat Ntheta) in Hrow by lia.
  pose proof (for_range_preserves P (Z.to_nat Ntheta) ((loop_num - 1) * Ntheta)
                (body loop_num) s s1) as Hinv.
  replace ((loop_num - 1) * Ntheta + Z.of_nat (Z.to_nat Ntheta))
    with ((loop_num + 1 - 1) * Ntheta) in Hinv by lia.
  apply Hinv; [done| |exact Hrow].
  intros count s2 s3 Hcount Hs2 Hstep. eapply Hbody; [| |exact Hs2|exact Hstep]; lia.
Qed.

Section RadialFromVmecCallsProperties.

Context `{Float F}.

Import RadialFromVmec.

Lemma add_points_calls (fuel : nat) (Nphi Ntheta : Z) (C : list (list (list F)))
    (calls calls' : list (gmsh_call (F := F))) :
  add_points fuel Nphi (Ntheta + 1) C calls = Ok calls' → 0 <= Nphi → 0 <= Ntheta →
  ∃ pts, calls' = calls ++ pts
    ∧ Z.of_nat (length pts) = Nphi * Ntheta
    ∧ Forall (fun c => is_point c = true) pts
    ∧ ∀ l p, 0 <= l < Nphi → 0 <= p < Ntheta →
        ∃ x y z,
          entry3 C (Z.to_nat l) (Z.to_nat p) 0 = Some x
          ∧ entry3 C (Z.to_nat l) (Z.to_nat p) 1 = Some y
          ∧ entry3 C (Z.to_nat l) (Z.to_nat p) 2 = Some z
          ∧ pts !! Z.to_nat (l * Ntheta + p)
            = Some (occ_addPoint x y z (f_of_Z 1) (l * Ntheta + p)).
Proof.
  unfold add_points. cbv zeta. intros Hadd Hphi Htheta.
  apply bind_Ok in Hadd as ([cs n] & Hloop & [= <-]).
  pose proof (count_loop_preserves
    (fun c (cs : list (gmsh_call (F := F))) =>
       ∃ pts, cs = calls ++ pts
         ∧ Z.of_nat (length pts) = c
         ∧ Forall (fun c => is_point c = true) pts
         ∧ ∀ l p, 0 <= l → 0 <= p < Ntheta → l * Ntheta + p < c →
             ∃ x y z,
               entry3 C (Z.to_nat l) (Z.to_nat p) 0 = Some x
               ∧ entry3 C (Z.to_nat l) (Z.to_nat p) 1 = Some y
               ∧ entry3 C (Z.to_nat l) (Z.to_nat p) 2 = Some z
               ∧ pts !! Z.to_nat (l * Ntheta + p)
                 = Some (occ_addPoint x y z (f_of_Z 1) (l * Ntheta + p)))
    fuel Nphi Ntheta
    (fun loop_num => loop_count_min loop_num (Ntheta + 1) + (Ntheta + 1) - 1 - 1)
    _ _ _ Hloop) as Hinv.
  cbv beta in Hinv. cbn [fst] in Hinv.
  destruct Hinv as (pts & -> & Hlen & Hkind & Hall); [intros; lia|done|done| | |].
  - exists []. rewrite app_nil_r. split; [done|]. split; [done|]. split; [constructor|].
    intros l p Hl Hp Hlt. nia.
  - clear Hloop. intros loop_num count s s' Hnum Hcount (pts & -> & Hlen & Hkind & Hall) Hstep.
    unfold loop_count_min in Hstep.
    replace (count - ((loop_num - 1) * (Ntheta + 1) - 1 * (loop_num - 1)))
      with (count - (loop_num - 1) * Ntheta) in Hstep by lia.
    bind_inv Hstep. injection Hstep as <-.
    apply get3_entry in Ha, Ha0, Ha1; [|lia..].
    eexists (pts ++ [_]). rewrite app_assoc. split; [done|].
    split; [rewrite length_app; simpl; lia|].
    split; [apply Forall_app; split; [done|by repeat constructor]|].
    intros l p Hl Hp Hlt.
    destruct (decide (l * Ntheta + p < count)) as [Hbefore|Hnow].
    + destruct (Hall l p Hl Hp Hbefore) as (x & y & z & Hx & Hy & Hz & Hpt).
      exists x, y, z. rewrite lookup_app_l by lia. done.
    + destruct (grid_position_unique Ntheta l p (loop_num - 1) (count - (loop_num - 1) * Ntheta))
        as [-> ->]; [lia|lia|lia|].
      exists a, a0, a1. split; [done|]. split; [done|]. split; [done|].
      replace ((loop_num - 1) * Ntheta + (count - (loop_num - 1) * Ntheta)) with count by lia.
      rewrite lookup_app_r by lia. by replace (Z.to_nat count - length pts)%nat with 0%nat by lia.
  - exists pts. split; [done|]. split; [done|]. split; [done|].
    intros l p Hl Hp. apply Hall; [lia|lia|nia].
Qed.

Lemma add_lines_calls (fuel : nat) (Nphi Ntheta line_shift : Z)
    (calls calls' : list (gmsh_call (F := F))) :
  add_lines fuel Nphi (Ntheta + 1) line_shift calls = Ok calls' → 0 <= Nphi → 0 <= Ntheta →
  ∃ ls, calls' = calls ++ ls
    ∧ Z.of_nat (length ls) = 2 * (Nphi * Ntheta)
    ∧ Forall (fun c => is_line c = true) ls.
Proof.
  unfold add_lines. cbv zeta. intros Hadd Hphi Htheta.
  apply bind_Ok in Hadd as ([cs n] & Hloop & [= <-]).
  pose proof (count_loop_preserves
    (fun c (cs : list (gmsh_call (F := F))) =>
       ∃ ls, cs = calls ++ ls
         ∧ Z.of_nat (length ls) = 2 * c
         ∧ Forall (fun c => is_line c = true) ls)
    fuel Nphi Ntheta
    (fun loop_num => loop_count_min loop_num (Ntheta + 1) + (Ntheta + 1) - 1 - 1)
    _ _ _ Hloop) as Hinv.
  cbv beta in Hinv. cbn [fst] in Hinv.
  apply Hinv; [intros; lia|done|done| |]; clear Hinv Hloop.
  - exists []. rewrite app_nil_r. split; [done|]. split; [done|]. constructor.
  - intros loop_num count s s' Hnum Hcount (ls & -> & Hlen & Hlines) [= <-].
    eexists (ls ++ [_; _]). rewrite app_assoc. split; [done|].
    split; [rewrite length_app; simpl; lia|].
    apply Forall_app. split; [done|].
    destruct (count =? _), (loop_num =? Nphi); repeat constructor.
Qed.

Lemma add_surfaces_calls (fuel : nat) (Nphi Ntheta line_shift final_point layer_count : Z)
    (calls : list (gmsh_call (F := F))) (sf : list Z * list (gmsh_call (F := F))) :
  add_surfaces fuel Nphi (Ntheta + 1) line_shift final_point layer_count calls = Ok sf →
  0 <= Nphi → 0 <= Ntheta → 0 <= final_point < Nphi * Ntheta →
  ∃ ss, sf.2 = calls ++ ss
    ∧ Forall (fun c => is_surface_call c = true) ss
    ∧ surface_tags ss = seqZ 0 (Nphi * Ntheta)
    ∧ surface_loops ss = [(seqZ 0 (final_point + 1), layer_count + 1)]
    ∧ volumes ss = [([layer_count + 1], layer_count + 1)].
Proof.
  unfold add_surfaces. cbv zeta. intros Hadd Hphi Htheta Hfinal.
  apply bind_Ok in Hadd as ([st n] & Hloop & [= <-]).
  pose proof (count_loop_preserves
    (fun c (st : list Z * list (gmsh_call (F := F))) =>
       st.1 = seqZ 0 c
       ∧ ∃ ss, st.2 = calls ++ ss
           ∧ Forall (fun c => is_surface_call c = true) ss
           ∧ surface_tags ss = seqZ 0 c
           ∧ surface_loops ss
             = (if decide (final_point < c)
                then [(seqZ 0 (final_point + 1), layer_count + 1)] else [])
           ∧ volumes ss
             = (if decide (final_point < c)
                then [([layer_count + 1], layer_count + 1)] else []))
    fuel Nphi Ntheta
    (fun loop_num => loop_count_min loop_num (Ntheta + 1) + (Ntheta + 1) - 2)
    _ _ _ Hloop) as Hinv.
  cbv beta in Hinv. cbn [fst snd] in Hinv.
  destruct Hinv as (_ & ss & Hss & Hkind & Htags & Hloops & Hvols); [intros; lia|done|done| | |].
  - split; [done|]. exists []. rewrite app_nil_r. rewrite !decide_False by lia.
    repeat split; constructor.
  - clear Hloop. intros loop_num count [tags cs] st' Hnum Hcount
      (Htags & ss & Hcs & Hkind & Hstags & Hloops & Hvols) Hstep.
    cbn [fst snd] in *. subst tags cs.
    assert (Hnext : seqZ 0 count ++ [count] = seqZ 0 (count + 1)).
    { rewrite seqZ_app by nia. simpl. done. }
    rewrite Hnext in Hstep.
    unfold surface_tags, surface_loops, volumes in *.
    destruct (Z.eqb_spec count final_point) as [->|Hne]; injection Hstep as <-; cbn [fst snd].
    + split; [done|]. eexists (ss ++ [_; _; _; _]). rewrite <- !app_assoc.
      split; [done|]. split; [apply Forall_app; split; [done|repeat constructor]|].
      rewrite !omap_app, Hstags, Hloops, Hvols, <- Hnext.
      simpl. rewrite ?app_nil_r. repeat case_decide; try lia; done.
    + split; [done|]. eexists (ss ++ [_; _]). rewrite <- !app_assoc.
      split; [done|]. split; [apply Forall_app; split; [done|repeat constructor]|].
      rewrite !omap_app, Hstags, Hloops, Hvols, <- Hnext.
      simpl. rewrite ?app_nil_r. repeat case_decide; try lia; done.
  - exists ss. repeat case_decide; try lia. done.
Qed.

End RadialFromVmecCallsProperties.

Lemma omap_none {A B} (f : A → option B) (l : list A) :
  Forall (fun a => f a = None) l → omap f l = [].
Proof. induction 1 as [|a l Ha _ IH]; [done|]. cbn. by rewrite Ha. Qed.

Section RadialFromVmecGeometryTheorems.

Context `{Float F}.

Import RadialFromVmec.

(** The calls of one pass of the layer loop: the points, the lines, the
    surfaces with their loop and volume, then the export. *)
Lemma layer_body_calls (fuel : nat) (Nphi Ntheta : Z) (thickness_list : list F)
    (Coords_orig : list (list (list F))) (st0 st : layer_state) :
  layer_body fuel Nphi Ntheta thickness_list Coords_orig 0 st0 = Ok st →
  1 <= Nphi → 1 <= Ntheta →
  ∃ pts ls ss,
    calls st = calls st0 ++ pts ++ ls ++ ss
               ++ [occ_synchronize; mesh_generate 3; write "layer_0.step"]
    ∧ Z.of_nat (length pts) = Nphi * Ntheta
    ∧ Forall (fun c => is_point c = true) pts
    ∧ (∀ l p, 0 <= l < Nphi → 0 <= p < Ntheta →
         ∃ x y z,
           entry3 Coords_orig (Z.to_nat l) (Z.to_nat p) 0 = Some x
           ∧ entry3 Coords_orig (Z.to_nat l) (Z.to_nat p) 1 = Some y
           ∧ entry3 Coords_orig (Z.to_nat l) (Z.to_nat p) 2 = Some z
           ∧ pts !! Z.to_nat (l * Ntheta + p)
             = Some (occ_addPoint x y z (f_of_Z 1) (l * Ntheta + p)))
    ∧ Z.of_nat (length ls) = 2 * (Nphi * Ntheta)
    ∧ Forall (fun c => is_line c = true) ls
    ∧ Forall (fun c => is_surface_call c = true) ss
    ∧ surface_tags ss = seqZ 0 (Nphi * Ntheta)
    ∧ surface_loops ss = [(seqZ 0 (Nphi * Ntheta), 1)]
    ∧ volumes ss = [([1], 1)].
Proof.
  unfold layer_body. intros Hrun Hphi Htheta.
  apply bind_Ok in Hrun as (t & _ & Hrun). apply bind_Ok in Hrun as (t0 & _ & Hrun).
  cbv zeta in Hrun.
  apply bind_Ok in Hrun as (C & Hcopy & Hrun). apply bind_Ok in Hrun as (u & _ & Hrun).
  apply bind_Ok in Hrun as (c1 & Hpoints & Hrun).
  apply bind_Ok in Hrun as (c2 & Hlines & Hrun).
  apply bind_Ok in Hrun as (sf & Hsurfaces & [= <-]). cbn [calls].
  apply add_points_calls in Hpoints as (pts & -> & Hnpts & Hkpts & Hpts); [|lia..].
  apply add_lines_calls in Hlines as (ls & -> & Hnls & Hkls); [|lia..].
  apply add_surfaces_calls in Hsurfaces as (ss & -> & Hkss & Htags & Hloops & Hvols); [|nia..].
  exists pts, ls, ss. rewrite <- !app_assoc. split; [done|]. split; [done|]. split; [done|].
  split.
  { intros l p Hl Hp. destruct (Hpts l p Hl Hp) as (x & y & z & Hx & Hy & Hz & Hpt).
    exists x, y, z.
    destruct (copy_coords_entries _ _ _ _ _ _ Hcopy ltac:(lia) ltac:(lia) l p 0%nat) as [_ <-];
      [lia..|].
    destruct (copy_coords_entries _ _ _ _ _ _ Hcopy ltac:(lia) ltac:(lia) l p 1%nat) as [_ <-];
      [lia..|].
    destruct (copy_coords_entries _ _ _ _ _ _ Hcopy ltac:(lia) ltac:(lia) l p 2%nat) as [_ <-];
      [lia..|].
    done. }
  split; [done|]. split; [done|]. split; [done|]. split; [done|].
  split; [|done]. rewrite Hloops. do 3 f_equal. lia.
Qed.

(** A returning call ran one pass of the layer loop on the array filled
    from the file, starting from the five set-up calls. *)
Lemma make_build_run (fuel : nat) (file : list csv_row) (Nphi Ntheta : Z)
    (thickness_list : list F) (out : outcome) :
  make_build fuel file Nphi Ntheta thickness_list = Ok out →
  ∃ zeros xs ys zs filled st0 st,
    read_columns file = Ok (xs, ys, zs)
    ∧ fill_orig fuel Nphi Ntheta xs ys zs zeros = Ok filled
    ∧ calls st0 = [initialize;
                   option_setNumber "General.NumThreads" 16;
                   option_setNumber "General.Terminal" 1;
                   model_add "stell_layers";
                   option_setString "Geometry.OCCTargetUnit" "M"]
    ∧ layer_body fuel Nphi Ntheta thickness_list filled.2 0 st0 = Ok st
    ∧ gmsh out = calls st.
Proof.
  intros Hout. unfold make_build in Hout. cbv zeta in Hout.
  apply bind_Ok in Hout as (Coords0 & _ & Hout).
  apply bind_Ok in Hout as (zeros & _ & Hout).
  apply bind_Ok in Hout as ([[xs ys] zs] & Hread & Hout). cbn [fst snd] in Hout.
  apply bind_Ok in Hout as (filled & Hfill & Hout).
  apply bind_Ok in Hout as (c00 & _ & Hout).
  apply bind_Ok in Hout as (chalf & _ & Hout).
  apply bind_Ok in Hout as ([] & _ & Hout).
  apply bind_Ok in Hout as ([st k] & Hloop & [= <-]).
  apply while_upto_Ok in Hloop as [-> Hloop].
  change (Z.to_nat (0 + 1 - 0)) with 1%nat in Hloop. cbn [for_range] in Hloop.
  apply bind_Ok in Hloop as (st1 & Hbody & [= <-]).
  eexists zeros, xs, ys, zs, filled, _, st1. split; [done|]. split; [done|].
  split; [|split; [exact Hbody|done]]. done.
Qed.

Lemma cell_float_value (file : list csv_row) (column : string) (cells : list string)
    (j : nat) (x : F) :
  Forall2 (fun col cell => PyDict.get col column = Some cell) file cells →
  cell_float cells j = Some x →
  ∃ col, file !! j = Some col ∧ cell_value col column = Some x.
Proof.
  intros Hcells Hx. unfold cell_float in Hx.
  destruct (cells !! j) as [cell|] eqn:Hcell; [|done]. cbn in Hx.
  destruct (Forall2_lookup_r _ _ _ _ _ Hcells Hcell) as (col & Hcol & Hget).
  exists col. split; [done|]. unfold cell_value. rewrite Hget. done.
Qed.

(** X7.  Which points reach gmsh.  After the five set-up calls, a returning call
    adds [Nphi * Ntheta] points and no point later on.  The point of loop
    [l] and place [p] has the tag [l * Ntheta + p], mesh size 1, and the
    coordinates of row [l * (Ntheta + 1) + p] of the file: the last point of
    every loop of the file and its last loop are read, and left out. *)
Theorem make_build_points (fuel : nat) (file : list csv_row) (Nphi Ntheta : Z)
    (thickness_list : list F) (out : outcome) :
  make_build fuel file Nphi Ntheta thickness_list = Ok out →
  ∃ pts rest,
    gmsh out = [initialize;
                option_setNumber "General.NumThreads" 16;
                option_setNumber "General.Terminal" 1;
                model_add "stell_layers";
                option_setString "Geometry.OCCTargetUnit" "M"] ++ pts ++ rest
    ∧ Z.of_nat (length pts) = Nphi * Ntheta
    ∧ Forall (fun c => is_point c = false) rest
    ∧ ∀ l p, 0 <= l < Nphi → 0 <= p < Ntheta →
        ∃ col x y z,
          file !! Z.to_nat (l * (Ntheta + 1) + p) = Some col
          ∧ cell_value col "X" = Some x
          ∧ cell_value col "Y" = Some y
          ∧ cell_value col "Z" = Some z
          ∧ pts !! Z.to_nat (l * Ntheta + p)
            = Some (occ_addPoint x y z (f_of_Z 1) (l * Ntheta + p)).
Proof.
  intros Hout.
  destruct (make_build_Ok_inv _ _ _ _ _ _ Hout) as [(Hphi & Htheta & _) _].
  destruct (make_build_run _ _ _ _ _ _ Hout)
    as (zeros & xs & ys & zs & filled & st0 & st & Hread & Hfill & Hsetup & Hbody & ->).
  apply rfv_read_columns_inv in Hread as (Hxs & Hys & Hzs).
  destruct (layer_body_calls _ _ _ _ _ _ _ Hbody Hphi Htheta)
    as (pts & ls & ss & -> & Hnpts & _ & Hpts & _ & Hkls & Hkss & _).
  rewrite Hsetup.
  exists pts, (ls ++ ss ++ [occ_synchronize; mesh_generate 3; write "layer_0.step"]).
  split; [done|]. split; [done|]. split.
  { apply Forall_app. split; [|apply Forall_app; split; [|by repeat constructor]].
    - eapply Forall_impl; [exact Hkls|]. by intros [].
    - eapply Forall_impl; [exact Hkss|]. by intros []. }
  intros l p Hl Hp. destruct (Hpts l p Hl Hp) as (x & y & z & Hx & Hy & Hz & Hpt).
  destruct (fill_orig_entries _ _ _ _ _ _ _ _ Hfill ltac:(lia) ltac:(lia) l p)
    as (x' & y' & z' & Hcx & Hcy & Hcz & Hx' & Hy' & Hz'); [lia..|].
  unfold array3 in *.
  assert (x' = x) as -> by congruence. assert (y' = y) as -> by congruence.
  assert (z' = z) as -> by congruence.
  destruct (cell_float_value _ _ _ _ _ Hxs Hcx) as (col & Hcol & Hvx).
  destruct (cell_float_value _ _ _ _ _ Hys Hcy) as (col' & Hcol' & Hvy).
  destruct (cell_float_value _ _ _ _ _ Hzs Hcz) as (col'' & Hcol'' & Hvz).
  rewrite Hcol in Hcol', Hcol''. injection Hcol' as <-. injection Hcol'' as <-.
  exists col, x, y, z. done.
Qed.

(** X8.  What is built on the points.  A returning call adds two lines per point,
    one surface per point with the tags [0] to [Nphi * Ntheta - 1], one
    surface loop with the tag 1 that lists all these surfaces in order, and
    one volume with the tag 1 bounded by that loop. *)
Theorem make_build_volume (fuel : nat) (file : list csv_row) (Nphi Ntheta : Z)
    (thickness_list : list F) (out : outcome) :
  make_build fuel file Nphi Ntheta thickness_list = Ok out →
  Z.of_nat (length (List.filter is_line (gmsh out))) = 2 * (Nphi * Ntheta)
  ∧ surface_tags (gmsh out) = seqZ 0 (Nphi * Ntheta)
  ∧ surface_loops (gmsh out) = [(seqZ 0 (Nphi * Ntheta), 1)]
  ∧ volumes (gmsh out) = [([1], 1)].
Proof.
  intros Hout.
  destruct (make_build_Ok_inv _ _ _ _ _ _ Hout) as [(Hphi & Htheta & _) _].
  destruct (make_build_run _ _ _ _ _ _ Hout)
    as (zeros & xs & ys & zs & filled & st0 & st & _ & _ & Hsetup & Hbody & ->).
  destruct (layer_body_calls _ _ _ _ _ _ _ Hbody Hphi Htheta)
    as (pts & ls & ss & -> & _ & Hkpts & _ & Hnls & Hkls & Hkss & Htags & Hloops & Hvols).
  rewrite Hsetup.
  assert (Hpts : ∀ {B} (f : gmsh_call → option B),
             (∀ x y z m tag, f (occ_addPoint x y z m tag) = None) → omap f pts = []).
  { intros B f Hf. apply omap_none. eapply Forall_impl; [exact Hkpts|]. by intros []. }
  assert (Hls : ∀ {B} (f : gmsh_call → option B),
             (∀ a b tag, f (occ_addLine a b tag) = None) → omap f ls = []).
  { intros B f Hf. apply omap_none. eapply Forall_impl; [exact Hkls|]. by intros []. }
  split; [|split; [|split]].
  - rewrite !List.filter_app, !length_app. cbn [List.filter is_line length].
    assert (List.filter is_line pts = []) as ->.
    { clear -Hkpts. induction Hkpts as [|c pts Hc _ IH]; [done|]. by destruct c. }
    assert (List.filter is_line ls = ls) as ->.
    { clear -Hkls. induction Hkls as [|c ls Hc _ IH]; [done|]. cbn. rewrite Hc. by f_equal. }
    assert (List.filter is_line ss = []) as ->.
    { clear -Hkss. induction Hkss as [|c ss Hc _ IH]; [done|]. by destruct c. }
    cbn [length]. lia.
  - unfold surface_tags in *. rewrite !omap_app, Hpts, Hls, Htags by done.
    cbn. by rewrite app_nil_r.
  - unfold surface_loops in *. rewrite !omap_app, Hpts, Hls, Hloops by done. done.
  - unfold volumes in *. rewrite !omap_app, Hpts, Hls, Hvols by done. done.
Qed.

End RadialFromVmecGeometryTheorems.

(** ** json_append/json_append.py: key order and composition *)

Section DictOrder.

Context {V : Type}.

Implicit Types (d : list (string * V)) (k : string) (v : V).

Lemma map_overridden_other d k v :
  k ∉ PyDict.keys d → map (overridden [(k, v)]) d = d.
Proof.
  unfold PyDict.keys. induction d as [|[k1 v1] d IH]; simpl; [done|].
  rewrite not_elem_of_cons. intros [Hne Hk]. unfold overridden at 1. simpl.
  destruct (String.eqb_spec k k1); [congruence|]. simpl. f_equal. by apply IH.
Qed.

Lemma dict_setitem_old d k v :
  PyDict.well_formed d → k ∈ PyDict.keys d →
  PyDict.setitem d k v = map (overridden [(k, v)]) d.
Proof.
  unfold PyDict.well_formed.
  induction d as [|[k0 v0] d IH]; simpl; [intros _ Hk; inversion Hk|].
  rewrite NoDup_cons, elem_of_cons. intros [Hk0 Hd] Hk. unfold overridden at 1. simpl.
  destruct (String.eqb_spec k0 k) as [->|Hne].
  - rewrite String.eqb_refl. simpl. by rewrite map_overridden_other.
  - destruct (String.eqb_spec k k0); [congruence|]. simpl. f_equal.
    apply IH; [done|]. by destruct Hk.
Qed.

Lemma map_overridden_absent d other k v :
  k ∉ PyDict.keys d →
  map (overridden ((k, v) :: other)) d = map (overridden other) d.
Proof.
  unfold PyDict.keys. induction d as [|[k0 v0] d IH]; simpl; [done|].
  rewrite not_elem_of_cons. intros [Hne Hk]. unfold overridden at 1 3. simpl.
  destruct (String.eqb_spec k k0); [congruence|]. f_equal. by apply IH.
Qed.

Lemma map_overridden_cons d other k v :
  k ∉ PyDict.keys other →
  map (overridden ((k, v) :: other)) d = map (overridden other) (map (overridden [(k, v)]) d).
Proof.
  intros Hk. rewrite map_map. apply map_ext. intros [k0 v0]. unfold overridden. simpl.
  destruct (String.eqb_spec k k0) as [->|Hne]; simpl; [|done].
  by rewrite (proj2 (dict_get_None other k0) Hk).
Qed.

Lemma keys_map_overridden d other :
  PyDict.keys (map (overridden other) d) = PyDict.keys d.
Proof. unfold PyDict.keys. rewrite map_map. by apply map_ext. Qed.

Lemma get_map_overridden d other k :
  PyDict.get (map (overridden other) d) k
  = match PyDict.get d k with
    | Some v => Some (default v (PyDict.get other k))
    | None => None
    end.
Proof.
  induction d as [|[k0 v0] d IH]; simpl; [done|].
  destruct (String.eqb_spec k0 k) as [->|Hne]; [done|apply IH].
Qed.

Lemma filter_is_new_ext d d' other :
  (∀ k, k ∈ PyDict.keys other → (PyDict.get d k = None ↔ PyDict.get d' k = None)) →
  List.filter (is_new d) other = List.filter (is_new d') other.
Proof.
  unfold PyDict.keys. induction other as [|[k v] other IH]; simpl; [done|].
  intros Hext. rewrite IH by (intros k' Hk'; apply Hext; by right).
  unfold is_new. simpl. specialize (Hext k ltac:(by left)).
  destruct (PyDict.get d k), (PyDict.get d' k); try done.
  - by pose proof (proj2 Hext eq_refl).
  - by pose proof (proj1 Hext eq_refl).
Qed.

(** [d.update(other)], in closed form: the items of [d] in their order,
    overridden by [other], then the items of [other] that are new, in
    theirs. *)
Lemma dict_update_order d other :
  PyDict.well_formed d → PyDict.well_formed other →
  PyDict.update d other = map (overridden other) d ++ List.filter (is_new d) other.
Proof.
  unfold PyDict.update. revert d.
  induction other as [|[k v] other IH]; intros d Hd Hother; simpl.
  - rewrite app_nil_r. induction d as [|[k0 v0] d IHd]; [done|]. simpl.
    unfold overridden at 1. simpl. f_equal. apply IHd.
    unfold PyDict.well_formed in *. simpl in Hd. by apply NoDup_cons in Hd as [_ ?].
  - pose proof Hother as Hother'. unfold PyDict.well_formed in Hother'. simpl in Hother'.
    apply NoDup_cons in Hother' as [Hk Hother'].
    rewrite IH; [|by apply dict_setitem_well_formed|done].
    unfold is_new at 2. simpl.
    destruct (PyDict.get d k) as [v0|] eqn:Hget.
    + assert (Hin : k ∈ PyDict.keys d).
      { destruct (decide (k ∈ PyDict.keys d)) as [|Hnot]; [done|].
        apply dict_get_None in Hnot. congruence. }
      rewrite (dict_setitem_old d k v Hd Hin), <- map_overridden_cons by done. f_equal.
      apply filter_is_new_ext. intros k' _. rewrite get_map_overridden.
      by destruct (PyDict.get d k').
    + apply dict_get_None in Hget.
      rewrite dict_setitem_new by done. rewrite map_app, map_overridden_absent by done.
      rewrite <- app_assoc. f_equal. simpl. unfold overridden at 1. simpl.
      rewrite (proj2 (dict_get_None other k) Hk). simpl. f_equal.
      apply filter_is_new_ext. intros k' Hk'.
      rewrite !dict_get_None. unfold PyDict.keys. rewrite map_app, not_elem_of_app. simpl.
      rewrite not_elem_of_cons. split; [by intros [? _]|].
      intros Hnot. split; [done|]. split; [|apply not_elem_of_nil].
      intros ->. done.
Qed.

End DictOrder.

(** X10.  The order of the keys in the file json_append.py writes: the items of
    the first object in their order, each with the value of the second
    object where that has the key, then the items of the second object whose
    keys are new, in their order. *)
Theorem json_append_order (d1 d2 : list (string * json)) :
  PyDict.well_formed d1 → PyDict.well_formed d2 →
  JsonAppend.combine (JDict d1) (JDict d2)
  = Ok (JDict (map (overridden d2) d1 ++ List.filter (is_new d1) d2)).
Proof.
  intros Hwf1 Hwf2. unfold JsonAppend.combine, PyDict.unpack2.
  by rewrite (dict_update_empty d1 Hwf1), dict_update_order.
Qed.

Section DictAssoc.

Context {V : Type}.

Implicit Types (a b c : list (string * V)).

Lemma map_overridden_update a b c :
  PyDict.well_formed c →
  map (overridden c) (map (overridden b) a) = map (overridden (PyDict.update b c)) a.
Proof.
  intros Hc. rewrite map_map. apply map_ext. intros [k v]. unfold overridden. simpl.
  rewrite dict_get_update by done. by destruct (PyDict.get c k), (PyDict.get b k).
Qed.

Lemma filter_is_new_map_overridden a b c :
  map (overridden c) (List.filter (is_new a) b)
  = List.filter (is_new a) (map (overridden c) b).
Proof.
  induction b as [|item b IH]; [done|]. cbn [List.filter map].
  change (is_new a (overridden c item)) with (is_new a item).
  destruct (is_new a item); cbn [map]; by rewrite IH.
Qed.

Lemma filter_is_new_update a b c :
  PyDict.well_formed b →
  List.filter (is_new (PyDict.update a b)) c
  = List.filter (is_new a) (List.filter (is_new b) c).
Proof.
  intros Hb. induction c as [|item c IH]; [done|]. cbn [List.filter].
  assert (is_new (PyDict.update a b) item = is_new b item && is_new a item) as ->.
  { unfold is_new. rewrite dict_get_update by done.
    by destruct (PyDict.get b item.1), (PyDict.get a item.1). }
  destruct (is_new b item); cbn [andb List.filter]; [|done].
  destruct (is_new a item); by rewrite IH.
Qed.

Lemma dict_update_assoc a b c :
  PyDict.well_formed a → PyDict.well_formed b → PyDict.well_formed c →
  PyDict.update (PyDict.update a b) c = PyDict.update a (PyDict.update b c).
Proof.
  intros Ha Hb Hc.
  rewrite (dict_update_order (PyDict.update a b) c) by (by try apply dict_update_well_formed).
  rewrite (dict_update_order a (PyDict.update b c)) by (by try apply dict_update_well_formed).
  rewrite filter_is_new_update by done.
  rewrite (dict_update_order a b), (dict_update_order b c) by done.
  rewrite map_app, List.filter_app, <- app_assoc.
  rewrite map_overridden_update by done.
  rewrite filter_is_new_map_overridden.
  by rewrite <- (dict_update_order b c) by done.
Qed.

End DictAssoc.

(** X11.  Appending three objects in two runs gives the same file, with the same
    order of keys, whichever two are combined first. *)
Theorem json_append_assoc (d1 d2 d3 : list (string * json)) :
  PyDict.well_formed d1 → PyDict.well_formed d2 → PyDict.well_formed d3 →
  (d12 ← JsonAppend.combine (JDict d1) (JDict d2); JsonAppend.combine d12 (JDict d3))
  = (d23 ← JsonAppend.combine (JDict d2) (JDict d3); JsonAppend.combine (JDict d1) d23).
Proof.
  intros Hwf1 Hwf2 Hwf3. unfold JsonAppend.combine, PyDict.unpack2.
  cbn [mbind result_bind].
  rewrite !(dict_update_empty d1), !(dict_update_empty d2) by done.
  rewrite !dict_update_empty by (by try apply dict_update_well_formed).
  by rewrite dict_update_assoc.
Qed.

Lemma json_append_order_witness :
  JsonAppend.combine (JDict Examples.object_1) (JDict Examples.object_2)
  = Ok (JDict [("a", JInt 1); ("b", JInt 3); ("c", JNull)]).
Proof.
  rewrite (json_append_order Examples.object_1 Examples.object_2).
  - reflexivity.
  - unfold PyDict.well_formed. simpl. apply (bool_decide_unpack _). vm_compute. exact I.
  - unfold PyDict.well_formed. simpl. apply (bool_decide_unpack _). vm_compute. exact I.
Defined.

Lemma json_append_assoc_witness :
  (d12 ← JsonAppend.combine (JDict Examples.object_1) (JDict Examples.object_2);
   JsonAppend.combine d12 (JDict [("a", JNull); ("d", JInt 4)]))
  = Ok (JDict [("a", JNull); ("b", JInt 3); ("c", JNull); ("d", JInt 4)]).
Proof.
  rewrite (json_append_assoc Examples.object_1 Examples.object_2 [("a", JNull); ("d", JInt 4)]).
  - reflexivity.
  - unfold PyDict.well_formed. simpl. apply (bool_decide_unpack _). vm_compute. exact I.
  - unfold PyDict.well_formed. simpl. apply (bool_decide_unpack _). vm_compute. exact I.
  - unfold PyDict.well_formed. simpl. apply (bool_decide_unpack _). vm_compute. exact I.
Defined.

(** ** minio_push/push.py, download_nucleus/download.py and
    json_string_to_file/json_string_to_file.py *)

(** The last piece of a split holds no separator: it is the whole string
    when that has none, and else what follows its last separator. *)
Lemma split_from_last (sep : ascii) (cur s : string) :
  ∃ t, last (PyStr.split_from sep cur s) = Some t
       ∧ ((PyStr.contains sep s = false ∧ t = cur +:+ s)
          ∨ (PyStr.contains sep t = false ∧ ∃ h, s = h +:+ String sep t)).
Proof.
  revert cur. induction s as [|c rest IH]; intros cur; cbn [PyStr.split_from PyStr.contains].
  - exists cur. split; [done|]. left. by rewrite append_nil_r.
  - rewrite (Ascii.eqb_sym sep c). destruct (Ascii.eqb_spec c sep) as [->|Hne].
    + destruct (IH EmptyString) as (t & Hlast & Ht).
      exists t. split.
      { destruct (PyStr.split_from sep EmptyString rest); [done|exact Hlast]. }
      right. destruct Ht as [[Hfree ->]|[Hfree [h ->]]].
      * rewrite append_nil_l. split; [done|]. by exists EmptyString.
      * split; [done|]. by exists (String sep h).
    + destruct (IH (cur +:+ String c EmptyString)) as (t & Hlast & Ht).
      exists t. split; [done|]. destruct Ht as [[Hfree ->]|[Hfree [h ->]]].
      * left. split; [done|]. by rewrite append_assoc.
      * right. split; [done|]. by exists (String c h).
Qed.

(** X12.  The name push.py gives the object in the bucket is what follows the
    last slash of the file path: it holds no slash, the path is a directory
    part followed by the name, and the directory part is empty or ends with
    a slash.  Every upload of a run puts the file under that name. *)
Theorem push_object_name (args : Minio.push_args) (srv : Minio.server) :
  let tail := Minio.path_tail (Minio.push_file args) in
  PyStr.contains "/"%char tail = false
  ∧ (∃ head, Minio.push_file args = head +:+ tail
             ∧ (head = EmptyString ∨ ∃ h, head = h +:+ "/"))
  ∧ ∀ bucket_name object_name file_path,
      Minio.fput_object bucket_name object_name file_path ∈ Minio.push args srv →
      bucket_name = Minio.push_bucket args ∧ object_name = tail
      ∧ file_path = Minio.push_file args.
Proof.
  intros tail. subst tail. unfold Minio.path_tail, PyStr.split.
  destruct (split_from_last "/"%char EmptyString (Minio.push_file args))
    as (t & Hlast & Ht). rewrite Hlast. cbn [default].
  split; [|split].
  - destruct Ht as [[Hfree ->]|[Hfree _]]; [by rewrite append_nil_l|done].
  - destruct Ht as [[Hfree ->]|[Hfree [h Hh]]].
    + exists EmptyString. split; [done|by left].
    + exists (h +:+ "/"). split; [by rewrite append_assoc|]. right. by exists h.
  - intros b o f Hin. unfold Minio.push in Hin.
    unfold Minio.path_tail, PyStr.split in Hin.
    rewrite Hlast in Hin. cbn [default] in Hin.
    repeat (apply elem_of_cons in Hin as [Hin|Hin]; [discriminate|]).
    destruct (Minio.list_buckets_reply srv); [|by apply elem_of_nil in Hin..].
    destruct (negb _); [apply elem_of_cons in Hin as [Hin|Hin]; [discriminate|];
                        destruct (Minio.make_bucket_ok srv); [|by apply elem_of_nil in Hin]|];
      apply elem_of_cons in Hin as [Hin|Hin]; try discriminate;
      apply elem_of_cons in Hin as [Hin|Hin]; try (by apply elem_of_nil in Hin);
      by injection Hin as -> -> ->.
Qed.

(** X13.  On a URL whose last segment holds a dot, once the two Authelia requests
    are answered, download.py leaves its loop after one pass and ends with
    the download request: it sends the URL and the user's name and password
    with the Authelia cookies, and writes the content of the answer to the
    path given as [file]; the file name in the URL is not used. *)
Theorem download_file_url_returns (fuel : nat) (net : DownloadNucleus.services)
    (a : DownloadNucleus.args) (r1 r2 : DownloadNucleus.response) (j1 j2 : json) :
  DownloadNucleus.post_firstfactor net "authelia_galaxy_bind" "r4l/@p8f42mu57M@" = Ok r1 →
  DownloadNucleus.json_body r1 = Ok j1 →
  DownloadNucleus.get_user_info net (DownloadNucleus.cookies r1) = Ok r2 →
  DownloadNucleus.json_body r2 = Ok j2 →
  PyStr.contains "."%char
    (default EmptyString (last (PyStr.split "/"%char (DownloadNucleus.url a)))) = true →
  (2 <= fuel)%nat →
  DownloadNucleus.main fuel net a
  = (r3 ← DownloadNucleus.get_download net (DownloadNucleus.url a)
            (DownloadNucleus.username a) (DownloadNucleus.password a)
            (DownloadNucleus.cookies r1);
     Ok (DownloadNucleus.file a, DownloadNucleus.content r3)).
Proof.
  intros Hr1 Hj1 Hr2 Hj2 Hdot Hfuel. unfold DownloadNucleus.main.
  rewrite Hr1. cbn [mbind result_bind]. rewrite Hj1. cbn [mbind result_bind].
  rewrite Hr2. cbn [mbind result_bind]. rewrite Hj2. cbn [mbind result_bind].
  destruct fuel as [|[|fuel]]; [lia|lia|].
  cbn [while_loop DownloadNucleus.looping]. unfold DownloadNucleus.loop_body.
  rewrite Hdot. cbn [negb mbind result_bind DownloadNucleus.looping]. done.
Qed.

Lemma download_file_url_returns_witness :
  DownloadNucleus.main 2 Examples.nucleus Examples.file_args = Ok ("out.bin", "bytes").
Proof.
  apply (download_file_url_returns 2 Examples.nucleus Examples.file_args
           Examples.answer Examples.answer
           (JDict [("status", JStr "OK")]) (JDict [("status", JStr "OK")]));
    reflexivity.
Defined.





(** ** sphere_gen/sphere_gen.py: layers, batch mode and beamlines *)

Lemma foldl_snoc {A B} (f : A → B → A) (a : A) (l : list B) (b : B) :
  foldl f a (l ++ [b]) = f (foldl f a l) b.
Proof. by rewrite foldl_app. Qed.

Lemma layer_step_spec (names : list string) (m : Q) (wp : string)
    (cut_in_half hollow_core : bool) (dir : string)
    (st st' : SphereGen.layer_state) (idx : nat) (t : Q) :
  SphereGen.layer_step names m wp cut_in_half hollow_core false dir st idx t = Ok st' →
  SphereGen.outer_radius st' = (SphereGen.outer_radius st + round3 (t * m))%Q
  ∧ SphereGen.exported st' = SphereGen.exported st
  ∧ SphereGen.component_list st'
    = if bool_decide (idx = 1%nat) && hollow_core then SphereGen.component_list st
      else SphereGen.component_list st
           ++ [SphereGen.create_shape
                 (if decide (idx = 0%nat) then SphereGen.Sphere wp (t * m)
                  else SphereGen.Cut
                         (SphereGen.Sphere wp (SphereGen.outer_radius st + round3 (t * m)))
                         (SphereGen.Sphere wp
                            (SphereGen.outer_radius st + round3 (t * m) - t * m)))
                 wp cut_in_half].
Proof.
  unfold SphereGen.layer_step.
  destruct (bool_decide (idx = 1%nat) && hollow_core); by intros [= <-].
Qed.

Lemma component_index_next (hollow_core : bool) (n : nat) :
  component_index hollow_core (Datatypes.S n)
  = if bool_decide (n = 1%nat) && hollow_core then component_index hollow_core n
    else Datatypes.S (component_index hollow_core n).
Proof.
  unfold component_index. destruct hollow_core; rewrite ?andb_false_r; [|done].
  rewrite !andb_true_r, !andb_true_l.
  destruct (bool_decide_reflect (n = 1%nat)) as [->|Hne]; [done|].
  destruct n as [|[|n]]; [done|done|]. cbn. lia.
Qed.

Lemma layer_loop_components (names : list string) (m : Q) (wp : string)
    (cut_in_half hollow_core : bool) (dir : string) (pre rest : list Q)
    (st st' : SphereGen.layer_state) :
  SphereGen.layer_loop
    (SphereGen.layer_step names m wp cut_in_half hollow_core false dir)
    st (length pre) rest = Ok st' →
  SphereGen.outer_radius st = foldl (fun acc t => (acc + round3 (t * m))%Q) 0%Q pre →
  length (SphereGen.component_list st) = component_index hollow_core (length pre) →
  (∀ idx t, pre !! idx = Some t → ¬ (idx = 1%nat ∧ hollow_core = true) →
     SphereGen.component_list st !! component_index hollow_core idx
     = Some (SphereGen.create_shape (layer_solid (pre ++ rest) m wp idx t) wp cut_in_half)) →
  SphereGen.exported st' = SphereGen.exported st
  ∧ length (SphereGen.component_list st') = component_index hollow_core (length (pre ++ rest))
  ∧ ∀ idx t, (pre ++ rest) !! idx = Some t → ¬ (idx = 1%nat ∧ hollow_core = true) →
      SphereGen.component_list st' !! component_index hollow_core idx
      = Some (SphereGen.create_shape (layer_solid (pre ++ rest) m wp idx t) wp cut_in_half).
Proof.
  revert pre st. induction rest as [|t rest IH]; intros pre st; cbn [SphereGen.layer_loop].
  - intros [= <-] _ Hlen Hall. rewrite app_nil_r in *. done.
  - intros Hrun Houter Hlen Hall.
    apply bind_Ok in Hrun as (st1 & Hstep & Hrun).
    apply layer_step_spec in Hstep as (Houter1 & Hexp & Hcomp).
    replace (Datatypes.S (length pre)) with (length (pre ++ [t])) in Hrun
      by (rewrite length_app; simpl; lia).
    replace (pre ++ t :: rest) with ((pre ++ [t]) ++ rest) in * by (by rewrite <- app_assoc).
    rewrite <- Hexp. apply (IH (pre ++ [t]) st1 Hrun); clear IH Hrun.
    + by rewrite foldl_snoc, <- Houter.
    + rewrite length_app. cbn [length]. rewrite Nat.add_1_r, component_index_next, Hcomp.
      destruct (bool_decide (length pre = 1%nat) && hollow_core); [done|].
      rewrite length_app. cbn [length]. lia.
    + intros idx t' Hidx Hskip. rewrite Hcomp.
      apply lookup_app_Some in Hidx as [Hidx|[Hge Hidx]].
      * specialize (Hall idx t' Hidx Hskip).
        destruct (bool_decide (length pre = 1%nat) && hollow_core); [done|].
        by apply lookup_app_l_Some.
      * apply list_lookup_singleton_Some in Hidx as [Hidx <-].
        assert (idx = length pre) as -> by lia.
        destruct (bool_decide_reflect (length pre = 1%nat)) as [H1|H1], hollow_core;
          cbn [andb]; try (exfalso; by apply Hskip).
        all: rewrite lookup_app_r by (rewrite Hlen; lia).
        all: rewrite Hlen, Nat.sub_diag; cbn [lookup list_lookup].
        all: do 2 f_equal; unfold layer_solid, outer_radius_at.
        all: rewrite (take_app_length' (pre ++ [t]) rest)
               by (rewrite length_app; simpl; lia).
        all: rewrite foldl_snoc, <- Houter.
        all: destruct (decide (length pre = 0%nat)); done.
Qed.

(** [create_reactor_layer] without export returns, with one component per
    layer but for the second layer of a hollow core. *)
Lemma create_reactor_layer_length (radial_build : list Q) (names : list string)
    (multiplier : Q) (workplane : string) (cut_in_half hollow_core : bool)
    (dir : string) (files : list string) :
  ∃ components,
    SphereGen.create_reactor_layer radial_build names multiplier workplane cut_in_half
      hollow_core false dir files = Ok (components, files)
    ∧ length components = component_index hollow_core (length radial_build).
Proof.
  unfold SphereGen.create_reactor_layer.
  destruct (layer_loop_without_export names multiplier workplane cut_in_half hollow_core dir
              radial_build
              {| SphereGen.outer_radius := 0; SphereGen.component_list := [];
                 SphereGen.exported := files |} 0%nat) as [st' Hst'].
  rewrite Hst'. cbn [mbind result_bind].
  apply (layer_loop_components _ _ _ _ _ _ [] radial_build) in Hst'
    as (Hexp & Hlen & _);
    [|done|by destruct hollow_core|intros idx t Hidx; inversion Hidx].
  cbn [app SphereGen.exported] in *. rewrite Hexp. eauto.
Qed.


Lemma layer_loop_exported (names : list string) (m : Q) (wp : string)
    (cut_in_half hollow_core : bool) (dir : string) (rb : list Q)
    (st st' : SphereGen.layer_state) (idx : nat) (fs : list string) :
  SphereGen.layer_loop
    (SphereGen.layer_step names m wp cut_in_half hollow_core false dir) st idx rb = Ok st' →
  SphereGen.layer_loop
    (SphereGen.layer_step names m wp cut_in_half hollow_core false dir)
    {| SphereGen.outer_radius := SphereGen.outer_radius st;
       SphereGen.component_list := SphereGen.component_list st;
       SphereGen.exported := fs |} idx rb
  = Ok {| SphereGen.outer_radius := SphereGen.outer_radius st';
          SphereGen.component_list := SphereGen.component_list st';
          SphereGen.exported := fs |}.
Proof.
  revert st idx. induction rb as [|t rb IH]; intros st idx; cbn [SphereGen.layer_loop].
  - by intros [= <-].
  - intros Hrun. apply bind_Ok in Hrun as (st1 & Hstep & Hrun).
    apply IH in Hrun. rewrite <- Hrun. clear IH Hrun.
    unfold SphereGen.layer_step in *.
    destruct (bool_decide (idx = 1%nat) && hollow_core); by injection Hstep as <-.
Qed.

Lemma create_reactor_layer_without_export (rb : list Q) (names : list string) (m : Q)
    (wp : string) (cut_in_half hollow_core : bool) (dir : string) :
  ∃ components, ∀ files,
    SphereGen.create_reactor_layer rb names m wp cut_in_half hollow_core false dir files
    = Ok (components, files).
Proof.
  destruct (layer_loop_without_export names m wp cut_in_half hollow_core dir rb
              {| SphereGen.outer_radius := 0; SphereGen.component_list := [];
                 SphereGen.exported := [] |} 0%nat) as [st' Hst'].
  exists (SphereGen.component_list st'). intros files.
  unfold SphereGen.create_reactor_layer.
  apply (layer_loop_exported _ _ _ _ _ _ _ _ _ _ files) in Hst'.
  cbn [SphereGen.outer_radius SphereGen.component_list] in Hst'. by rewrite Hst'.
Qed.

Lemma batch_loop_last (call : Q → list string → result (list SphereGen.solid * list string))
    (comps : Q → list SphereGen.solid) (ms : list Q)
    (reactor : option (list SphereGen.solid)) (files : list string) :
  (∀ m fs, call m fs = Ok (comps m, fs)) →
  SphereGen.batch_loop call ms reactor files
  = Ok (match last ms with Some m => Some (comps m) | None => reactor end, files).
Proof.
  intros Hcall. revert reactor. induction ms as [|m ms IH]; intros reactor; [done|].
  cbn [SphereGen.batch_loop]. rewrite Hcall. cbn [mbind result_bind fst snd].
  rewrite IH. destruct ms as [|m' ms]; [done|].
  change (last (m :: m' :: ms)) with (last (m' :: ms)).
  destruct (last (m' :: ms)) eqn:Hlast; [done|]. by apply last_None in Hlast.
Qed.

Lemma batch_outer_last (n : nat) (last_one : option (list SphereGen.solid))
    (inner : option (list SphereGen.solid) → list string
             → result (option (list SphereGen.solid) * list string))
    (reactor : option (list SphereGen.solid)) (files : list string) :
  (∀ r fs, inner r fs = Ok (match last_one with Some c => Some c | None => r end, fs)) →
  SphereGen.batch_outer n inner reactor files
  = Ok (match n, last_one with
        | Datatypes.S _, Some c => Some c
        | _, _ => reactor
        end, files).
Proof.
  intros Hinner. revert reactor. induction n as [|n IH]; intros reactor; [done|].
  cbn [SphereGen.batch_outer]. rewrite Hinner. cbn [mbind result_bind fst snd].
  rewrite IH. by destruct n, last_one.
Qed.

(** X16.  The batch branch of [generate_sphere], when nothing is exported.  It
    builds the reactor once for every layer and every multiplier and keeps
    only the last one: the answer is the reactor for the last multiplier.
    With an empty radial build or no multiplier the variable is never bound,
    and the call raises [UnboundLocalError]. *)
Theorem generate_sphere_batch (radial_build : list Q) (names : list string)
    (multipliers : list Q) (workplane : string) (cut_in_half hollow_core : bool)
    (dir : string) :
  length radial_build = length names →
  (radial_build ≠ [] → ∀ ms m, multipliers = ms ++ [m] →
     SphereGen.generate_sphere radial_build names (Some multipliers) workplane true
       cut_in_half hollow_core false dir
     = SphereGen.create_reactor_layer radial_build names m workplane cut_in_half
         hollow_core false dir [])
  ∧ (radial_build = [] ∨ multipliers = [] →
     SphereGen.generate_sphere radial_build names (Some multipliers) workplane true
       cut_in_half hollow_core false dir
     = Raise (UnboundLocalError "reactor")).
Proof.
  intros Hlen. unfold SphereGen.generate_sphere.
  rewrite (proj2 (Nat.eqb_eq _ _) Hlen). cbn [negb default]. unfold id.
  assert (Hcalls : ∃ comps : Q → list SphereGen.solid, ∀ m fs,
             SphereGen.create_reactor_layer radial_build names m workplane cut_in_half
               hollow_core false dir fs = Ok (comps m, fs)).
  { exists (fun m =>
              match SphereGen.create_reactor_layer radial_build names m workplane
                      cut_in_half hollow_core false dir [] with
              | Ok r => r.1
              | _ => []
              end).
    intros m fs.
    destruct (create_reactor_layer_without_export radial_build names m workplane
                cut_in_half hollow_core dir) as [components Hcomponents].
    by rewrite (Hcomponents []), (Hcomponents fs). }
  destruct Hcalls as [comps Hcomps].
  rewrite (batch_outer_last _
             (match last multipliers with Some m => Some (comps m) | None => None end));
    [|intros r fs; rewrite (batch_loop_last _ comps) by (intros; apply Hcomps);
      by destruct (last multipliers)].
  cbn [mbind result_bind fst snd]. split.
  - intros Hrb ms m ->. rewrite last_snoc. destruct radial_build; [done|].
    cbn [length]. by rewrite Hcomps.
  - intros [->| ->]; [done|]. by destruct (length radial_build).
Qed.

Lemma layer_step_render (names : list string) (m : Q) (wp : string)
    (cut_in_half hollow_core : bool) (dir : string) (t : Q)
    (st st1 : SphereGen.layer_state) (idx : nat) (fs : list string) (name : string) :
  names !! idx = Some name →
  SphereGen.layer_step names m wp cut_in_half hollow_core false dir st idx t = Ok st1 →
  SphereGen.layer_step names m wp cut_in_half hollow_core true dir
    {| SphereGen.outer_radius := SphereGen.outer_radius st;
       SphereGen.component_list := SphereGen.component_list st;
       SphereGen.exported := fs |} idx t
  = Ok {| SphereGen.outer_radius := SphereGen.outer_radius st1;
          SphereGen.component_list := SphereGen.component_list st1;
          SphereGen.exported :=
            fs ++ map (step_path dir) (kept_names names hollow_core idx 1) |}.
Proof.
  intros Hname. unfold SphereGen.layer_step, getitem, step_path. cbv [kept_names]. cbn.
  rewrite Hname.
  destruct (decide (idx = 1%nat)) as [Hidx|Hidx].
  - rewrite !bool_decide_eq_true_2 by done.
    destruct hollow_core; cbn; intros [= <-]; cbn; by rewrite ?app_nil_r.
  - rewrite !bool_decide_eq_false_2 by done. cbn. by intros [= <-].
Qed.

Lemma kept_names_cons (names : list string) (hollow_core : bool) (idx n : nat) :
  kept_names names hollow_core idx (Datatypes.S n)
  = kept_names names hollow_core idx 1 ++ kept_names names hollow_core (Datatypes.S idx) n.
Proof.
  cbv [kept_names]. cbn.
  by destruct (if bool_decide (idx = 1%nat) && hollow_core then None else names !! idx).
Qed.

Lemma layer_loop_render (names : list string) (m : Q) (wp : string)
    (cut_in_half hollow_core : bool) (dir : string) (rb : list Q)
    (st st' : SphereGen.layer_state) (idx : nat) (fs : list string) :
  (idx + length rb ≤ length names)%nat →
  SphereGen.layer_loop
    (SphereGen.layer_step names m wp cut_in_half hollow_core false dir) st idx rb = Ok st' →
  SphereGen.layer_loop
    (SphereGen.layer_step names m wp cut_in_half hollow_core true dir)
    {| SphereGen.outer_radius := SphereGen.outer_radius st;
       SphereGen.component_list := SphereGen.component_list st;
       SphereGen.exported := fs |} idx rb
  = Ok {| SphereGen.outer_radius := SphereGen.outer_radius st';
          SphereGen.component_list := SphereGen.component_list st';
          SphereGen.exported :=
            fs ++ map (step_path dir) (kept_names names hollow_core idx (length rb)) |}.
Proof.
  revert st idx fs. induction rb as [|t rb IH]; intros st idx fs Hlen;
    cbn [SphereGen.layer_loop].
  - intros [= <-]. cbn. by rewrite app_nil_r.
  - intros Hrun. apply bind_Ok in Hrun as (st1 & Hstep & Hrun).
    cbn [length] in Hlen.
    destruct (lookup_lt_is_Some_2 names idx) as [name Hname]; [lia|].
    rewrite (layer_step_render _ _ _ _ _ _ _ _ _ _ fs name Hname Hstep).
    cbn [mbind result_bind]. rewrite (IH st1 (Datatypes.S idx)); [|lia|done].
    cbn [length]. rewrite (kept_names_cons names hollow_core idx (length rb)), map_app, app_assoc.
    done.
Qed.

Lemma layer_step_render_cases (names : list string) (m : Q) (wp : string)
    (cut_in_half hollow_core : bool) (dir : string) (t : Q)
    (st : SphereGen.layer_state) (idx : nat) :
  SphereGen.layer_step names m wp cut_in_half hollow_core true dir st idx t
  = Raise IndexError
  ∨ ((idx < length names)%nat ∨ (idx = 1%nat ∧ hollow_core = true))
    ∧ ∃ st1, SphereGen.layer_step names m wp cut_in_half hollow_core true dir st idx t
             = Ok st1.
Proof.
  unfold SphereGen.layer_step, getitem.
  destruct (bool_decide (idx = 1%nat) && hollow_core) eqn:Hskip.
  - right. apply andb_true_iff in Hskip as [Hidx ->]. apply bool_decide_eq_true in Hidx.
    split; [by right|by eexists].
  - destruct (names !! idx) as [name|] eqn:Hname; cbn [mbind result_bind]; [|by left].
    right. split; [left; by apply lookup_lt_Some in Hname|by eexists].
Qed.

Lemma layer_loop_IndexError (names : list string) (m : Q) (wp : string)
    (cut_in_half hollow_core : bool) (dir : string) (rb : list Q)
    (st : SphereGen.layer_state) (idx bad : nat) :
  (idx ≤ bad < idx + length rb)%nat → (length names ≤ bad)%nat →
  ¬ (bad = 1%nat ∧ hollow_core = true) →
  SphereGen.layer_loop
    (SphereGen.layer_step names m wp cut_in_half hollow_core true dir) st idx rb
  = Raise IndexError.
Proof.
  revert st idx. induction rb as [|t rb IH]; intros st idx Hbad Hnames Hkept;
    cbn [length] in Hbad; [lia|].
  cbn [SphereGen.layer_loop].
  destruct (layer_step_render_cases names m wp cut_in_half hollow_core dir t st idx)
    as [->|[Hidx [st1 ->]]]; [done|].
  cbn [mbind result_bind]. apply IH; [|done|done].
  assert (bad ≠ idx) by (intros ->; destruct Hidx as [Hidx|Hidx]; [lia|by apply Hkept]).
  lia.
Qed.

(** X25.  [create_reactor_layer] with [render_save].  With a name for every
    layer it builds the same components as without, and exports one STEP
    file for each, in order, named after the component in the save
    directory; the skipped second layer of a hollow core is not exported.
    When a layer that is kept has no name, the call raises [IndexError]. *)
Theorem create_reactor_layer_exports (radial_build : list Q) (names : list string)
    (multiplier : Q) (workplane : string) (cut_in_half hollow_core : bool)
    (dir : string) (files : list string) :
  ((length radial_build ≤ length names)%nat →
   ∃ components,
     SphereGen.create_reactor_layer radial_build names multiplier workplane cut_in_half
       hollow_core false dir files = Ok (components, files)
     ∧ SphereGen.create_reactor_layer radial_build names multiplier workplane cut_in_half
         hollow_core true dir files
       = Ok (components,
             files ++ map (step_path dir)
                        (kept_names names hollow_core 0 (length radial_build))))
  ∧ (∀ idx, (length names ≤ idx < length radial_build)%nat →
       ¬ (idx = 1%nat ∧ hollow_core = true) →
       SphereGen.create_reactor_layer radial_build names multiplier workplane cut_in_half
         hollow_core true dir files = Raise IndexError).
Proof.
  split.
  - intros Hlen.
    destruct (create_reactor_layer_length radial_build names multiplier workplane
                cut_in_half hollow_core dir files) as (components & Hfalse & _).
    exists components. split; [done|].
    unfold SphereGen.create_reactor_layer in *.
    apply bind_Ok in Hfalse as (st' & Hrun & [= <- Hexp]).
    pose proof (layer_loop_render _ _ _ _ _ _ _ _ _ 0%nat files Hlen Hrun) as Htrue.
    cbn [SphereGen.outer_radius SphereGen.component_list] in Htrue. by rewrite Htrue.
  - intros idx Hidx Hkept. unfold SphereGen.create_reactor_layer.
    rewrite (layer_loop_IndexError _ _ _ _ _ _ _ _ 0%nat idx); [done|lia|lia|done].
Qed.

Lemma create_reactor_layer_exports_witness :
  ∃ components,
    SphereGen.create_reactor_layer [1; 2; 3]%Q ["core"; "gap"; "shell"] 1 "XY" true true
      true "out" []
    = Ok (components, ["out/core.step"; "out/shell.step"])
    ∧ length components = 2%nat.
Proof.
  destruct (proj1 (create_reactor_layer_exports [1; 2; 3]%Q ["core"; "gap"; "shell"] 1 "XY"
                     true true "out" []) ltac:(simpl; lia))
    as (components & Hfalse & Htrue).
  exists components. split; [exact Htrue|].
  vm_compute in Hfalse. by injection Hfalse as <-.
Defined.

Lemma for_each_app {A S} (body : S → A → result S) (s : S) (xs ys : list A) :
  for_each body s (xs ++ ys) = (s' ← for_each body s xs; for_each body s' ys).
Proof.
  revert s. induction xs as [|x xs IH]; intros s; [done|]. cbn [app for_each].
  destruct (body s x) as [s'| |]; cbn [mbind result_bind]; [apply IH|done|done].
Qed.

(** A loop whose passes return and keep a property of the number of passes
    made returns, and the property holds at the end. *)
Lemma for_each_invariant {A S} (P : nat → S → Prop) (body : S → A → result S)
    (s : S) (xs : list A) :
  P 0%nat s →
  (∀ i x s, xs !! i = Some x → P i s → ∃ s', body s x = Ok s' ∧ P (Datatypes.S i) s') →
  ∃ s', for_each body s xs = Ok s' ∧ P (length xs) s'.
Proof.
  revert P s. induction xs as [|x xs IH]; intros P s Hs Hbody; cbn [for_each].
  - by exists s.
  - destruct (Hbody 0%nat x s) as (s1 & -> & Hs1); [done|done|].
    cbn [mbind result_bind].
    apply (IH (fun i => P (Datatypes.S i))); [done|].
    intros i y s2 Hy. by apply (Hbody (Datatypes.S i)).
Qed.

Section Beamlines.

Context `{Float F} `{MathLib F}.

Import SphereGenBeamlines.

(** What the script takes for granted of the libraries: [np.linspace] answers
    as many numbers as asked for, and [math.acos] is defined on the quotient
    the script forms from the height of a beamline and the radius. *)
Hypothesis np_linspace_length : ∀ a b n, length (np_linspace a b n) = n.

Lemma mini_beamlines_count (l mw mh w h : Q) (k : nat) (x y z phi td pd : F)
    (st : beam_state (F := F)) :
  ∃ st', mini_beamlines l mw mh w h k x y z phi td pd st = Ok st'
         ∧ cuts st'.1 = (cuts st.1 + k * k)%nat
         ∧ length st'.2 = (length st.2 + k * k)%nat.
Proof.
  unfold mini_beamlines. cbv zeta.
  edestruct (for_each_invariant (A := F)
               (fun i (s : beam_state (F := F)) =>
                  cuts s.1 = (cuts st.1 + i * k)%nat
                  ∧ length s.2 = (length st.2 + i * k)%nat))
    as (st' & -> & Hst'); [| |rewrite np_linspace_length in Hst'; eauto].
  - split; lia.
  - intros i dx s _ [Hc Hl].
    edestruct (for_each_invariant (A := F)
                 (fun j (s' : beam_state (F := F)) =>
                    cuts s'.1 = (cuts s.1 + j)%nat ∧ length s'.2 = (length s.2 + j)%nat))
      as (s' & -> & Hs'); [| |rewrite np_linspace_length in Hs'].
    + split; lia.
    + intros j dy s' _ [Hc' Hl']. eexists. split; [done|]. cbn [fst snd cuts].
      rewrite length_app. cbn [length]. lia.
    + exists s'. split; [done|]. lia.
Qed.


Hypothesis acos_defined :
  ∀ r theta : F, is_Some (facos (fdiv (fmul (fneg r) (fcos theta)) (fneg r))).

Lemma beamline_layer_count (l mw mh w h radius : Q) (k : nat) (n : Z) (theta : F)
    (st : beam_state (F := F)) :
  n ≠ 0 →
  ∃ st', beamline_layer l mw mh w h radius k st (n, theta) = Ok st'
         ∧ cuts st'.1 = (cuts st.1 + Z.to_nat n * (k * k))%nat
         ∧ length st'.2 = (length st.2 + Z.to_nat n * (k * k))%nat.
Proof.
  intros Hn. unfold beamline_layer. cbn [fst snd].
  rewrite (proj2 (Z.eqb_neq n 0) Hn). cbn [mbind result_bind].
  edestruct (for_each_invariant (A := Z)
               (fun i (s : beam_state (F := F)) =>
                  cuts s.1 = (cuts st.1 + i * (k * k))%nat
                  ∧ length s.2 = (length st.2 + i * (k * k))%nat))
    as (st' & -> & Hst'); [| |rewrite length_seqZ in Hst'; eauto].
  - split; lia.
  - intros i j s _ [Hc Hl]. unfold beamline_at. cbv zeta.
    destruct (acos_defined (float_of_Q radius) theta) as [a ->]. cbn [mbind result_bind].
    edestruct mini_beamlines_count as (s' & -> & Hc' & Hl').
    exists s'. split; [done|]. lia.
Qed.

Lemma beamline_layers_count (l mw mh w h radius : Q) (k : nat) (layers : list Z)
    (angles : list F) (st : beam_state (F := F)) :
  Forall (fun n => n ≠ 0) layers → length angles = length layers →
  ∃ st', for_each (beamline_layer l mw mh w h radius k) st (zip layers angles) = Ok st'
         ∧ cuts st'.1 = (cuts st.1 + sum_list_with Z.to_nat layers * (k * k))%nat
         ∧ length st'.2 = (length st.2 + sum_list_with Z.to_nat layers * (k * k))%nat.
Proof.
  intros Hlayers. revert angles st.
  induction Hlayers as [|n layers Hn _ IH]; intros angles st Hlen.
  - exists st. cbn. split; [done|]. split; lia.
  - destruct angles as [|theta angles]; [done|]. cbn [zip zip_with for_each].
    destruct (beamline_layer_count l mw mh w h radius k n theta st Hn) as (st1 & -> & Hc1 & Hl1).
    cbn [mbind result_bind].
    destruct (IH angles st1) as (st' & -> & Hc & Hl); [by injection Hlen|].
    exists st'. split; [done|]. cbn [sum_list_with]. lia.
Qed.

Lemma beamline_layers_zero (l mw mh w h radius : Q) (k : nat) (pre post : list Z)
    (angles : list F) (st : beam_state (F := F)) :
  Forall (fun n => n ≠ 0) pre → length angles = length (pre ++ 0 :: post) →
  for_each (beamline_layer l mw mh w h radius k) st (zip (pre ++ 0 :: post) angles)
  = Raise ZeroDivisionError.
Proof.
  intros Hpre. revert angles st.
  induction Hpre as [|n pre Hn _ IH]; intros angles st Hlen;
    (destruct angles as [|theta angles]; [done|]); cbn [app zip zip_with for_each].
  - done.
  - destruct (beamline_layer_count l mw mh w h radius k n theta st Hn) as (st1 & -> & _).
    cbn [mbind result_bind]. apply IH. by injection Hlen.
Qed.

Lemma polar_angles_length (n : nat) :
  length (removelast (tail (np_linspace (f_of_Z 0) fpi (n + 2)))) = n.
Proof.
  rewrite removelast_firstn_len, length_take, length_tl, np_linspace_length. lia.
Qed.

(** The loop over the parts: every part is cut once per beamline, and the
    beamlines of all parts are collected. *)
Lemma beamline_parts_loop (parts : list SphereGen.solid) (l mw mh w h radius : Q)
    (k : nat) (layers : list Z) (angles : list F) :
  Forall (fun n => n ≠ 0) layers → length angles = length layers →
  let per_part := (sum_list_with Z.to_nat layers * (k * k))%nat in
  ∃ updated_parts beamlines_list,
    for_each
      (fun (acc : list (shape (F := F)) * list (shape (F := F))) part =>
         st ← for_each (beamline_layer l mw mh w h radius k) (Part part, acc.2)
                (zip layers angles);
         Ok (acc.1 ++ [st.1], st.2))
      ([], []) parts
    = Ok (updated_parts, beamlines_list)
    ∧ length updated_parts = length parts
    ∧ Forall (fun part => cuts part = per_part) updated_parts
    ∧ length beamlines_list = (length parts * per_part)%nat.
Proof.
  intros Hlayers Hangles per_part.
  edestruct (for_each_invariant (A := SphereGen.solid)
               (fun i (acc : list (shape (F := F)) * list (shape (F := F))) =>
                  length acc.1 = i
                  ∧ Forall (fun part => cuts part = per_part) acc.1
                  ∧ length acc.2 = (i * per_part)%nat))
    as ([updated beams] & -> & Hlen & Hcuts & Hbeams); [| |by eauto 10].
  - split; [done|]. split; [constructor|done].
  - intros i part [updated beams] _ (Hlen & Hcuts & Hbeams). cbn [fst snd] in *.
    edestruct (beamline_layers_count) as (st' & -> & Hc & Hl);
      [exact Hlayers|exact Hangles|].
    cbn [mbind result_bind]. eexists. split; [done|]. cbn [fst snd cuts] in *.
    split; [rewrite length_app; simpl; lia|].
    split; [apply Forall_app; split; [done|]; constructor; [lia|constructor]|lia].
Qed.

(** X17.  How many beamlines [add_azimuthal_beamlines] makes.  With three
    dimensions and no layer of zero beamlines, every part of the reactor
    comes back cut by one beamline for every position of every layer
    (sixteen with mini beamlines), and the list of beamlines holds all of
    them once for every part. *)
Theorem add_azimuthal_beamlines_count (parts : list SphereGen.solid)
    (length0 width height : Q) (layers : list Z) (radius : Q) (use_mini_beamlines : bool) :
  Forall (fun n => n ≠ 0) layers →
  let per_part :=
    (sum_list_with Z.to_nat layers * (if use_mini_beamlines then 16 else 1))%nat in
  ∃ updated_parts beamlines_list,
    add_azimuthal_beamlines parts [length0; width; height] layers radius use_mini_beamlines
    = Ok (updated_parts, beamlines_list)
    ∧ length updated_parts = length parts
    ∧ Forall (fun part => cuts part = per_part) updated_parts
    ∧ length beamlines_list = (length parts * per_part)%nat.
Proof.
  intros Hlayers per_part. unfold add_azimuthal_beamlines. cbn [unpack3 mbind result_bind].
  cbv zeta. cbn [fst snd].
  set (k := if use_mini_beamlines then 4%nat else 1%nat).
  assert (Hper : per_part = (sum_list_with Z.to_nat layers * (k * k))%nat)
    by (subst per_part k; by destruct use_mini_beamlines).
  rewrite Hper.
  apply (beamline_parts_loop parts _ _ _ _ _ radius k layers _ Hlayers),
    polar_angles_length.
Qed.

Lemma component_index_zero (hollow_core : bool) (n : nat) :
  component_index hollow_core n = 0%nat ↔ n = 0%nat.
Proof.
  unfold component_index. destruct hollow_core; cbn [andb]; [|done].
  destruct (Nat.leb_spec 2 n); lia.
Qed.

Lemma reactor_core_parts_count (g : SphereGen.geometry) :
  length (SphereGen.radial_build g) = length (SphereGen.component_names g) →
  ∃ parts, SphereGen.reactor_core_parts g = Ok parts
           ∧ length parts
             = component_index (SphereGen.hollow_core g) (length (SphereGen.radial_build g)).
Proof.
  intros Hlen. unfold SphereGen.reactor_core_parts, SphereGen.generate_sphere.
  rewrite (proj2 (Nat.eqb_eq _ _) Hlen). cbn [negb].
  destruct (create_reactor_layer_length (SphereGen.radial_build g)
              (SphereGen.component_names g) 1 "XY" (SphereGen.cut_in_half g)
              (SphereGen.hollow_core g) "." []) as (parts & -> & Hparts).
  cbn [mbind result_bind fst]. eauto.
Qed.

(** X19.  sphere_gen.py without beamlines.  When [gen_beamlines] is false the
    script indexes the list of parts with its first part and raises
    [TypeError] before anything is saved; only an empty radial build gets
    through, to an empty assembly. *)
Theorem main_without_beamlines (g : SphereGen.geometry) (b : beamlines) :
  gen_beamlines b = false →
  length (SphereGen.radial_build g) = length (SphereGen.component_names g) →
  (SphereGen.radial_build g = [] → main g b = Ok [])
  ∧ (SphereGen.radial_build g ≠ [] → main g b = Raise TypeError).
Proof.
  intros Hgen Hlen. unfold main. rewrite Hgen.
  destruct (reactor_core_parts_count g Hlen) as (parts & -> & Hparts).
  cbn [mbind result_bind]. split.
  - intros Hrb. rewrite Hrb in Hparts. cbn [length] in Hparts.
    rewrite (proj2 (component_index_zero _ 0) eq_refl) in Hparts. by destruct parts.
  - intros Hrb. destruct parts as [|part parts]; [|done]. exfalso.
    symmetry in Hparts. apply component_index_zero in Hparts.
    by destruct (SphereGen.radial_build g).
Qed.

(** X18.  sphere_gen.py with beamlines, for three beamline dimensions.  When no
    layer asks for zero beamlines, the assembly holds the parts of the
    reactor, then one beamline for every position of every layer, once for
    every part.  A layer of zero beamlines, reached with a part in hand,
    raises [ZeroDivisionError]. *)
Theorem main_with_beamlines (g : SphereGen.geometry) (b : beamlines)
    (length0 width height : Q) :
  gen_beamlines b = true →
  length (SphereGen.radial_build g) = length (SphereGen.component_names g) →
  beamline_dimensions b = [length0; width; height] →
  let parts :=
    component_index (SphereGen.hollow_core g) (length (SphereGen.radial_build g)) in
  (Forall (fun n => n ≠ 0) (layer_spacing b) →
   ∃ assembly, main g b = Ok assembly
     ∧ length assembly
       = (parts + parts * sum_list_with Z.to_nat (layer_spacing b))%nat)
  ∧ (SphereGen.radial_build g ≠ [] →
     ∀ pre post, layer_spacing b = pre ++ 0 :: post → Forall (fun n => n ≠ 0) pre →
       main g b = Raise ZeroDivisionError).
Proof.
  intros Hgen Hlen Hdims parts. unfold main. rewrite Hgen, Hdims.
  destruct (reactor_core_parts_count g Hlen) as (ps & -> & Hps).
  cbn [mbind result_bind]. split.
  - intros Hlayers.
    unfold add_azimuthal_beamlines. cbn [unpack3 mbind result_bind]. cbv zeta.
    cbn [fst snd].
    destruct (beamline_parts_loop ps (length0 + foldl Qplus 0%Q (SphereGen.radial_build g))
                width height width height (foldl Qplus 0%Q (SphereGen.radial_build g))
                1 (layer_spacing b) _ Hlayers (polar_angles_length _))
      as (updated & beams & -> & Hupdated & _ & Hbeams).
    cbn [mbind result_bind fst snd]. eexists. split; [done|].
    rewrite length_app, Hupdated, Hbeams, Hps. subst parts. lia.
  - intros Hrb pre post Hspacing Hpre. rewrite Hspacing.
    destruct ps as [|part ps].
    { exfalso. symmetry in Hps. apply component_index_zero in Hps.
      by destruct (SphereGen.radial_build g). }
    unfold add_azimuthal_beamlines. cbn [unpack3 mbind result_bind for_each]. cbv zeta.
    cbn [fst snd]. rewrite beamline_layers_zero; [done|done|apply polar_angles_length].
Qed.

End Beamlines.

(** ** tokamak_gen/tokamakgen.py and tokamak_gen/generate_geometry.py *)

(** [str] prints different integers differently. *)
Lemma str_int_inj (z z' : Z) : str_int z = str_int z' → z = z'.
Proof.
  unfold str_int. intros Heq. apply to_int_inj.
  assert (Hnil : ∀ n, Z.to_int n ≠ Decimal.Pos Decimal.Nil ∧ Z.to_int n ≠ Decimal.Neg Decimal.Nil).
  { intros n. split; intros Hn.
    - assert (Heq0 : n = Z.of_int (Decimal.Pos Decimal.Nil)) by (by rewrite <- Hn, of_to).
      cbn in Heq0. subst n. discriminate Hn.
    - assert (Heq0 : n = Z.of_int (Decimal.Neg Decimal.Nil)) by (by rewrite <- Hn, of_to).
      cbn in Heq0. subst n. discriminate Hn. }
  assert (Hz := NilZero.isi (Z.to_int z) (proj1 (Hnil z)) (proj2 (Hnil z))).
  assert (Hz' := NilZero.isi (Z.to_int z') (proj1 (Hnil z')) (proj2 (Hnil z'))).
  rewrite Heq in Hz. rewrite Hz in Hz'. by injection Hz'.
Qed.

Lemma append_inj_l (p a b : string) : p +:+ a = p +:+ b → a = b.
Proof. induction p as [|c p IH]; [done|]. rewrite !append_cons. intros [= Heq]. auto. Qed.

Lemma append_length (a b : string) :
  String.length (a +:+ b) = (String.length a + String.length b)%nat.
Proof. induction a as [|c a IH]; [done|]. rewrite append_cons. simpl. by rewrite IH. Qed.

Lemma append_inj_r (a b s : string) : a +:+ s = b +:+ s → a = b.
Proof.
  revert b. induction a as [|c a IH]; intros [|c' b] Heq.
  - done.
  - apply (f_equal String.length) in Heq. rewrite !append_length in Heq. simpl in Heq. lia.
  - apply (f_equal String.length) in Heq. rewrite !append_length in Heq. simpl in Heq. lia.
  - rewrite !append_cons in Heq. injection Heq as -> Heq. f_equal. by apply IH.
Qed.

Lemma filter_filter_andb {A} (f g : A → bool) (l : list A) :
  List.filter f (List.filter g l) = List.filter (fun x => g x && f x) l.
Proof.
  induction l as [|x l IH]; [done|]. cbn [List.filter].
  destruct (g x); cbn [andb List.filter]; [|done]. destruct (f x); by rewrite IH.
Qed.

Lemma for_each_cons {A S} (body : S → A → result S) (s : S) (x : A) (xs : list A) :
  for_each body s (x :: xs) = (s' ← body s x; for_each body s' xs).
Proof. done. Qed.

(** A loop that raises in the pass for [x], after passes that return. *)
Lemma for_each_raises {A S} (body : S → A → result S) (s s' : S) (pre post : list A)
    (x : A) (e : exn) :
  for_each body s pre = Ok s' → body s' x = Raise e →
  for_each body s (pre ++ x :: post) = Raise e.
Proof.
  intros Hpre Hx. rewrite for_each_app, Hpre. cbn [mbind result_bind for_each].
  by rewrite Hx.
Qed.

(** A loop whose state after [i] passes is known. *)
Lemma for_each_exact {A S} (g : nat → S) (body : S → A → result S) (s : S) (xs : list A) :
  g 0%nat = s →
  (∀ i x, xs !! i = Some x → body (g i) x = Ok (g (Datatypes.S i))) →
  for_each body s xs = Ok (g (length xs)).
Proof.
  intros Hs Hbody.
  destruct (for_each_invariant (fun i st => st = g i) body s xs) as (s' & -> & ->);
    [done| |done].
  intros i x st Hx ->. eauto.
Qed.

Lemma dict_update_snoc {V} (d other : list (string * V)) (k : string) (v : V) :
  PyDict.update d (other ++ [(k, v)]) = PyDict.setitem (PyDict.update d other) k v.
Proof. unfold PyDict.update. by rewrite foldl_app. Qed.

Lemma dict_get_elem_of {V} (d : list (string * V)) (k : string) (v : V) :
  PyDict.well_formed d → (k, v) ∈ d → PyDict.get d k = Some v.
Proof.
  unfold PyDict.well_formed. induction d as [|[k0 v0] d IH]; intros Hwf Hin.
  - by apply elem_of_nil in Hin.
  - cbn [PyDict.keys map fst] in Hwf. apply NoDup_cons in Hwf as [Hk0 Hwf].
    cbn [PyDict.get]. apply elem_of_cons in Hin as [[= -> ->]|Hin].
    + by rewrite String.eqb_refl.
    + destruct (String.eqb_spec k0 k) as [->|Hne]; [|by apply IH].
      exfalso. apply Hk0. apply list_elem_of_fmap. by exists (k, v).
Qed.

Section TokamakGenCoils.

Context `{Float F} `{MathLib F}.

Import TokamakGen.

Implicit Types (files store : step_files (F := F)) (names : list string).

Lemma get_remove files (n k : string) :
  PyDict.get (remove files n) k = if String.eqb n k then None else PyDict.get files k.
Proof.
  unfold remove. induction files as [|[k0 v0] files IH]; cbn [List.filter fst PyDict.get].
  - by destruct (String.eqb n k).
  - destruct (String.eqb_spec k0 n) as [->|Hne]; cbn [negb PyDict.get].
    + rewrite IH. by destruct (String.eqb_spec n k).
    + rewrite IH. destruct (String.eqb_spec k0 k) as [->|Hne'].
      * by rewrite (proj2 (String.eqb_neq n k)) by congruence.
      * done.
Qed.

(** What is left of the files once the files with the given names are
    removed. *)
Lemma remove_all_filter names files :
  foldl remove files names
  = List.filter (fun item => forallb (fun n => negb (String.eqb item.1 n)) names) files.
Proof.
  revert files. induction names as [|n names IH]; intros files; cbn [foldl forallb].
  - induction files as [|x files IHf]; [done|]. cbn [List.filter]. by rewrite <- IHf.
  - rewrite IH. unfold remove. by rewrite filter_filter_andb.
Qed.

Lemma filter_setitem_out (p : string → bool) files (k : string) (v : solid) :
  p k = false →
  List.filter (fun item => p item.1) (PyDict.setitem files k v)
  = List.filter (fun item => p item.1) files.
Proof.
  intros Hk. induction files as [|[k0 v0] files IH]; cbn [PyDict.setitem List.filter fst].
  - by rewrite Hk.
  - destruct (String.eqb_spec k0 k) as [->|Hne]; cbn [List.filter fst].
    + by rewrite Hk.
    + by rewrite IH.
Qed.

Lemma remove_all_update names files (items : list (string * solid)) :
  (∀ item, item ∈ items → item.1 ∈ names) →
  foldl remove (PyDict.update files items) names = foldl remove files names.
Proof.
  intros Hitems. rewrite !remove_all_filter. unfold PyDict.update.
  revert files. induction items as [|[k v] items IH]; intros files; [done|].
  cbn [foldl fst snd]. rewrite IH by (intros item Hin; apply Hitems; by right).
  apply (filter_setitem_out (fun key => forallb (fun n => negb (String.eqb key n)) names)).
  apply not_true_iff_false. rewrite forallb_forall. intros Hall.
  specialize (Hitems (k, v) ltac:(by left)). cbn in Hitems.
  apply list_elem_of_In in Hitems. specialize (Hall k Hitems).
  by rewrite String.eqb_refl in Hall.
Qed.

Lemma importStep_Some store (n : string) (s : solid) :
  PyDict.get store n = Some s → importStep store n = Ok s.
Proof. unfold importStep. by intros ->. Qed.

Lemma importStep_None store (n : string) :
  PyDict.get store n = None
  → importStep store n = Raise (ValueError "STEP File could not be loaded").
Proof. unfold importStep. by intros ->. Qed.

(** The import loop on files that are all there under different names. *)
Lemma import_all_Ok (items : list (string * solid)) store (acc : list solid) :
  NoDup (map fst items) →
  (∀ item, item ∈ items → PyDict.get store item.1 = Some item.2) →
  import_all store acc (map fst items)
  = Ok (foldl remove store (map fst items), acc ++ map snd items).
Proof.
  unfold import_all. revert store acc.
  induction items as [|[n s] items IH]; intros store acc Hnodup Hget.
  - cbn. by rewrite app_nil_r.
  - cbn [map fst snd for_each foldl].
    rewrite (importStep_Some store n s) by (apply (Hget (n, s)); by left).
    cbn [mbind result_bind fst snd].
    apply NoDup_cons in Hnodup as [Hn Hnodup].
    rewrite IH; [by rewrite <- app_assoc|done|].
    intros item Hin. rewrite get_remove.
    destruct (String.eqb_spec n item.1) as [->|Hne].
    + exfalso. apply Hn. apply list_elem_of_fmap. by exists item.
    + apply Hget. by right.
Qed.

(** The import loop stops with [ValueError] at a file that is not there. *)
Lemma import_all_missing names store (acc : list solid) (n : string) :
  n ∈ names → PyDict.get store n = None →
  ∃ msg, import_all store acc names = Raise (ValueError msg).
Proof.
  unfold import_all. revert store acc.
  induction names as [|n0 names IH]; intros store acc Hin Hget; [by apply elem_of_nil in Hin|].
  cbn [for_each fst snd].
  destruct (PyDict.get store n0) as [s|] eqn:Hn0.
  - rewrite (importStep_Some _ _ _ Hn0). cbn [mbind result_bind].
    apply elem_of_cons in Hin as [->|Hin]; [congruence|].
    apply IH; [done|]. rewrite get_remove, Hget. by destruct (String.eqb n0 n).
  - rewrite (importStep_None _ _ Hn0). cbn [mbind result_bind]. by eexists.
Qed.

(** A name that comes twice is imported once: the second import fails. *)
Lemma import_all_dup names store (acc : list solid) :
  ¬ NoDup names → ∃ msg, import_all store acc names = Raise (ValueError msg).
Proof.
  revert store acc. induction names as [|n names IH]; intros store acc Hdup.
  - exfalso. apply Hdup. constructor.
  - unfold import_all. cbn [for_each fst snd].
    destruct (PyDict.get store n) as [s|] eqn:Hn.
    + rewrite (importStep_Some _ _ _ Hn). cbn [mbind result_bind].
      destruct (decide (n ∈ names)) as [Hin|Hnotin].
      * apply (import_all_missing names (remove store n) (acc ++ [s]) n Hin).
        by rewrite get_remove, String.eqb_refl.
      * apply (IH (remove store n) (acc ++ [s])). intros Hnd. apply Hdup. by constructor.
    + rewrite (importStep_None _ _ Hn). cbn [mbind result_bind]. by eexists.
Qed.

(** The names of the files of a coil set differ. *)
Lemma pf_coil_names_NoDup (n : nat) :
  NoDup (map (fun i : nat => "pf_coil_" +:+ str_int (Z.of_nat i) +:+ ".step") (seq 0 n)).
Proof.
  apply (NoDup_fmap_2_strong _); [|apply NoDup_seq].
  intros i j _ _ Heq. apply append_inj_l, append_inj_r, str_int_inj in Heq. lia.
Qed.

(** Export, import and removal of a list of files under different names:
    the objects come back in order, and of the files that were there before
    those with one of the names are gone. *)
Lemma export_import (items : list (string * solid)) files :
  NoDup (map fst items) →
  import_all (PyDict.update files items) [] (map fst items)
  = Ok (foldl remove files (map fst items), map snd items).
Proof.
  intros Hnodup. rewrite import_all_Ok; [|done|].
  - rewrite remove_all_update; [done|].
    intros item Hin. apply list_elem_of_fmap. by exists item.
  - intros [k v] Hin. cbn [fst snd]. rewrite dict_get_update by done.
    by rewrite (dict_get_elem_of items k v).
Qed.

Lemma generate_pf_coil_set_Ok (heights x_offsets : list F)
    (vessel_radius tf_dr pf_dr pf_dz major_radius : F) (inner_coil top : bool) files :
  (length heights ≤ length x_offsets)%nat →
  let centre := fun height x_offset =>
    find_coil_centrepoint height vessel_radius tf_dr x_offset inner_coil top in
  generate_pf_coil_set heights x_offsets vessel_radius tf_dr pf_dr pf_dz major_radius
    inner_coil top files
  = Ok (zip_with (fun height x_offset => PoloidalFieldCoil pf_dz pf_dr (centre height x_offset))
          heights x_offsets,
        foldl remove files
          (map (fun i : nat => "pf_coil_" +:+ str_int (Z.of_nat i) +:+ ".step")
             (seq 0 (length heights))),
        zip_with
          (fun height x_offset =>
             [CInt 10; CInt 10; CInt 2; CFloat (centre height x_offset).1; CFloat pf_dr;
              CFloat pf_dz; CInt 0; CFloat (centre height x_offset).2; CInt 0; CInt 0;
              CInt 1; CInt 0])
          heights x_offsets).
Proof.
  intros Hlen centre. unfold generate_pf_coil_set. cbv zeta.
  set (names := map (fun i : nat => "pf_coil_" +:+ str_int (Z.of_nat i) +:+ ".step")
                  (seq 0 (length heights))).
  set (coils := zip_with (fun height x_offset =>
                            PoloidalFieldCoil pf_dz pf_dr (centre height x_offset))
                  heights x_offsets).
  set (rows := zip_with _ heights x_offsets).
  assert (Hlookup : ∀ i h, heights !! i = Some h →
            ∃ x, x_offsets !! i = Some x
                 ∧ names !! i = Some ("pf_coil_" +:+ str_int (Z.of_nat i) +:+ ".step")
                 ∧ coils !! i = Some (PoloidalFieldCoil pf_dz pf_dr (centre h x))).
  { intros i h Hh. assert (Hi := lookup_lt_Some _ _ _ Hh).
    destruct (lookup_lt_is_Some_2 x_offsets i) as [x Hx]; [lia|].
    exists x. split; [done|]. split.
    - subst names. rewrite list_lookup_fmap, lookup_seq_lt by done. done.
    - subst coils. rewrite lookup_zip_with, Hh. cbn. by rewrite Hx. }
  assert (Hnames : length names = length heights)
    by (subst names; by rewrite length_map, length_seq).
  assert (Hcoils : length coils = length heights)
    by (subst coils; rewrite length_zip_with; lia).
  rewrite (for_each_exact
             (fun i => (PyDict.update files (take i (zip names coils)), take i names))).
  2: done.
  2: { intros i [j h] Hih. rewrite list_lookup_imap in Hih.
       destruct (heights !! i) as [h'|] eqn:Hh; [|done]. injection Hih as <- <-.
       destruct (Hlookup i h' Hh) as (x & Hx & Hname & Hcoil).
       cbn [fst snd]. unfold getitem. rewrite Hx. cbn [mbind result_bind].
       rewrite (take_S_r names i _ Hname).
       rewrite (take_S_r (zip names coils) i
                  ("pf_coil_" +:+ str_int (Z.of_nat i) +:+ ".step",
                   PoloidalFieldCoil pf_dz pf_dr (centre h' x)))
         by (rewrite lookup_zip_with, Hname; cbn; by rewrite Hcoil).
       by rewrite dict_update_snoc. }
  cbn [mbind result_bind fst snd]. rewrite length_imap.
  rewrite !take_ge by (rewrite ?length_zip; lia).
  replace names with (map fst (zip names coils)) at 2 by (apply fst_zip; lia).
  rewrite export_import by (rewrite fst_zip by lia; apply pf_coil_names_NoDup).
  cbn [mbind result_bind fst snd]. rewrite fst_zip, snd_zip by lia.
  rewrite (for_each_exact (fun i => take i rows)).
  2: done.
  2: { intros i [j h] Hih. rewrite list_lookup_imap in Hih.
       destruct (heights !! i) as [h'|] eqn:Hh; [|done]. injection Hih as <- <-.
       destruct (Hlookup i h' Hh) as (x & Hx & _).
       cbn [fst snd]. unfold getitem. rewrite Hx. cbn [mbind result_bind].
       symmetry. erewrite take_S_r; [done|].
       subst rows. rewrite lookup_zip_with, Hh. cbn. by rewrite Hx. }
  cbn [mbind result_bind fst snd]. rewrite length_imap.
  rewrite take_ge by (subst rows; rewrite length_zip_with; lia). done.
Qed.

Lemma generate_pf_coil_set_IndexError (heights x_offsets : list F)
    (vessel_radius tf_dr pf_dr pf_dz major_radius : F) (inner_coil top : bool) files :
  (length x_offsets < length heights)%nat →
  generate_pf_coil_set heights x_offsets vessel_radius tf_dr pf_dr pf_dz major_radius
    inner_coil top files
  = Raise IndexError.
Proof.
  intros Hlen. unfold generate_pf_coil_set. cbv zeta.
  destruct (lookup_lt_is_Some_2 heights (length x_offsets) Hlen) as [h Hh].
  rewrite <- (take_drop_middle heights (length x_offsets) h Hh) at 1.
  rewrite imap_app. cbn [imap].
  match goal with
  | |- context [for_each ?body ?s (?pre ++ ?x :: ?post)] =>
      destruct (for_each_invariant (fun _ _ => True) body s pre) as (s' & Hpre & _);
        [done| |rewrite (for_each_raises body s s' pre post x IndexError Hpre)]
  end.
  - intros i [j h'] st Hih _. rewrite list_lookup_imap in Hih.
    destruct (take (length x_offsets) heights !! i) as [h''|] eqn:Hh'; [|done].
    injection Hih as <- <-.
    apply lookup_take_Some in Hh' as [_ Hi].
    destruct (lookup_lt_is_Some_2 x_offsets i Hi) as [x Hx].
    cbn [fst snd]. unfold getitem. rewrite Hx. cbn [mbind result_bind]. eauto.
  - done.
  - cbn [fst snd]. rewrite length_take, Nat.min_l, Nat.add_0_r by lia.
    unfold getitem. by rewrite lookup_ge_None_2 by lia.
Qed.

End TokamakGenCoils.

Section TokamakGenFunctions.

Context `{Float F} `{MathLib F}.

Import TokamakGen.

Implicit Types (files store : step_files (F := F)) (names : list string).

(** X20.  [generate_pf_coil_set] needs an offset for every height, and raises
    [IndexError] when the offsets run out.  With enough offsets it returns
    one coil per height, of height [pf_dz] and width [pf_dr], centred where
    [find_coil_centrepoint] puts it for the offset at the same position,
    and one row per coil for the PF coil file.  Every file pf_coil_[i].step
    it exported is removed again, together with any file of that name that
    was there before; no other file is touched. *)
Theorem generate_pf_coil_set_spec (heights x_offsets : list F)
    (vessel_radius tf_dr pf_dr pf_dz major_radius : F) (inner_coil top : bool) files :
  let centre := fun height x_offset =>
    find_coil_centrepoint height vessel_radius tf_dr x_offset inner_coil top in
  generate_pf_coil_set heights x_offsets vessel_radius tf_dr pf_dr pf_dz major_radius
    inner_coil top files
  = if decide (length heights ≤ length x_offsets)%nat then
      Ok (zip_with
            (fun height x_offset => PoloidalFieldCoil pf_dz pf_dr (centre height x_offset))
            heights x_offsets,
          foldl remove files
            (map (fun i : nat => "pf_coil_" +:+ str_int (Z.of_nat i) +:+ ".step")
               (seq 0 (length heights))),
          zip_with
            (fun height x_offset =>
               [CInt 10; CInt 10; CInt 2; CFloat (centre height x_offset).1; CFloat pf_dr;
                CFloat pf_dz; CInt 0; CFloat (centre height x_offset).2; CInt 0; CInt 0;
                CInt 1; CInt 0])
            heights x_offsets)
    else Raise IndexError.
Proof.
  intros centre. case_decide as Hlen.
  - by apply generate_pf_coil_set_Ok.
  - apply generate_pf_coil_set_IndexError. lia.
Qed.

Lemma solenoid_export (thickness loop_radius : F) (heights : list F)
    (st : step_files (F := F) * list string) :
  foldl
    (fun (st : step_files (F := F) * list string) height =>
       (PyDict.setitem st.1 ("solenoid_coil_" +:+ float_str height +:+ ".step")
          (PoloidalFieldCoil (float_of_Q (2 # 10)) thickness (loop_radius, height)),
        st.2 ++ ["solenoid_coil_" +:+ float_str height +:+ ".step"]))
    st heights
  = (PyDict.update st.1
       (map (fun height =>
               ("solenoid_coil_" +:+ float_str height +:+ ".step",
                PoloidalFieldCoil (float_of_Q (2 # 10)) thickness (loop_radius, height)))
          heights),
     st.2 ++ map (fun height => "solenoid_coil_" +:+ float_str height +:+ ".step") heights).
Proof.
  revert st. induction heights as [|h heights IH]; intros [store names].
  - cbn. by rewrite app_nil_r.
  - cbn [foldl map]. rewrite IH. cbn [fst snd PyDict.update foldl].
    by rewrite <- app_assoc.
Qed.

Lemma generate_solenoid_Ok (solenoid_length : F) (number_of_turns : Z)
    (loop_radius solenoid_thickness : F) files :
  NoDup (map (fun height => "solenoid_coil_" +:+ float_str height +:+ ".step")
           (solenoid_heights solenoid_length number_of_turns)) →
  generate_solenoid solenoid_length number_of_turns loop_radius solenoid_thickness files
  = Ok (map (fun height =>
               PoloidalFieldCoil (float_of_Q (2 # 10)) solenoid_thickness
                 (loop_radius, height))
          (solenoid_heights solenoid_length number_of_turns),
        foldl remove files
          (map (fun height => "solenoid_coil_" +:+ float_str height +:+ ".step")
             (solenoid_heights solenoid_length number_of_turns))).
Proof.
  intros Hnodup. unfold generate_solenoid. cbv zeta.
  rewrite solenoid_export. cbn [fst snd app].
  set (heights := solenoid_heights solenoid_length number_of_turns) in *.
  set (items := map _ heights).
  assert (Hfst : map fst items
                 = map (fun height => "solenoid_coil_" +:+ float_str height +:+ ".step")
                     heights)
    by (subst items; rewrite map_map; by apply map_ext).
  assert (Hsnd : map snd items
                 = map (fun height =>
                          PoloidalFieldCoil (float_of_Q (2 # 10)) solenoid_thickness
                            (loop_radius, height)) heights)
    by (subst items; rewrite map_map; by apply map_ext).
  rewrite <- Hfst. rewrite export_import by (by rewrite Hfst).
  cbn [mbind result_bind fst snd]. by rewrite Hsnd.
Qed.

Lemma generate_solenoid_dup (solenoid_length : F) (number_of_turns : Z)
    (loop_radius solenoid_thickness : F) files :
  ¬ NoDup (map (fun height => "solenoid_coil_" +:+ float_str height +:+ ".step")
             (solenoid_heights solenoid_length number_of_turns)) →
  ∃ msg,
    generate_solenoid solenoid_length number_of_turns loop_radius solenoid_thickness files
    = Raise (ValueError msg).
Proof.
  intros Hdup. unfold generate_solenoid. cbv zeta.
  rewrite solenoid_export. cbn [fst snd app].
  match goal with
  | |- context [import_all ?store [] ?names] =>
      destruct (import_all_dup names store [] Hdup) as [msg ->]
  end.
  by exists msg.
Qed.

(** X21.  [generate_solenoid], called with a numpy float as [run_code] does, names
    the file of a coil after its height.  When the heights print differently
    it returns one coil per turn, 0.2 high, at the loop radius and its
    height, in the order of the turns, and removes every file it exported.
    When two heights print alike, the two coils share a file: the first
    import removes it and the second raises [ValueError]. *)
Theorem generate_solenoid_spec (solenoid_length : F) (number_of_turns : Z)
    (loop_radius solenoid_thickness : F) files :
  let heights := solenoid_heights solenoid_length number_of_turns in
  let names := map (fun height => "solenoid_coil_" +:+ float_str height +:+ ".step") heights in
  (NoDup names →
   generate_solenoid solenoid_length number_of_turns loop_radius solenoid_thickness files
   = Ok (map (fun height =>
                PoloidalFieldCoil (float_of_Q (2 # 10)) solenoid_thickness
                  (loop_radius, height)) heights,
         foldl remove files names))
  ∧ (¬ NoDup names →
     ∃ msg,
       generate_solenoid solenoid_length number_of_turns loop_radius solenoid_thickness files
       = Raise (ValueError msg)).
Proof.
  intros heights names. split.
  - apply generate_solenoid_Ok.
  - apply generate_solenoid_dup.
Qed.

End TokamakGenFunctions.

Lemma seq_get_last {A} (l : list A) (x : A) : last l = Some x → seq_get l (-1) = Ok x.
Proof.
  intros Hlast. rewrite last_lookup in Hlast.
  assert (Hlen : (0 < length l)%nat) by (destruct l; [done|simpl; lia]).
  unfold seq_get, axis_index.
  replace ((0 <=? -1) && (-1 <? Z.of_nat (length l))) with false by done.
  replace ((- Z.of_nat (length l) <=? -1) && (-1 <? 0)) with true
    by (symmetry; apply andb_true_iff; split; [apply Z.leb_le; lia|done]).
  cbn [mbind result_bind]. unfold getitem.
  replace (Z.to_nat (Z.of_nat (length l) + -1)) with (pred (length l)) by lia.
  by rewrite Hlast.
Qed.

Section TokamakGenRun.

Context `{Float F} `{MathLib F}.

Import TokamakGen.

Implicit Types (files store : step_files (F := F)) (names : list string).

Lemma accumulate_from_length (total : F) (l : list F) :
  length (accumulate_from total l) = length l.
Proof. revert total. induction l as [|x l IH]; intros total; [done|]. cbn. by rewrite IH. Qed.

Lemma accumulate_length (l : list F) : length (accumulate l) = length l.
Proof. destruct l as [|x l]; [done|]. cbn. by rewrite accumulate_from_length. Qed.

Lemma get_r_and_z_points_length (r_0 a : F) :
  length (get_r_and_z_points r_0 a).1 = 107%nat
  ∧ length (get_r_and_z_points r_0 a).2 = 107%nat.
Proof.
  unfold get_r_and_z_points. cbv zeta. cbn [fst snd].
  by rewrite !length_map, length_seqZ.
Qed.

Lemma py_max_Ok (l : list F) : l ≠ [] → ∃ x, py_max l = Ok x.
Proof. destruct l; [done|]. cbn. eauto. Qed.

Lemma py_min_Ok (l : list F) : l ≠ [] → ∃ x, py_min l = Ok x.
Proof. destruct l; [done|]. cbn. eauto. Qed.

Lemma build_component_vessel (major_radius : F) (st : build_state) (item : F * string) :
  is_plasma st = false →
  ∃ st', build_component major_radius st item = Ok st'
         ∧ is_plasma st' = false
         ∧ map fst (reactor_components st') = map fst (reactor_components st) ++ [item.2]
         ∧ vessel_bound st'.
Proof.
  intros Hplasma. unfold build_component. rewrite Hplasma. cbv zeta.
  destruct (get_r_and_z_points_length major_radius item.1) as [Hr Hz].
  destruct (py_max_Ok (get_r_and_z_points major_radius item.1).2) as [top ->];
    [by destruct ((get_r_and_z_points major_radius item.1).2)|].
  destruct (py_min_Ok (get_r_and_z_points major_radius item.1).2) as [bottom ->];
    [by destruct ((get_r_and_z_points major_radius item.1).2)|].
  cbn [mbind result_bind]. eexists. split; [done|]. cbn.
  split; [done|]. split; [by rewrite map_app|]. by split; [|split].
Qed.

Lemma build_rest (major_radius : F) (items : list (F * string)) (st : build_state) :
  is_plasma st = false → items ≠ [] ∨ vessel_bound st →
  ∃ built, for_each (build_component major_radius) st items = Ok built
           ∧ map fst (reactor_components built)
             = map fst (reactor_components st) ++ map snd items
           ∧ vessel_bound built.
Proof.
  revert st. induction items as [|item items IH]; intros st Hplasma Hbound.
  - exists st. cbn. rewrite app_nil_r. by destruct Hbound.
  - destruct (build_component_vessel major_radius st item Hplasma)
      as (st1 & Hst1 & Hplasma1 & Hnames1 & Hbound1).
    destruct (IH st1 Hplasma1 (or_intror Hbound1)) as (built & Hbuilt & Hnames & Hb).
    exists built. cbn [for_each]. rewrite Hst1. cbn [mbind result_bind].
    split; [done|]. split; [|done]. rewrite Hnames, Hnames1, <- app_assoc. done.
Qed.

Lemma build_loop (major_radius : F) (items : list (F * string)) :
  (2 ≤ length items)%nat →
  ∃ built,
    for_each (build_component major_radius)
      {| is_plasma := true; reactor_components := [];
         vessel_r_points := []; vessel_z_points := [];
         vessel_top_bottom := None; vessel_height := f_of_Z 0 |} items = Ok built
    ∧ map fst (reactor_components built) = map snd items
    ∧ vessel_bound built.
Proof.
  destruct items as [|plasma [|item items]]; [simpl; lia..|]. intros _.
  rewrite for_each_cons.
  assert (Hplasma : ∀ st, is_plasma st = true →
            build_component major_radius st plasma
            = Ok {| is_plasma := false;
                    reactor_components :=
                      reactor_components st ++ [(plasma.2, torus major_radius plasma.1 360)];
                    vessel_r_points := vessel_r_points st;
                    vessel_z_points := vessel_z_points st;
                    vessel_top_bottom := vessel_top_bottom st;
                    vessel_height := vessel_height st |})
    by (intros st Hst; unfold build_component; by rewrite Hst).
  rewrite Hplasma by done. cbn [mbind result_bind].
  edestruct (build_rest major_radius (item :: items)) as (built & -> & Hnames & Hbound);
    [| |exists built; split; [done|]; split; [exact Hnames|exact Hbound]].
  - done.
  - by left.
Qed.

Lemma build_loop_short (major_radius : F) (items : list (F * string)) (built : build_state) :
  (length items ≤ 1)%nat →
  for_each (build_component major_radius)
    {| is_plasma := true; reactor_components := [];
       vessel_r_points := []; vessel_z_points := [];
       vessel_top_bottom := None; vessel_height := f_of_Z 0 |} items = Ok built →
  vessel_top_bottom built = None.
Proof.
  destruct items as [|plasma [|item items]]; [| |simpl; lia]; intros _.
  - by intros [= <-].
  - cbn. by intros [= <-].
Qed.

(** X22.  tokamakgen.py needs two components.  With a radial build or a list of
    names of fewer than two entries no component after the plasma is built,
    the variable [vessel_top] is never bound, and neither [run_code] nor
    generate_geometry.py returns. *)
Theorem run_code_needs_two_components (fuel : nat) (radial_build : list F)
    (component_names : list string) (aspect_ratio tf_dz tf_dr pf_dz pf_dr : F)
    (sol : bool) files :
  (length radial_build ≤ 1)%nat ∨ (length component_names ≤ 1)%nat →
  (∀ out, run_code fuel radial_build component_names aspect_ratio tf_dz tf_dr pf_dz pf_dr
            sol files ≠ Ok out)
  ∧ (∀ r, GenerateGeometry.main fuel
            {| GenerateGeometry.aspect_ratio := aspect_ratio;
               GenerateGeometry.radial_build := radial_build;
               GenerateGeometry.component_names := component_names;
               GenerateGeometry.TF_dz := tf_dz;
               GenerateGeometry.TF_dr := tf_dr;
               GenerateGeometry.PF_dr := pf_dr;
               GenerateGeometry.PF_dz := pf_dz;
               GenerateGeometry.With_Sol := sol |} files ≠ Ok r).
Proof.
  intros Hshort.
  assert (Hrun : ∀ out, run_code fuel radial_build component_names aspect_ratio tf_dz tf_dr
                          pf_dz pf_dr sol files ≠ Ok out).
  { intros out Hout. unfold run_code in Hout. cbv zeta in Hout.
    apply bind_Ok in Hout as (plasma_radius & _ & Hout).
    apply bind_Ok in Hout as (built & Hbuilt & Hout).
    apply bind_Ok in Hout as (vessel_minor_radius & _ & Hout).
    apply bind_Ok in Hout as (tf_coils & _ & Hout).
    apply bind_Ok in Hout as (tb & Htb & _).
    apply build_loop_short in Hbuilt; [by rewrite Hbuilt in Htb|].
    rewrite length_zip, length_map, accumulate_length. lia. }
  split; [done|].
  intros r Hr. unfold GenerateGeometry.main in Hr. cbn in Hr.
  apply bind_Ok in Hr as (_x & _ & Hr).
  apply bind_Ok in Hr as (out & Hout & _). by apply Hrun in Hout.
Qed.

End TokamakGenRun.

Lemma map_fst_imap {A B} (g : nat → B) (l : list A) :
  map fst (imap (fun i x => (g i, x)) l) = map g (seq 0 (length l)).
Proof.
  revert g. induction l as [|x l IH]; intros g; [done|].
  cbn [imap map fst length seq]. f_equal.
  rewrite <- seq_shift, map_map. rewrite <- (IH (fun i => g (Datatypes.S i))).
  f_equal.
Qed.

Section TokamakGenAssemblies.

Context `{Float F} `{MathLib F}.

Import TokamakGen.

Implicit Types (files store : step_files (F := F)) (names : list string).

Lemma named_names (prefix : string) (objects : list (solid (F := F))) :
  map fst (named prefix objects)
  = map (fun i : nat => prefix +:+ "_" +:+ str_int (Z.of_nat i)) (seq 0 (length objects)).
Proof. unfold named. apply (map_fst_imap (fun i : nat => prefix +:+ "_" +:+ str_int (Z.of_nat i))). Qed.

Lemma cut_by_previous_names (previous : solid) (components : assembly (F := F)) :
  map fst (cut_by_previous previous components) = map fst components.
Proof.
  revert previous. induction components as [|[name c] components IH]; intros previous; [done|].
  cbn. by rewrite IH.
Qed.

Lemma cut_components_names (components : assembly (F := F)) :
  map fst (cut_components components) = map fst components.
Proof. destruct components as [|[name c] components]; [done|]. cbn. by rewrite cut_by_previous_names. Qed.

(** Files removed under the same names, in whatever order and however
    often, leave the same files. *)
Lemma remove_all_same_names names names' files :
  (∀ n, n ∈ names ↔ n ∈ names') →
  foldl remove files names = foldl remove files names'.
Proof.
  intros Hsame. rewrite !remove_all_filter.
  assert (Hpred : ∀ key,
            forallb (fun n => negb (String.eqb key n)) names
            = forallb (fun n => negb (String.eqb key n)) names').
  { assert (Hin : ∀ l key,
              forallb (fun n => negb (String.eqb key n)) l = true ↔ key ∉ l).
    { intros l key. rewrite forallb_forall. split.
      - intros Hall Hkey. apply list_elem_of_In in Hkey. specialize (Hall key Hkey).
        by rewrite String.eqb_refl in Hall.
      - intros Hkey n Hn. apply list_elem_of_In in Hn.
        destruct (String.eqb_spec key n) as [->|_]; [done|done]. }
    intros key. apply eq_true_iff_eq. rewrite !Hin. by rewrite Hsame. }
  induction files as [|item files IH]; [done|]. cbn [List.filter].
  by rewrite Hpred, IH.
Qed.

Lemma write_csv_length (r_points z_points : list F) :
  length (write_csv r_points z_points) = (length r_points `min` length z_points)%nat.
Proof. unfold write_csv. by rewrite length_zip_with. Qed.

(** What the script takes for granted of the libraries: [np.linspace] answers
    as many numbers as asked for, and a float that is written to a file is
    read back as the same float. *)
Hypothesis np_linspace_length : ∀ a b n, length (np_linspace a b n) = n.

Hypothesis float_round_trip : ∀ x : F, float_of_string (float_str x) = Some x.

Lemma write_csv_well_formed (r_points z_points : list F) :
  TfStep.well_formed_vessel (write_csv r_points z_points).
Proof.
  unfold TfStep.well_formed_vessel, write_csv.
  revert z_points. induction r_points as [|r rs IH]; intros [|z zs]; cbn [zip_with];
    try constructor; [|apply IH].
  split; eexists _, _; (split; [reflexivity|apply float_round_trip]).
Qed.

(** What [run_code] has done when it reaches the loop over the coil
    positions, on a radial build of two or more layers with a name for
    every layer. *)
Lemma run_code_reaches_coils (fuel : nat) (radial_build : list F)
    (component_names : list string) (aspect_ratio tf_dz tf_dr pf_dz pf_dr : F)
    (sol : bool) (vessel_minor_radius : F) files :
  (2 ≤ length radial_build)%nat →
  length component_names = length radial_build →
  last (map round2 (accumulate radial_build)) = Some vessel_minor_radius →
  fis_zero vessel_minor_radius = false →
  (108 < fuel)%nat →
  ∃ (offset_x inner_offsets top_inner_coils p1 p2 p3 p4 : list F) (major_radius : F)
    (components : assembly (F := F)) (filepath : list csv_row) (tf_coils : TfStep.outcome),
    run_code fuel radial_build component_names aspect_ratio tf_dz tf_dr pf_dz pf_dr sol files
    = (cs ← for_each
              (add_coil_set offset_x inner_offsets top_inner_coils vessel_minor_radius
                 tf_dr pf_dr pf_dz major_radius sol)
              {| cs_tokamak := components; cs_coils := []; cs_rows := [];
                 cs_files := files |}
              [("top_coils", p1); ("bottom_coils", p2); ("top_inner_coils", p3);
               ("bottom_inner_coils", p4)];
       Ok {| tokamak_assembly :=
               cs_tokamak cs ++ [("TF_coils", TFCoils (TfStep.assy tf_coils))];
             coils := cs_coils cs ++ [("TF_coils", TFCoils (TfStep.assy tf_coils))];
             reactor_only := components;
             vessel_file := filepath;
             tf_coil_file := TfStep.tf_file tf_coils;
             pf_rows := cs_rows cs;
             left_files := cs_files cs |})
    ∧ length offset_x = 3%nat ∧ length inner_offsets = 5%nat
    ∧ top_inner_coils ≠ []
    ∧ length p1 = 3%nat ∧ length p2 = 3%nat ∧ length p3 = 5%nat ∧ length p4 = 5%nat
    ∧ map fst components = component_names
    ∧ length filepath = 107%nat.
Proof.
  intros Hlayers Hnames Hlast Hradius Hfuel.
  unfold run_code. cbv zeta.
  set (radii := map round2 (accumulate radial_build)) in *.
  assert (Hradii : length radii = length radial_build)
    by (subst radii; by rewrite length_map, accumulate_length).
  destruct (seq_get_Ok radii 0) as (plasma_radius & -> & _); [lia|].
  cbn [mbind result_bind].
  destruct (build_loop (fmul aspect_ratio plasma_radius) (zip radii component_names))
    as (built & -> & Hcomponents & Hr & Hz & [[vessel_top vessel_bottom] Htb]);
    [rewrite length_zip; lia|].
  rewrite snd_zip in Hcomponents by lia.
  cbn [mbind result_bind]. rewrite (seq_get_last radii vessel_minor_radius Hlast).
  cbn [mbind result_bind].
  destruct (tf_step_Ok fuel vessel_minor_radius
              (write_csv (vessel_r_points built) (vessel_z_points built)) tf_dz tf_dr)
    as [tf_coils ->];
    [by apply write_csv_well_formed|done|rewrite write_csv_length, Hr, Hz; simpl; lia|lia|].
  cbn [mbind result_bind]. rewrite Htb. cbn [mbind result_bind fst snd].
  eexists _, _, _, _, _, _, _, _, _, _, _. split; [reflexivity|].
  rewrite ?length_app, !np_linspace_length, cut_components_names, write_csv_length, Hr, Hz.
  repeat split; try done. by destruct (np_linspace _ _ 4).
Qed.

(** One pass of the loop over the coil positions, with the solenoid when
    [sol] is set and the files of its coils have different names. *)
Lemma add_coil_set_spec (offset_x inner_offsets top_inner_coils : list F)
    (vessel_minor_radius tf_dr pf_dr pf_dz major_radius lowest : F) (sol : bool)
    (st : coil_state (F := F)) (label : string) (positions : list F) :
  (length positions
   ≤ length (if has_substring "inner" label then inner_offsets else offset_x))%nat →
  py_min top_inner_coils = Ok lowest →
  let solenoid_files :=
    map (fun height => "solenoid_coil_" +:+ float_str height +:+ ".step")
      (solenoid_heights (fmul (f_of_Z 2) lowest) 40) in
  let names :=
    map (fun i : nat => label +:+ "_" +:+ str_int (Z.of_nat i)) (seq 0 (length positions))
    ++ (if sol
        then map (fun i : nat => ("solenoid_" +:+ label) +:+ "_" +:+ str_int (Z.of_nat i))
               (seq 0 40)
        else []) in
  (sol = true → NoDup solenoid_files) →
  ∃ st',
    add_coil_set offset_x inner_offsets top_inner_coils vessel_minor_radius tf_dr pf_dr
      pf_dz major_radius sol st (label, positions) = Ok st'
    ∧ map fst (cs_tokamak st') = map fst (cs_tokamak st) ++ names
    ∧ map fst (cs_coils st') = map fst (cs_coils st) ++ names
    ∧ length (cs_rows st') = (length (cs_rows st) + length positions)%nat
    ∧ cs_files st'
      = foldl remove (cs_files st)
          (map (fun i : nat => "pf_coil_" +:+ str_int (Z.of_nat i) +:+ ".step")
             (seq 0 (length positions))
           ++ (if sol then solenoid_files else [])).
Proof.
  intros Hlen Hlowest solenoid_files names Hnodup. unfold add_coil_set. cbv zeta.
  cbn [fst snd]. rewrite generate_pf_coil_set_Ok by done. cbn [mbind result_bind fst snd].
  rewrite Hlowest. cbn [mbind result_bind fst snd].
  assert (Hpf : ∀ objects : list (solid (F := F)),
            length objects = length positions →
            map fst (named label objects)
            = map (fun i : nat => label +:+ "_" +:+ str_int (Z.of_nat i))
                (seq 0 (length positions)))
    by (intros objects <-; apply named_names).
  destruct sol.
  - rewrite (generate_solenoid_Ok _ _ _ _ _ (Hnodup eq_refl)).
    cbn [mbind result_bind fst snd]. eexists. split; [done|].
    cbn [cs_tokamak cs_coils cs_rows cs_files].
    rewrite !map_app, !length_app, !length_zip_with, Hpf, named_names, length_map,
      foldl_app by (rewrite length_zip_with; lia).
    replace (length (solenoid_heights (fmul (f_of_Z 2) lowest) 40)) with 40%nat
      by (unfold solenoid_heights; cbv zeta; by rewrite length_map, length_seqZ).
    rewrite Nat.min_l by done. done.
  - cbn [mbind result_bind fst snd]. eexists. split; [done|].
    cbn [cs_tokamak cs_coils cs_rows cs_files named imap app].
    rewrite !app_nil_r, !map_app, !length_app, !length_zip_with, Hpf
      by (rewrite length_zip_with; lia).
    rewrite Nat.min_l by done. subst names. by rewrite !app_nil_r.
Qed.


(** X23.  tokamakgen.py without solenoid.  On a radial build of two or more
    layers, one name per layer, whose last accumulated radius is not zero,
    generate_geometry.py runs to its end.  The reactor it saves holds the
    named components, then sixteen PF coils (three above and three below
    the vessel, five above and five below on the inner side), then the
    assembly of the TF coils; the coils it saves are the same without the
    components.  The vessel file has 107 rows, the PF coil file receives the
    header and one row per PF coil, and the STEP files of the PF coils are
    removed again. *)
Theorem generate_geometry_assemblies (fuel : nat) (g : GenerateGeometry.geometry (F := F))
    (vessel_minor_radius : F) files :
  (2 ≤ length (GenerateGeometry.radial_build g))%nat →
  length (GenerateGeometry.component_names g) = length (GenerateGeometry.radial_build g) →
  last (map round2 (accumulate (GenerateGeometry.radial_build g)))
  = Some vessel_minor_radius →
  fis_zero vessel_minor_radius = false →
  GenerateGeometry.With_Sol g = false →
  (108 < fuel)%nat →
  let pf_names :=
    ["top_coils_0"; "top_coils_1"; "top_coils_2";
     "bottom_coils_0"; "bottom_coils_1"; "bottom_coils_2";
     "top_inner_coils_0"; "top_inner_coils_1"; "top_inner_coils_2";
     "top_inner_coils_3"; "top_inner_coils_4";
     "bottom_inner_coils_0"; "bottom_inner_coils_1"; "bottom_inner_coils_2";
     "bottom_inner_coils_3"; "bottom_inner_coils_4"] in
  ∃ out,
    GenerateGeometry.main fuel g files = Ok (out, GenerateGeometry.pf_header :: pf_rows out)
    ∧ map fst (tokamak_assembly out)
      = GenerateGeometry.component_names g ++ pf_names ++ ["TF_coils"]
    ∧ map fst (coils out) = pf_names ++ ["TF_coils"]
    ∧ map fst (reactor_only out) = GenerateGeometry.component_names g
    ∧ length (vessel_file out) = 107%nat
    ∧ length (pf_rows out) = 16%nat
    ∧ left_files out
      = foldl remove files
          ["pf_coil_0.step"; "pf_coil_1.step"; "pf_coil_2.step"; "pf_coil_3.step";
           "pf_coil_4.step"].
Proof.
  destruct g as [aspect_ratio radial_build component_names tf_dz tf_dr pf_dr pf_dz sol].
  cbn [GenerateGeometry.radial_build GenerateGeometry.component_names
       GenerateGeometry.With_Sol].
  intros Hlayers Hnames Hlast Hradius -> Hfuel.
  unfold GenerateGeometry.main.
  cbn [GenerateGeometry.radial_build GenerateGeometry.component_names
       GenerateGeometry.With_Sol GenerateGeometry.aspect_ratio GenerateGeometry.TF_dz
       GenerateGeometry.TF_dr GenerateGeometry.PF_dz GenerateGeometry.PF_dr].
  destruct (seq_get_Ok radial_build 0) as (r0 & -> & _); [lia|].
  cbn [mbind result_bind].
  destruct (run_code_reaches_coils fuel radial_build component_names aspect_ratio tf_dz
              tf_dr pf_dz pf_dr false vessel_minor_radius files)
    as (offset_x & inner_offsets & top_inner_coils & p1 & p2 & p3 & p4 & major_radius
        & components & filepath & tf_coils & -> & Hx & Hi & Htop & Hp1 & Hp2 & Hp3 & Hp4
        & Hcomponents & Hfile); [done..|].
  destruct (py_min_Ok top_inner_coils Htop) as [lowest Hlowest].
  rewrite for_each_cons.
  destruct (add_coil_set_spec offset_x inner_offsets top_inner_coils vessel_minor_radius
              tf_dr pf_dr pf_dz major_radius lowest false
              {| cs_tokamak := components; cs_coils := []; cs_rows := [];
                 cs_files := files |} "top_coils" p1)
    as (cs1 & -> & Ht1 & Hc1 & Hr1 & Hf1);
    [change (has_substring "inner" "top_coils") with false; lia|done|done|].
  cbn [mbind result_bind]. rewrite for_each_cons.
  destruct (add_coil_set_spec offset_x inner_offsets top_inner_coils vessel_minor_radius
              tf_dr pf_dr pf_dz major_radius lowest false cs1 "bottom_coils" p2)
    as (cs2 & -> & Ht2 & Hc2 & Hr2 & Hf2);
    [change (has_substring "inner" "bottom_coils") with false; lia|done|done|].
  cbn [mbind result_bind]. rewrite for_each_cons.
  destruct (add_coil_set_spec offset_x inner_offsets top_inner_coils vessel_minor_radius
              tf_dr pf_dr pf_dz major_radius lowest false cs2 "top_inner_coils" p3)
    as (cs3 & -> & Ht3 & Hc3 & Hr3 & Hf3);
    [change (has_substring "inner" "top_inner_coils") with true; lia|done|done|].
  cbn [mbind result_bind]. rewrite for_each_cons.
  destruct (add_coil_set_spec offset_x inner_offsets top_inner_coils vessel_minor_radius
              tf_dr pf_dr pf_dz major_radius lowest false cs3 "bottom_inner_coils" p4)
    as (cs4 & -> & Ht4 & Hc4 & Hr4 & Hf4);
    [change (has_substring "inner" "bottom_inner_coils") with true; lia|done|done|].
  cbn [mbind result_bind for_each].
  rewrite Hp1, Hp2, Hp3, Hp4 in *.
  cbn [cs_tokamak cs_coils cs_rows cs_files length] in *.
  eexists. split; [reflexivity|].
  cbn [tokamak_assembly coils reactor_only vessel_file pf_rows left_files].
  rewrite !map_app, Ht4, Ht3, Ht2, Ht1, Hc4, Hc3, Hc2, Hc1, Hr4, Hr3, Hr2, Hr1.
  rewrite Hcomponents, Hf4, Hf3, Hf2, Hf1, <- !foldl_app, !app_nil_r.
  split; [by rewrite <- !app_assoc|]. split; [done|]. split; [done|].
  split; [done|]. split; [done|].
  apply remove_all_same_names. intros n. vm_compute seq. cbn [map app].
  rewrite !elem_of_cons. tauto.
Qed.


End TokamakGenAssemblies.

(** ** The further properties on concrete inputs *)

#[local] Existing Instance QFloat.Q_Float.
#[local] Existing Instance QMath.Q_MathLib.

Lemma QMath_linspace_length (a b : Q) (n : nat) : length (np_linspace a b n) = n.
Proof. cbn. unfold QMath.linspace. by rewrite length_map, length_seq. Qed.

Lemma QMath_acos_defined (r theta : Q) :
  is_Some (facos (fdiv (fmul (fneg r) (fcos theta)) (fneg r))).
Proof. by eexists. Qed.

Lemma tf_step_returns_iff_witness :
  (∃ out, TfStep.tf_step 20 (1 # 2)%Q Examples.vessel_rows (1 # 10)%Q (1 # 10)%Q = Ok out)
  ↔ TfStep.well_formed_vessel Examples.vessel_rows ∧ fis_zero (1 # 2)%Q = false.
Proof.
  apply (tf_step_returns_iff 20 (1 # 2)%Q Examples.vessel_rows (1 # 10)%Q (1 # 10)%Q).
  - vm_compute. lia.
  - lia.
Defined.


Lemma vessel_rows_returns :
  ∃ out, TfStep.tf_step 20 (1 # 2)%Q Examples.vessel_rows (1 # 10)%Q (1 # 10)%Q = Ok out.
Proof. eexists. vm_compute. reflexivity. Qed.

Lemma tf_step_profile_closed_witness :
  ∃ out (points_out points_tot : list (list Q)),
    TfStep.tf_step 20 (1 # 2)%Q Examples.vessel_rows (1 # 10)%Q (1 # 10)%Q = Ok out
    ∧ TfStep.assy out
      = map (TfStep.tf_coil 12 (TfStep.coil_profile points_out points_tot (1 # 10)%Q))
            [1; 2; 3; 4; 5; 6; 7; 8; 9; 10; 11; 12]
    ∧ length points_out = 4%nat
    ∧ length points_tot = 4%nat
    ∧ points_out !! 3%nat = points_out !! 0%nat
    ∧ points_tot !! 3%nat = points_tot !! 0%nat.
Proof.
  destruct vessel_rows_returns as [out Hout].
  destruct (tf_step_profile_closed 20 (1 # 2)%Q Examples.vessel_rows (1 # 10)%Q (1 # 10)%Q
              out Hout) as (po & pt & Hassy & Hlo & Hlt & _ & _ & Hco & Hct).
  exists out, po, pt. repeat split; assumption.
Defined.

Lemma tf_step_coil_file_witness :
  ∃ out, TfStep.tf_step 20 (1 # 2)%Q Examples.vessel_rows (1 # 10)%Q (1 # 10)%Q = Ok out
         ∧ length (TfStep.tf_file out) = 72%nat.
Proof.
  destruct vessel_rows_returns as [out Hout].
  destruct (tf_step_coil_file 20 (1 # 2)%Q Examples.vessel_rows (1 # 10)%Q (1 # 10)%Q
              out Hout) as (blocks & _ & _ & Hlen).
  exists out. split; [exact Hout|exact Hlen].
Defined.

Lemma boundary_rows_returns :
  ∃ out, RadialFromVmec.make_build 20 Examples.boundary_rows 2 2 [1; 2]%Q = Ok out.
Proof. eexists. vm_compute. reflexivity. Qed.

Lemma make_build_ignores_thickness_witness :
  ∃ out out',
    RadialFromVmec.make_build 20 Examples.boundary_rows 2 2 [1; 2]%Q = Ok out
    ∧ RadialFromVmec.make_build 20 Examples.boundary_rows 2 2 [5]%Q = Ok out'
    ∧ RadialFromVmec.gmsh out' = RadialFromVmec.gmsh out.
Proof.
  destruct boundary_rows_returns as [out Hout].
  destruct (make_build_ignores_thickness 20 Examples.boundary_rows 2 2 1%Q 5%Q [2%Q] []
              out Hout) as (out' & shared & Hout' & Hgmsh & _).
  exists out, out'. repeat split; assumption.
Defined.


Lemma make_build_points_witness :
  ∃ out pts rest,
    RadialFromVmec.make_build 20 Examples.boundary_rows 2 2 [1; 2]%Q = Ok out
    ∧ RadialFromVmec.gmsh out
      = [RadialFromVmec.initialize;
         RadialFromVmec.option_setNumber "General.NumThreads" 16;
         RadialFromVmec.option_setNumber "General.Terminal" 1;
         RadialFromVmec.model_add "stell_layers";
         RadialFromVmec.option_setString "Geometry.OCCTargetUnit" "M"] ++ pts ++ rest
    ∧ Z.of_nat (length pts) = 2 * 2.
Proof.
  destruct boundary_rows_returns as [out Hout].
  destruct (make_build_points 20 Examples.boundary_rows 2 2 [1; 2]%Q out Hout)
    as (pts & rest & Hgmsh & Hlen & _).
  exists out, pts, rest. repeat split; assumption.
Defined.

Lemma make_build_volume_witness :
  ∃ out,
    RadialFromVmec.make_build 20 Examples.boundary_rows 2 2 [1; 2]%Q = Ok out
    ∧ surface_tags (RadialFromVmec.gmsh out) = [0; 1; 2; 3]
    ∧ volumes (RadialFromVmec.gmsh out) = [([1], 1)].
Proof.
  destruct boundary_rows_returns as [out Hout].
  destruct (make_build_volume 20 Examples.boundary_rows 2 2 [1; 2]%Q out Hout)
    as (_ & Htags & _ & Hvolumes).
  exists out. repeat split; assumption.
Defined.

Lemma generate_sphere_batch_witness :
  SphereGen.generate_sphere [1; 2]%Q ["plasma"; "vessel"] (Some [1; 2]%Q) "XY" true
    true true false "."
  = SphereGen.create_reactor_layer [1; 2]%Q ["plasma"; "vessel"] 2 "XY" true true false "." [].
Proof.
  apply (proj1 (generate_sphere_batch [1; 2]%Q ["plasma"; "vessel"] [1; 2]%Q "XY" true true
                  "." eq_refl) ltac:(discriminate) [1%Q] 2%Q eq_refl).
Defined.

Lemma add_azimuthal_beamlines_count_witness :
  ∃ updated_parts beamlines_list,
    SphereGenBeamlines.add_azimuthal_beamlines
      [SphereGen.Sphere "XY" 1; SphereGen.Sphere "XY" 2] [4; 1; 1]%Q [2; 3] 3 true
    = Ok (updated_parts, beamlines_list)
    ∧ length updated_parts = 2%nat
    ∧ Forall (fun part => cuts part = 80%nat) updated_parts
    ∧ length beamlines_list = 160%nat.
Proof.
  apply (add_azimuthal_beamlines_count QMath_linspace_length QMath_acos_defined
           [SphereGen.Sphere "XY" 1; SphereGen.Sphere "XY" 2] 4 1 1 [2; 3] 3 true).
  repeat constructor; lia.
Defined.

Lemma main_without_beamlines_witness :
  SphereGenBeamlines.main Examples.geometry_match BeamlineExamples.without_beamlines
  = Raise TypeError.
Proof.
  apply (main_without_beamlines Examples.geometry_match BeamlineExamples.without_beamlines
           eq_refl eq_refl).
  discriminate.
Defined.

Lemma main_with_beamlines_witness :
  ∃ assembly,
    SphereGenBeamlines.main Examples.geometry_match BeamlineExamples.with_beamlines
    = Ok assembly
    ∧ length assembly = 6%nat.
Proof.
  apply (main_with_beamlines QMath_linspace_length QMath_acos_defined
           Examples.geometry_match BeamlineExamples.with_beamlines 4 1 1
           eq_refl eq_refl eq_refl).
  repeat constructor; lia.
Defined.

Lemma ZFloat_linspace_length (a b : Z) (n : nat) :
  length (np_linspace (MathLib := ZFloat.Z_MathLib) a b n) = n.
Proof. cbn. unfold ZFloat.linspace. by rewrite length_map, length_seq. Qed.

Lemma ZFloat_round_trip (x : Z) :
  float_of_string (Float := ZFloat.Z_Float) (float_str (Float := ZFloat.Z_Float) x) = Some x.
Proof.
  cbn. unfold str_int.
  assert (Hpos : Z.to_int x ≠ Decimal.Pos Decimal.Nil).
  { intros Hx. assert (Heq : x = Z.of_int (Decimal.Pos Decimal.Nil)) by (by rewrite <- Hx, of_to).
    cbn in Heq. subst x. discriminate Hx. }
  assert (Hneg : Z.to_int x ≠ Decimal.Neg Decimal.Nil).
  { intros Hx. assert (Heq : x = Z.of_int (Decimal.Neg Decimal.Nil)) by (by rewrite <- Hx, of_to).
    cbn in Heq. subst x. discriminate Hx. }
  rewrite (NilZero.isi (Z.to_int x) Hpos Hneg). cbn. by rewrite of_to.
Qed.

Lemma generate_solenoid_spec_witness :
  TokamakGen.generate_solenoid (H := QFloat.Q_Float) (H0 := QMath.Q_MathLib)
    4%Q 2 (8 # 100)%Q (1 # 10)%Q []
  = Ok ([TokamakGen.PoloidalFieldCoil (2 # 10)%Q (1 # 10)%Q ((8 # 100)%Q, (-8 # 4)%Q);
         TokamakGen.PoloidalFieldCoil (2 # 10)%Q (1 # 10)%Q ((8 # 100)%Q, (0 # 4)%Q)], []).
Proof.
  rewrite (proj1 (generate_solenoid_spec (H := QFloat.Q_Float) (H0 := QMath.Q_MathLib)
                    4%Q 2 (8 # 100)%Q (1 # 10)%Q [])).
  - vm_compute. reflexivity.
  - apply (bool_decide_unpack _). vm_compute. exact I.
Defined.

Lemma run_code_needs_two_components_witness :
  match TokamakGen.run_code (H := QFloat.Q_Float) (H0 := QMath.Q_MathLib)
          200 [1%Q] ["Plasma"] 2%Q 1%Q 1%Q 1%Q 1%Q false [] with
  | Ok _ => False
  | _ => True
  end.
Proof.
  destruct (TokamakGen.run_code (H := QFloat.Q_Float) (H0 := QMath.Q_MathLib)
              200 [1%Q] ["Plasma"] 2%Q 1%Q 1%Q 1%Q 1%Q false []) as [out| |] eqn:Hout;
    [|exact I..].
  apply (proj1 (run_code_needs_two_components (H := QFloat.Q_Float) (H0 := QMath.Q_MathLib)
                  200 [1%Q] ["Plasma"] 2%Q 1%Q 1%Q 1%Q 1%Q false []
                  ltac:(left; simpl; lia)) out Hout).
Defined.

#[local] Existing Instance ZFloat.Z_Float.
#[local] Existing Instance ZFloat.Z_MathLib.

Lemma generate_geometry_assemblies_witness :
  ∃ out,
    GenerateGeometry.main 109 TokamakExamples.two_layers []
    = Ok (out, GenerateGeometry.pf_header :: TokamakGen.pf_rows out)
    ∧ length (TokamakGen.pf_rows out) = 16%nat
    ∧ map fst (TokamakGen.reactor_only out) = ["Plasma"; "Vessel"]
    ∧ TokamakGen.left_files out = [].
Proof.
  destruct (generate_geometry_assemblies (H := ZFloat.Z_Float) (H0 := ZFloat.Z_MathLib)
              ZFloat_linspace_length ZFloat_round_trip
              109 TokamakExamples.two_layers 3 [])
    as (out & Hout & _ & _ & Hreactor & _ & Hrows & Hfiles).
  - simpl. lia.
  - reflexivity.
  - reflexivity.
  - reflexivity.
  - reflexivity.
  - lia.
  - exists out. repeat split; assumption.
Defined.

